(** * Ticketmaster resale notifier: scrape / detect / notify

    A shallow embedding of the Python package [ticketmaster_resale_notify]
    (models.py, notifications.py, browser.py, scraper.py, app.py) and the
    properties of its control loop.

    Conventions of the embedding:
    - Python [int] is [Z]; a Python [float] is the rational number it
      denotes ([Q]); [str] is [string] (the UTF-8 bytes of the text);
    - [Optional[T]] is [option T];
    - a call that may raise is a value of [outcome]: [Returns v] or
      [Raises e], where [e] stands for an instance of [Exception] (what the
      [except Exception] handlers of the package catch);
    - coroutines are run to completion in program order; what the outside
      world answers (the page, the transport) is an explicit argument. *)

From Stdlib Require Import List String Ascii Bool Arith ZArith QArith Qabs Qround Lia Lqa.
From Stdlib Require Import DecimalString.
Import ListNotations.

Local Open Scope string_scope.
Local Open Scope Z_scope.
Local Open Scope list_scope.

(** ** Outcomes of calls that may raise *)

Inductive exn : Type := Exception (msg : string).

Inductive outcome (A : Type) : Type :=
| Returns (a : A)
| Raises (e : exn).
Arguments Returns {A} a.
Arguments Raises {A} e.

(** [range lo hi] is Python's [range(lo, hi)]. *)
Definition range (lo hi : Z) : list Z :=
  map (fun i => lo + Z.of_nat i) (seq 0 (Z.to_nat (hi - lo))).

(** ** models.py *)

Module Models.

Record Event := {
  url : string;
  name : option string;
  venue : option string
}.

Record Ticket := {
  event : option Event;
  section : string;
  row : option string;
  price : option Q;
  quantity : Z;
  is_verified_resale : bool;
  listing_url : option string
}.

Record Notification := {
  title : string;
  message : string;
  priority : Z;
  tags : option (list string);
  actions : option (list (list (string * string)))
}.

Record NotificationConfig := {
  enabled : bool;
  service : string;
  topic : option string;
  retry_attempts : Z;
  retry_delay : Z
}.

(** The dataclass defaults of [NotificationConfig]. *)
Definition default_NotificationConfig : NotificationConfig :=
  {| enabled := true; service := "ntfy"; topic := None;
     retry_attempts := 3; retry_delay := 5 |}.

End Models.

(** ** notifications.py *)

Module Notifications.
Import Models.

(** What one run of [NotificationService.send] did to the world: how many
    times [_send_impl] was awaited and which [asyncio.sleep] delays were
    awaited, oldest first. *)
Record effects := {
  invocations : nat;
  sleeps : list Z
}.

Definition no_effects : effects := {| invocations := 0; sleeps := [] |}.

Definition invoked (fx : effects) : effects :=
  {| invocations := S (invocations fx); sleeps := sleeps fx |}.

Definition slept (delay : Z) (fx : effects) : effects :=
  {| invocations := invocations fx; sleeps := sleeps fx ++ [delay] |}.

Section NotificationService.

(** [_send_impl] is abstract in the base class.  Its behaviour is given
    by what its [k]-th invocation (counting from 0) does with the
    notification: return a boolean or raise. *)
Variable _send_impl : nat -> Notification -> outcome bool.
Variable config : NotificationConfig.

(** The body of [for attempt in range(1, self.retry_attempts + 1)],
    followed by the [return False] after the loop. *)
Fixpoint send_loop (attempts : list Z) (notification : Notification)
         (fx : effects) : outcome bool * effects :=
  match attempts with
  | [] => (Returns false, fx)
  | attempt :: rest =>
      match _send_impl (invocations fx) notification with
      | Returns b => (Returns b, invoked fx)
      | Raises _ =>
          if attempt =? retry_attempts config
          then (Returns false, invoked fx)
          else
            let delay := retry_delay config * attempt in
            send_loop rest notification (slept delay (invoked fx))
      end
  end.

Definition send (notification : Notification) : outcome bool * effects :=
  send_loop (range 1 (retry_attempts config + 1)) notification no_effects.

End NotificationService.

(** Linear backoff: the delays [d*1; d*2; ...; d*k]. *)
Definition backoff (d : Z) (k : nat) : list Z :=
  map (fun attempt => d * attempt) (range 1 (Z.of_nat k + 1)).

(** The test double of the retry test: raise, raise, then return [True]. *)
Definition fails_twice_then_succeeds (k : nat) (_ : Notification) : outcome bool :=
  match k with
  | 0%nat | 1%nat => Raises (Exception "Failed")
  | _ => Returns true
  end.

(** A service as [NotificationManager] sees it: something with a [send]
    coroutine.  [send] of a subclass or of a test double may raise. *)
Record NotificationService := {
  class_name : string;
  service_send : Notification -> outcome bool
}.

(** The retrying [send] of the base class, packaged as a service. *)
Definition retrying_service (cls : string)
           (impl : nat -> Notification -> outcome bool)
           (config : NotificationConfig) : NotificationService :=
  {| class_name := cls;
     service_send := fun n => fst (send impl config n) |}.

(** Observable events of [send_notification]: a service's [send] being
    awaited with a notification, and an error being logged for a service. *)
Inductive manager_event :=
| Dispatched (cls : string) (n : Notification)
| LoggedError (cls : string) (e : exn).

(** [asyncio.gather] with [return_exceptions=True]: every coroutine is
    run, and an exception becomes that coroutine's result. *)
Definition gather_return_exceptions
           (services : list NotificationService) (n : Notification)
  : list (outcome bool) * list manager_event :=
  (map (fun s => service_send s n) services,
   map (fun s => Dispatched (class_name s) n) services).

(** The loop that logs failures: [zip(self.services, results)]. *)
Fixpoint log_failures (services : list NotificationService)
         (results : list (outcome bool)) : list manager_event :=
  match services, results with
  | s :: services', r :: results' =>
      match r with
      | Raises e => LoggedError (class_name s) e :: log_failures services' results'
      | Returns _ => log_failures services' results'
      end
  | _, _ => []
  end.

(** [not isinstance(r, Exception) and r] *)
Definition succeeded (r : outcome bool) : bool :=
  match r with
  | Returns b => b
  | Raises _ => false
  end.

Definition send_notification (services : list NotificationService)
           (title message : string) (priority : Z)
           (tags : option (list string))
           (actions : option (list (list (string * string))))
  : outcome bool * list manager_event :=
  match services with
  | [] => (Returns false, [])
  | _ :: _ =>
      let notification :=
        {| Models.title := title; Models.message := message;
           Models.priority := priority; Models.tags := tags;
           Models.actions := actions |} in
      let '(results, dispatched) := gather_return_exceptions services notification in
      let logged := log_failures services results in
      (Returns (existsb succeeded results), dispatched ++ logged)
  end.

(** The [send] calls recorded in a run, in the order they were made. *)
Fixpoint dispatches (events : list manager_event) : list (string * Notification) :=
  match events with
  | [] => []
  | Dispatched cls n :: rest => (cls, n) :: dispatches rest
  | LoggedError _ _ :: rest => dispatches rest
  end.

End Notifications.


(** ** scraper.py *)

Module Scraper.
Import Models.

(** *** The [str] methods the scraper uses

    Text is a string of bytes; the definitions below are those of Python
    on ASCII text (a byte above 127 is part of some other character: it is
    neither a digit, nor a separator, nor white space). *)

Definition isspace (c : ascii) : bool :=
  let n := nat_of_ascii c in
  ((9 <=? n) && (n <=? 13) || (28 <=? n) && (n <=? 32))%nat.

Definition isdigit (c : ascii) : bool :=
  let n := nat_of_ascii c in ((48 <=? n) && (n <=? 57))%nat.

Fixpoint lstrip (s : string) : string :=
  match s with
  | EmptyString => EmptyString
  | String c s' => if isspace c then lstrip s' else s
  end.

Fixpoint rstrip (s : string) : string :=
  match s with
  | EmptyString => EmptyString
  | String c s' =>
      match rstrip s' with
      | EmptyString => if isspace c then EmptyString else String c EmptyString
      | kept => String c kept
      end
  end.

Definition strip (s : string) : string := rstrip (lstrip s).

(** [''.join(c for c in s if keep c)] *)
Fixpoint join_if (keep : ascii -> bool) (s : string) : string :=
  match s with
  | EmptyString => EmptyString
  | String c s' => if keep c then String c (join_if keep s') else join_if keep s'
  end.

(** [c in s] for a one-character [c] *)
Fixpoint contains (c : ascii) (s : string) : bool :=
  match s with
  | EmptyString => false
  | String c' s' => Ascii.eqb c' c || contains c s'
  end.

(** [s.find(c)]: the index of the first [c], or [-1]. *)
Fixpoint find (c : ascii) (s : string) : Z :=
  match s with
  | EmptyString => -1
  | String c' s' =>
      if Ascii.eqb c' c then 0
      else let i := find c s' in if i <? 0 then -1 else i + 1
  end.

(** [s.replace(old, new)] for a one-character [old] *)
Fixpoint replace (old : ascii) (new : string) (s : string) : string :=
  match s with
  | EmptyString => EmptyString
  | String c s' =>
      if Ascii.eqb c old then (new ++ replace old new s')%string
      else String c (replace old new s')
  end.

(** The value of a run of decimal digits, [None] if another character
    occurs in it. *)
Fixpoint digits_value (acc : Z) (s : string) : option Z :=
  match s with
  | EmptyString => Some acc
  | String c s' =>
      if isdigit c
      then digits_value (10 * acc + Z.of_nat (nat_of_ascii c - 48)) s'
      else None
  end.

(** The text before the first ["."] and, when there is one, the text
    after it. *)
Fixpoint split_point (s : string) : string * option string :=
  match s with
  | EmptyString => (EmptyString, None)
  | String c s' =>
      if Ascii.eqb c "." then (EmptyString, Some s')
      else let '(int_part, frac_part) := split_point s' in
           (String c int_part, frac_part)
  end.

(** [float(s)] on the strings that reach it in [_parse_ticket_element]:
    digits and points only.  Such a string is a number when it has at most
    one point and at least one digit; anything else is a [ValueError],
    here [None].  The result is the exact decimal value, which Python then
    rounds to the nearest double. *)
Definition float (s : string) : option Q :=
  let '(int_part, frac) := split_point s in
  let frac_part := match frac with Some f => f | None => EmptyString end in
  match digits_value 0 int_part, digits_value 0 frac_part with
  | Some i, Some f =>
      if (String.length int_part + String.length frac_part =? 0)%nat then None
      else
        let scale := Pos.pow 10 (Pos.of_succ_nat (String.length frac_part)) in
        (* scale = 10 * 10^len: one more digit than needed, reduced below *)
        Some (Qred (Qmake (10 * (i * Z.pow 10 (Z.of_nat (String.length frac_part)) + f))
                          scale))
  | _, _ => None
  end.

Definition is_price_char (c : ascii) : bool :=
  isdigit c || Ascii.eqb c "." || Ascii.eqb c ",".

(** The cleaning of the price text in [_parse_ticket_element]. *)
Definition clean_price (price_text : string) : string :=
  let price_str := join_if is_price_char price_text in
  if contains "," price_str && contains "." price_str then
    if find "," price_str <? find "." price_str then
      replace "," "." (replace "." "" price_str)
    else
      replace "," "" price_str
  else
    replace "," "." price_str.

(** The [try] block that parses the price: [price] stays [None] when
    [float] raises [ValueError]. *)
Definition parse_price (price_text : string) : option Q :=
  float (clean_price price_text).

(** What the specification asks of the cleaning when both separators occur:
    the separator that appears later in the string is the decimal point.
    Used only to compare [clean_price] with. *)
Fixpoint rfind (c : ascii) (s : string) : Z :=
  match s with
  | EmptyString => -1
  | String c' s' =>
      let i := rfind c s' in
      if 0 <=? i then i + 1 else if Ascii.eqb c' c then 0 else -1
  end.

Definition spec_clean_price (price_text : string) : string :=
  let price_str := join_if is_price_char price_text in
  if contains "," price_str && contains "." price_str then
    if rfind "." price_str <? rfind "," price_str then
      replace "," "." (replace "." "" price_str)
    else
      replace "," "" price_str
  else
    replace "," "." price_str.

Definition spec_parse_price (price_text : string) : option Q :=
  float (spec_clean_price price_text).

(** *** The page, as the scraper observes it

    Every Playwright call the scraper makes is answered by the page: with
    a value, or by raising.  A handle's [text_content()] may also be
    [None]. *)

Definition text_content : Type := outcome (option string).

(** A [dt] element of a list item: its text, and what
    [evaluate_handle('el => el.nextElementSibling')] gives: it raises, or
    it gives a falsy handle ([None]), or a handle with its own
    [text_content()]. *)
Record dt_handle := {
  dt_text_content : text_content;
  dt_nextElementSibling : outcome (option text_content)
}.

(** An element of the listing: [query_selector_all('span')] with the text
    of every span, and [query_selector_all('dt')]. *)
Record element_handle := {
  spans : outcome (list text_content);
  dt_elements : outcome (list dt_handle)
}.

(** An element found by [page.query_selector] in the no-tickets probe. *)
Record message_handle := {
  is_visible : outcome bool;
  message_text : text_content
}.

Record Page := {
  goto : string -> outcome unit;
  query_selector_all : string -> outcome (list element_handle);
  query_selector : string -> outcome (option message_handle);
  wait_for_selector : outcome unit;
  screenshot : string -> outcome unit;
  (** what [_click_quantity_stepper] and [_click_find_tickets] return;
      both catch every exception themselves *)
  quantity_stepper_clicked : bool;
  find_tickets_clicked : bool
}.

Definition quote : string := String "034" EmptyString.

(** The selector [li[role="button"]]. *)
Definition li_role_button : string :=
  ("li[role=" ++ quote ++ "button" ++ quote ++ "]")%string.

(** *** [_simple_resale_check] *)

(** [(await handle.text_content() or '').strip()] once the call returned *)
Definition stripped (content : option string) : string :=
  strip (match content with Some s => s | None => EmptyString end).

(** The loop over the [dt] elements inside the inner [try]: the value
    left in [section_text], or the exception that leaves the loop. *)
Fixpoint find_section (dts : list dt_handle) : outcome (option string) :=
  match dts with
  | [] => Returns None
  | dt :: rest =>
      match dt_text_content dt with
      | Raises e => Raises e
      | Returns content =>
          if String.eqb (stripped content) "Section" then
            match dt_nextElementSibling dt with
            | Raises e => Raises e
            | Returns None => Returns None
            | Returns (Some (Raises e)) => Raises e
            | Returns (Some (Returns dd_content)) => Returns (Some (stripped dd_content))
            end
          else find_section rest
      end
  end.

(** The inner [try: ... except Exception: pass]. *)
Definition section_text (li : element_handle) : option string :=
  match dt_elements li with
  | Raises _ => None
  | Returns dts =>
      match find_section dts with
      | Raises _ => None
      | Returns found => found
      end
  end.

(** [section_text or "N/A"] *)
Definition or_NA (section_text : option string) : string :=
  match section_text with
  | None | Some EmptyString => "N/A"
  | Some s => s
  end.


Definition simple_ticket (li : element_handle) (event : option Event) : Ticket :=
  {| event := event; section := or_NA (section_text li); row := None;
     price := None; is_verified_resale := true; quantity := 1;
     listing_url := None |}.

(** [for span in spans]: the ticket appended for this item, if any. *)
Fixpoint scan_spans (li : element_handle) (event : option Event)
         (span_texts : list text_content) : outcome (option Ticket) :=
  match span_texts with
  | [] => Returns None
  | Raises e :: _ => Raises e
  | Returns content :: rest =>
      if String.eqb (stripped content) "Verified Resale Ticket"
      then Returns (Some (simple_ticket li event))
      else scan_spans li event rest
  end.

Definition scan_item (li : element_handle) (event : option Event)
  : outcome (option Ticket) :=
  match spans li with
  | Raises e => Raises e
  | Returns span_texts => scan_spans li event span_texts
  end.

(** [for idx, li in enumerate(ticket_elements, 1)], with [tickets] the
    list appended to; an exception ends the scan with what was appended
    so far (the outer [except] only logs). *)
Fixpoint scan_items (ticket_elements : list element_handle)
         (event : option Event) (tickets : list Ticket) : list Ticket :=
  match ticket_elements with
  | [] => tickets
  | li :: rest =>
      match scan_item li event with
      | Raises _ => tickets
      | Returns None => scan_items rest event tickets
      | Returns (Some t) => scan_items rest event (tickets ++ [t])
      end
  end.

Definition _simple_resale_check (page : Page) (event : option Event) : list Ticket :=
  match query_selector_all page li_role_button with
  | Raises _ => []
  | Returns ticket_elements => scan_items ticket_elements event []
  end.

(** *** Coroutine bodies with [return] and exceptions

    A statement either goes on to the next statement, or returns from the
    function, or raises.  The log records the calls made on the browser
    and on the scraper itself, oldest first. *)

Inductive call :=
| ClearStorage
| Navigate (url : string)
| HandleCookieConsent
| ClickQuantityStepper
| ClickFindTickets
| TakeScreenshot (path : string)
| SimpleResaleCheck
| WaitForSelector
| QuerySelector (selector : string)
| QuerySelectorAll (selector : string)
| ParseTicketElement (i : Z).

Inductive flow (R A : Type) : Type :=
| Next (a : A)
| Return (r : R)
| Raise (e : exn).
Arguments Next {R A} a.
Arguments Return {R A} r.
Arguments Raise {R A} e.

Definition body (R A : Type) : Type := list call -> flow R A * list call.

Definition pass {R} : body R unit := fun log => (Next tt, log).

Definition value {R A} (a : A) : body R A := fun log => (Next a, log).

Definition bind {R A B} (m : body R A) (k : A -> body R B) : body R B :=
  fun log =>
    match m log with
    | (Next a, log') => k a log'
    | (Return r, log') => (Return r, log')
    | (Raise e, log') => (Raise e, log')
    end.

Notation "x <- m ;; k" := (bind m (fun x => k))
  (at level 61, m at next level, right associativity).
Notation "m ;;; k" := (bind m (fun _ => k))
  (at level 61, right associativity).

(** [await] of a call: it is logged, and its outcome goes on or raises. *)
Definition await {R A} (c : call) (o : outcome A) : body R A :=
  fun log =>
    (match o with Returns a => Next a | Raises e => Raise e end, log ++ [c]).

(** An awaited method of an element handle (not logged). *)
Definition of_outcome {R A} (o : outcome A) : body R A :=
  fun log => (match o with Returns a => Next a | Raises e => Raise e end, log).

Definition return_ {R A} (r : R) : body R A := fun log => (Return r, log).

Definition raise {R A} (e : exn) : body R A := fun log => (Raise e, log).

(** [try: m except Exception as e: handler e] *)
Definition try_except {R A} (m : body R A) (handler : exn -> body R A) : body R A :=
  fun log =>
    match m log with
    | (Raise e, log') => handler e log'
    | other => other
    end.

(** Running a function body whose last statement yields the result. *)
Definition run {R} (m : body R R) : outcome R * list call :=
  match m [] with
  | (Next r, log) => (Returns r, log)
  | (Return r, log) => (Returns r, log)
  | (Raise e, log) => (Raises e, log)
  end.

(** *** [find_tickets] *)

Definition no_tickets_selectors : list string :=
  [ "div.no-results"; "div.error-message";
    ("div[data-testid=" ++ quote ++ "no-tickets-available" ++ quote ++ "]")%string;
    (":has-text(" ++ quote ++ "no tickets" ++ quote ++ ")")%string;
    (":has-text(" ++ quote ++ "sold out" ++ quote ++ ")")%string;
    (":has-text(" ++ quote ++ "unavailable" ++ quote ++ ")")%string;
    (":has-text(" ++ quote ++ "no matches" ++ quote ++ ")")%string;
    (":has-text(" ++ quote ++ "No tickets available" ++ quote ++ ")")%string;
    (":has-text(" ++ quote ++ "No tickets found" ++ quote ++ ")")%string ].

Definition ticket_selectors : list string :=
  [ ("div[data-testid=" ++ quote ++ "ticket-item" ++ quote ++ "]")%string;
    "div.ticket-item"; "div.ticket"; "div.offer" ].

Section FindTickets.

(** [_parse_ticket_element], the detailed parse.  [find_tickets] is stated
    for any behaviour of it. *)
Variable _parse_ticket_element :
  element_handle -> option Event -> outcome (option Ticket).

(** Step 10: the probe for a "no tickets" message. *)
Fixpoint check_no_tickets (page : Page) (selectors : list string)
  : body (list Ticket) unit :=
  match selectors with
  | [] => pass
  | selector :: rest =>
      try_except
        (no_tickets <- await (QuerySelector selector) (query_selector page selector) ;;
         match no_tickets with
         | None => pass
         | Some handle =>
             visible <- of_outcome (is_visible handle) ;;
             if (visible : bool) then
               message <- of_outcome (message_text handle) ;;
               match message with
               | None => raise (Exception "AttributeError")
               | Some _ => return_ []
               end
             else pass
         end)
        (fun _ => pass) ;;;
      check_no_tickets page rest
  end.

(** Step 11: the fallback selectors, tried while nothing was found. *)
Fixpoint first_nonempty (page : Page) (selectors : list string)
  : body (list Ticket) (list element_handle) :=
  match selectors with
  | [] => value []
  | selector :: rest =>
      elements <- await (QuerySelectorAll selector) (query_selector_all page selector) ;;
      match elements with
      | [] => first_nonempty page rest
      | _ :: _ => value elements
      end
  end.

(** Step 12: [for i, element in enumerate(ticket_elements, 1)]. *)
Fixpoint parse_all (event : option Event) (i : Z)
         (ticket_elements : list element_handle) (tickets : list Ticket)
  : body (list Ticket) (list Ticket) :=
  match ticket_elements with
  | [] => value tickets
  | element :: rest =>
      tickets' <- try_except
                    (ticket <- await (ParseTicketElement i)
                                     (_parse_ticket_element element event) ;;
                     match ticket with
                     | Some t => value (tickets ++ [t])
                     | None => value tickets
                     end)
                    (fun _ => value tickets) ;;
      parse_all event (i + 1) rest tickets'
  end.

Definition find_tickets_body (page : Page) (event_url : string)
  : body (list Ticket) (list Ticket) :=
  let tickets : list Ticket := [] in
  let event : option Event := None in
  try_except
    (await ClearStorage (Returns tt) ;;;
     await (Navigate event_url) (goto page event_url) ;;;
     await HandleCookieConsent (Returns tt) ;;;
     _ <- await ClickQuantityStepper (Returns (quantity_stepper_clicked page)) ;;
     find_tickets_clicked <- await ClickFindTickets (Returns (find_tickets_clicked page)) ;;
     (if negb find_tickets_clicked then
        try_except
          (await (TakeScreenshot "ticket_button_not_found.png")
                 (screenshot page "ticket_button_not_found.png"))
          (fun _ => pass) ;;;
        return_ tickets
      else pass) ;;;
     simple_tickets <- await SimpleResaleCheck
                             (Returns (_simple_resale_check page event)) ;;
     (match simple_tickets with
      | _ :: _ => return_ simple_tickets
      | [] => pass
      end) ;;;
     (return_ [] : body (list Ticket) unit) ;;;
     (* the statements after the unconditional return *)
     try_except
       (await (TakeScreenshot "after_ticket_load.png")
              (screenshot page "after_ticket_load.png"))
       (fun _ => pass) ;;;
     try_except (await WaitForSelector (wait_for_selector page)) (fun _ => pass) ;;;
     check_no_tickets page no_tickets_selectors ;;;
     ticket_elements <- await (QuerySelectorAll li_role_button)
                              (query_selector_all page li_role_button) ;;
     ticket_elements <- match ticket_elements with
                        | _ :: _ => value ticket_elements
                        | [] => first_nonempty page ticket_selectors
                        end ;;
     (match ticket_elements with
      | [] => try_except
                (await (TakeScreenshot "no_ticket_elements_found.png")
                       (screenshot page "no_ticket_elements_found.png"))
                (fun _ => pass)
      | _ :: _ => pass
      end) ;;;
     tickets <- parse_all event 1 ticket_elements tickets ;;
     return_ tickets)
    (fun _ =>
       try_except
         (await (TakeScreenshot "error_occurred.png")
                (screenshot page "error_occurred.png"))
         (fun _ => pass) ;;;
       return_ []).

(** [browser] is [None] when [self.browser_manager] or its page is unset. *)
Definition find_tickets (browser : option Page) (event_url : string)
  : outcome (list Ticket) * list call :=
  match browser with
  | None => (Returns [], [])
  | Some page => run (find_tickets_body page event_url)
  end.

End FindTickets.

(** The calls every run on an initialised browser starts with, when the
    navigation succeeds. *)
Definition opening_calls (event_url : string) : list call :=
  [ClearStorage; Navigate event_url; HandleCookieConsent;
   ClickQuantityStepper; ClickFindTickets].

(** *** [check_for_resale_tickets] *)

(** The method, over whatever [self.find_tickets] is bound to. *)
Definition check_for_resale_tickets_with
           (find_tickets : string -> outcome (list Ticket) * list call)
           (event_url : string) : outcome (list Ticket) * list call :=
  match find_tickets event_url with
  | (Returns all_tickets, log) =>
      (Returns (filter is_verified_resale all_tickets), log)
  | (Raises e, log) => (Raises e, log)
  end.

Definition check_for_resale_tickets
           (_parse_ticket_element :
              element_handle -> option Event -> outcome (option Ticket))
           (browser : option Page) (event_url : string)
  : outcome (list Ticket) * list call :=
  check_for_resale_tickets_with (find_tickets _parse_ticket_element browser) event_url.

End Scraper.

(** [l1] is [l2] with some elements left out, the others in their order. *)
Inductive subsequence {A : Type} : list A -> list A -> Prop :=
| subsequence_nil : subsequence [] []
| subsequence_skip x l1 l2 : subsequence l1 l2 -> subsequence l1 (x :: l2)
| subsequence_keep x l1 l2 : subsequence l1 l2 -> subsequence (x :: l1) (x :: l2).

(** ** browser.py, and the scoped use of a scraper *)

Module Browser.

(** What a browser session holds, in the order [setup] acquires it. *)
Inductive resource := Engine | BrowserProcess | Context | Tab.

Inductive action :=
| Acquired (r : resource)
| Released (r : resource).

(** What each Playwright call of [setup] and [cleanup] does. *)
Record Playwright := {
  start : outcome unit;
  launch : outcome unit;
  new_context : outcome unit;
  add_init_script : outcome unit;
  new_page : outcome unit;
  set_default_timeout : outcome unit;
  is_closed : bool;
  page_close : outcome unit;
  context_close : outcome unit;
  browser_close : outcome unit;
  stop : outcome unit
}.

(** The attributes of a [BrowserManager]: [true] once assigned. *)
Record BrowserManager := {
  playwright : bool;
  browser : bool;
  context : bool;
  page : bool
}.

(** [BrowserManager.__init__] *)
Definition new_manager : BrowserManager :=
  {| playwright := false; browser := false; context := false; page := false |}.

Definition state : Type := BrowserManager * list action.

(** One awaited call: if it raises, the rest of the method is skipped;
    otherwise [update] records its effect and the method goes on. *)
Definition awaiting (call : outcome unit) (update : state -> state)
           (rest : state -> outcome unit * state) (st : state)
  : outcome unit * state :=
  match call with
  | Raises e => (Raises e, st)
  | Returns _ => rest (update st)
  end.

Definition done (st : state) : outcome unit * state := (Returns tt, st).

Definition acquire (r : resource) (set : BrowserManager -> BrowserManager)
           (st : state) : state :=
  (set (fst st), snd st ++ [Acquired r]).

Definition release (r : resource) (st : state) : state :=
  (fst st, snd st ++ [Released r]).

Definition setup (pw : Playwright) : state -> outcome unit * state :=
  awaiting (start pw)
    (acquire Engine (fun m => {| playwright := true; browser := browser m;
                                 context := context m; page := page m |}))
  (awaiting (launch pw)
    (acquire BrowserProcess (fun m => {| playwright := playwright m; browser := true;
                                         context := context m; page := page m |}))
  (awaiting (new_context pw)
    (acquire Context (fun m => {| playwright := playwright m; browser := browser m;
                                  context := true; page := page m |}))
  (awaiting (add_init_script pw) (fun st => st)
  (awaiting (new_page pw)
    (acquire Tab (fun m => {| playwright := playwright m; browser := browser m;
                              context := context m; page := true |}))
  (awaiting (set_default_timeout pw) (fun st => st)
  done))))).

(** An [if cond: await call] statement of [cleanup]. *)
Definition when (cond : state -> bool) (call : outcome unit) (r : resource)
           (rest : state -> outcome unit * state) (st : state)
  : outcome unit * state :=
  if cond st then awaiting call (release r) rest st else rest st.

Definition cleanup (pw : Playwright) : state -> outcome unit * state :=
  when (fun st => page (fst st) && negb (is_closed pw)) (page_close pw) Tab
  (when (fun st => context (fst st)) (context_close pw) Context
  (when (fun st => browser (fst st)) (browser_close pw) BrowserProcess
  (when (fun st => playwright (fst st)) (stop pw) Engine
  done))).

(** [TicketScraper.__aenter__]: a new manager is created and set up. *)
Definition __aenter__ (pw : Playwright) (log : list action)
  : outcome unit * state :=
  setup pw (new_manager, log).

(** [TicketScraper.__aexit__]: [self.browser_manager] is set by then. *)
Definition __aexit__ (pw : Playwright) (st : state) : outcome unit * state :=
  cleanup pw st.

(** [async with TicketScraper(config) as scraper: block].  When
    [__aenter__] raises, the block is not run and [__aexit__] is not
    called; otherwise [__aexit__] is called once, whatever the block did,
    and, as it returns [None], an exception of the block goes on. *)
Definition async_with (pw : Playwright) (block : outcome unit)
  : outcome unit * list action :=
  match __aenter__ pw [] with
  | (Raises e, st) => (Raises e, snd st)
  | (Returns _, st) =>
      match __aexit__ pw st with
      | (Raises e, st') => (Raises e, snd st')
      | (Returns _, st') => (block, snd st')
      end
  end.

(** [TicketMonitor.check_event]: the session inside [try ... except
    Exception], which only logs.  The result is what was acquired and
    released. *)
Definition check_event (pw : Playwright) (block : outcome unit) : list action :=
  snd (async_with pw block).

Definition resource_eqb (a b : resource) : bool :=
  match a, b with
  | Engine, Engine | BrowserProcess, BrowserProcess
  | Context, Context | Tab, Tab => true
  | _, _ => false
  end.

(** The resources acquired in a log and not released later in it. *)
Fixpoint unreleased (log : list action) : list resource :=
  match log with
  | [] => []
  | Acquired r :: rest =>
      if existsb (fun a => match a with
                           | Released r' => resource_eqb r r'
                           | Acquired _ => false
                           end) rest
      then unreleased rest
      else r :: unreleased rest
  | Released _ :: rest => unreleased rest
  end.

(** A driver on which every call succeeds. *)
Definition healthy : Playwright :=
  {| start := Returns tt; launch := Returns tt; new_context := Returns tt;
     add_init_script := Returns tt; new_page := Returns tt;
     set_default_timeout := Returns tt; is_closed := false;
     page_close := Returns tt; context_close := Returns tt;
     browser_close := Returns tt; stop := Returns tt |}.

(** The browser starts, but [browser.new_context] raises. *)
Definition context_fails : Playwright :=
  {| start := Returns tt; launch := Returns tt;
     new_context := Raises (Exception "Target closed");
     add_init_script := Returns tt; new_page := Returns tt;
     set_default_timeout := Returns tt; is_closed := false;
     page_close := Returns tt; context_close := Returns tt;
     browser_close := Returns tt; stop := Returns tt |}.

(** The session is set up, but [page.close] raises in [cleanup]. *)
Definition page_close_fails : Playwright :=
  {| start := Returns tt; launch := Returns tt; new_context := Returns tt;
     add_init_script := Returns tt; new_page := Returns tt;
     set_default_timeout := Returns tt; is_closed := false;
     page_close := Raises (Exception "Target closed");
     context_close := Returns tt; browser_close := Returns tt;
     stop := Returns tt |}.

(** No call of [setup] or [cleanup] raises, and the page is still open
    when [cleanup] runs. *)
Definition never_raises (pw : Playwright) : Prop :=
  start pw = Returns tt /\ launch pw = Returns tt /\
  new_context pw = Returns tt /\ add_init_script pw = Returns tt /\
  new_page pw = Returns tt /\ set_default_timeout pw = Returns tt /\
  is_closed pw = false /\
  page_close pw = Returns tt /\ context_close pw = Returns tt /\
  browser_close pw = Returns tt /\ stop pw = Returns tt.

End Browser.

(** ** app.py *)

Module App.
Import Models.

(** *** Text *)

Definition newline : string := String "010" EmptyString.

(** [str(n)] for a count *)
Definition str (n : nat) : string := NilEmpty.string_of_uint (Nat.to_uint n).

(** [needle in text] *)
Fixpoint startswith (needle text : string) : bool :=
  match needle, text with
  | EmptyString, _ => true
  | String _ _, EmptyString => false
  | String a needle', String b text' => Ascii.eqb a b && startswith needle' text'
  end.

Fixpoint is_in (needle text : string) : bool :=
  startswith needle text ||
  match text with
  | EmptyString => false
  | String _ text' => is_in needle text'
  end.

(** *** The format specification [,.2f]

    The value is rounded to two decimals, to the nearest and to even on a
    tie of the exact value, with the integer part grouped by thousands. *)

Definition round_half_even (q : Q) : Z :=
  let n := Qnum q in
  let d := Zpos (Qden q) in
  let below := n / d in
  let twice_rest := 2 * (n - below * d) in
  if twice_rest <? d then below
  else if d <? twice_rest then below + 1
  else if Z.even below then below else below + 1.

Definition digits (z : Z) : string :=
  NilEmpty.string_of_uint (N.to_uint (Z.to_N z)).

Fixpoint group (s : string) (until_comma : nat) : string :=
  match s with
  | EmptyString => EmptyString
  | String c rest =>
      match until_comma with
      | O => String "," (String c (group rest 2))
      | S k => String c (group rest k)
      end
  end.

Definition thousands (s : string) : string :=
  group s (match (String.length s mod 3)%nat with O => 3%nat | r => r end).

Definition two_digits (z : Z) : string :=
  if z <? 10 then ("0" ++ digits z)%string else digits z.

Definition format_2f (q : Q) : string :=
  let cents := round_half_even (Qabs q * 100)%Q in
  ((if Qle_bool 0 q then "" else "-")
   ++ thousands (digits (cents / 100)) ++ "." ++ two_digits (cents mod 100))%string.

(** *** [_handle_resale_tickets_found] *)

(** [s or default] for an optional string *)
Definition or_else (s : option string) (default : string) : string :=
  match s with
  | Some (String c rest) => String c rest
  | _ => default
  end.

(** [f"€{ticket.price:,.2f}" if ticket.price else "Price not available"] *)
Definition price_text (price : option Q) : string :=
  match price with
  | Some p => if Qeq_bool p 0 then "Price not available"
              else ("€" ++ format_2f p)%string
  | None => "Price not available"
  end.

Definition ticket_line (i : nat) (ticket : Ticket) : string :=
  (newline ++ str i ++ ". " ++ section ticket ++ " - " ++ price_text (price ticket))%string.

(** The parts added for the ticket numbered [i]. *)
Definition detail (numbered : nat * Ticket) : list string :=
  let '(i, ticket) := numbered in
  ticket_line i ticket ::
  match row ticket with
  | Some (String c r) => [(" (Row " ++ String c r ++ ")")%string]
  | _ => []
  end.

(** [for i, ticket in enumerate(shown, i)], appending to [message_parts]. *)
Fixpoint add_ticket_details (i : nat) (shown : list Ticket)
         (message_parts : list string) : list string :=
  match shown with
  | [] => message_parts
  | ticket :: rest =>
      let message_parts := message_parts ++ [ticket_line i ticket] in
      let message_parts :=
        match row ticket with
        | Some (String c r) =>
            message_parts ++ [(" (Row " ++ String c r ++ ")")%string]
        | _ => message_parts
        end in
      add_ticket_details (S i) rest message_parts
  end.

Definition message_parts (event : Event) (tickets : list Ticket) : list string :=
  let message_parts :=
    [("🎟️ " ++ or_else (name event) "Event" ++ " - "
      ++ str (List.length tickets) ++ " resale ticket(s) found!")%string] in
  let message_parts := add_ticket_details 1 (firstn 5 tickets) message_parts in
  let message_parts :=
    if (5 <? List.length tickets)%nat
    then message_parts ++ [(newline ++ "... and " ++ str (List.length tickets - 5)
                            ++ " more")%string]
    else message_parts in
  message_parts ++ [(newline ++ newline ++ "🔗 " ++ url event)%string].

(** ["".join(message_parts)] *)
Definition alert_message (event : Event) (tickets : list Ticket) : string :=
  String.concat "" (message_parts event tickets).

Definition _handle_resale_tickets_found
           (services : list Notifications.NotificationService)
           (event : Event) (tickets : list Ticket)
  : outcome bool * list Notifications.manager_event :=
  Notifications.send_notification services
    "🎟️ Resale Tickets Available!" (alert_message event tickets)
    4 (Some ["ticket"; "warning"]) None.

(** The doubles that the literals [99.99] and [149.99] denote. *)
Definition double_99_99 : Q := (7036170730324623 # 70368744177664)%Q.
Definition double_149_99 : Q := (659662996200489 # 4398046511104)%Q.

(** The scenario of the alert test: an event and two verified tickets,
    A at 99.99 and B at 149.99. *)
Definition test_event : Event :=
  {| url := "https://example.com/event/1"; name := Some "Test Event"; venue := None |}.

Definition test_ticket (section : string) (price : Q) : Ticket :=
  {| event := Some test_event; section := section; row := None;
     price := Some price; quantity := 1; is_verified_resale := true;
     listing_url := None |}.

Definition test_tickets : list Ticket :=
  [test_ticket "A" double_99_99; test_ticket "B" double_149_99].

(** *** [_wait_until_next_check]

    Time is a clock in seconds: [asyncio.sleep(d)] moves it forward by
    [d] and nothing else takes time.  The shutdown event is set by the
    signal handler at some instant, or never. *)

Section Wait.

Variable shutdown_at : option Q.

(** [self.shutdown_event.is_set()] at the instant [now] *)
Definition is_set (now : Q) : bool :=
  match shutdown_at with
  | Some instant => Qle_bool instant now
  | None => false
  end.

Record waited := {
  returned_early : bool;
  clock : Q;
  sleeps : list Q
}.

(** [for _ in range(chunks)]: leave when the event is set, else sleep a
    chunk. *)
Fixpoint wait_chunks (chunks : nat) (chunk_size : Q) (now : Q) (slept : list Q)
  : waited :=
  match chunks with
  | O => {| returned_early := false; clock := now; sleeps := slept |}
  | S chunks' =>
      if is_set now
      then {| returned_early := true; clock := now; sleeps := slept |}
      else wait_chunks chunks' chunk_size (now + chunk_size)%Q (slept ++ [chunk_size])
  end.

(** The wait, entered at the instant [now] with [wait_minutes] drawn by
    [random.uniform]. *)
Definition _wait_until_next_check (wait_minutes : Q) (now : Q) : waited :=
  let wait_seconds := (wait_minutes * 60)%Q in
  let chunk_size := 10%Q in
  let chunks := Qfloor (wait_seconds / chunk_size) in
  let remainder := (wait_seconds - inject_Z chunks * chunk_size)%Q in
  let w := wait_chunks (Z.to_nat chunks) chunk_size now [] in
  if returned_early w then w
  else if Qlt_le_dec 0 remainder then
         if is_set (clock w) then w
         else {| returned_early := false;
                 clock := (clock w + remainder)%Q;
                 sleeps := sleeps w ++ [remainder] |}
       else w.

End Wait.

End App.

(** ** scraper.py: what the price block and the simplified scan guarantee *)

Module ScraperFacts.
Import Models Scraper.

(** Every character of [s] satisfies [p]. *)
Fixpoint all_chars (p : ascii -> bool) (s : string) : bool :=
  match s with
  | EmptyString => true
  | String c s' => p c && all_chars p s'
  end.

Definition digit_or_point (c : ascii) : bool := isdigit c || Ascii.eqb c ".".

(** The text is ASCII: every byte of it is a character below 128. *)
Definition is_ascii (s : string) : bool :=
  all_chars (fun c => (nat_of_ascii c <? 128)%nat) s.

(** The text is made of ASCII characters and euro signs (the bytes 226,
    130, 172 of its UTF-8 encoding) only.  On such a text
    [str.isdigit], [str.isspace] and [str.strip] are the definitions of
    the scraper module: the euro sign is neither a digit nor white
    space. *)
Fixpoint ascii_or_euro (s : string) : bool :=
  match s with
  | EmptyString => true
  | String c s' =>
      if (nat_of_ascii c <? 128)%nat then ascii_or_euro s'
      else
        match s' with
        | String c2 (String c3 s'') =>
            (nat_of_ascii c =? 226)%nat && (nat_of_ascii c2 =? 130)%nat
            && (nat_of_ascii c3 =? 172)%nat && ascii_or_euro s''
        | _ => false
        end
  end.

(** The texts that the scan reads from a list item, those of its spans,
    of its [dt] elements and of the elements next to them, are made of
    ASCII characters and euro signs only. *)
Definition plain_content (content : text_content) : bool :=
  match content with
  | Returns (Some s) => ascii_or_euro s
  | _ => true
  end.

Definition plain_dt (dt : dt_handle) : bool :=
  plain_content (dt_text_content dt)
  && match dt_nextElementSibling dt with
     | Returns (Some dd_content) => plain_content dd_content
     | _ => true
     end.

Definition plain_texts (li : element_handle) : bool :=
  match spans li with
  | Returns span_texts => forallb plain_content span_texts
  | Raises _ => true
  end
  && match dt_elements li with
     | Returns dts => forallb plain_dt dts
     | Raises _ => true
     end.

Definition not_digit (c : ascii) : bool := negb (isdigit c).

(** The span reads "Verified Resale Ticket". *)
Definition is_marker (span : text_content) : bool :=
  match span with
  | Returns content => String.eqb (stripped content) "Verified Resale Ticket"
  | Raises _ => false
  end.

(** Some span of the item reads "Verified Resale Ticket". *)
Definition marked (li : element_handle) : bool :=
  match spans li with
  | Returns span_texts => existsb is_marker span_texts
  | Raises _ => false
  end.

(** The item answers [query_selector_all('span')], and every span of it
    answers [text_content()]. *)
Definition readable (li : element_handle) : Prop :=
  exists texts : list (option string), spans li = Returns (map Returns texts).

(** A list item without spans, and one with the given span texts. *)
Definition plain_item : element_handle :=
  {| spans := Returns []; dt_elements := Returns [] |}.

Definition item_with_spans (texts : list string) : element_handle :=
  {| spans := Returns (map (fun s => Returns (Some s)) texts);
     dt_elements := Returns [] |}.

Definition broken_item : element_handle :=
  {| spans := Raises (Exception "Element is not attached to the DOM");
     dt_elements := Returns [] |}.

Definition marked_item : element_handle :=
  item_with_spans ["€99.99"; "  Verified Resale Ticket "; "Verified Resale Ticket"].

Definition sample_items : list element_handle :=
  [item_with_spans ["Standing"]; marked_item; plain_item; marked_item].

(** A page that only lists [items]. *)
Definition listing (items : list element_handle) : Page :=
  {| goto := fun _ => Returns tt;
     query_selector_all := fun _ => Returns items;
     query_selector := fun _ => Returns None;
     wait_for_selector := Returns tt;
     screenshot := fun _ => Returns tt;
     quantity_stepper_clicked := true;
     find_tickets_clicked := true |}.

(** The same page with another answer to [page.screenshot]. *)
Definition with_screenshot (page : Page) (shot : string -> outcome unit) : Page :=
  {| goto := goto page;
     query_selector_all := query_selector_all page;
     query_selector := query_selector page;
     wait_for_selector := wait_for_selector page;
     screenshot := shot;
     quantity_stepper_clicked := quantity_stepper_clicked page;
     find_tickets_clicked := find_tickets_clicked page |}.

End ScraperFacts.

(** ** browser.py and scraper.py: the buttons and the event page *)

Module Buttons.
Import Models Scraper.

(** A locator or an element handle, by what its methods answer. *)
Record locator := {
  visible : outcome bool;
  scroll_into_view_if_needed : outcome unit;
  click : outcome unit
}.

(** The page of these methods: [page.goto], [page.locator(selector)],
    [page.query_selector(selector)] with the handle's methods and its
    [text_content()], and the stepper found by its test id, with its
    [count()] and the [click()] of its first button. *)
Record page := {
  page_goto : string -> outcome unit;
  page_locator : string -> locator;
  page_query_selector : string -> outcome (option (locator * text_content));
  stepper_count : outcome Z;
  stepper_click : outcome unit
}.

(** The calls made on the page, oldest first. *)
Inductive interaction :=
| Goto (url : string)
| Sleep (seconds : Z)
| IsVisible (selector : string)
| ScrollIntoView (selector : string)
| Click (selector : string)
| Count (selector : string)
| QuerySelector (selector : string)
| TextContent (selector : string).

(** [for selector in selectors: try: ... return True; except Exception:
    continue] followed by [return False]: [attempt] is the body of the
    [try], which ends by returning [True] ([Returns true]), falls through
    ([Returns false]) or raises. *)
Fixpoint first_clicked (attempt : string -> outcome bool * list interaction)
         (selectors : list string) : bool * list interaction :=
  match selectors with
  | [] => (false, [])
  | selector :: rest =>
      match attempt selector with
      | (Returns true, log) => (true, log)
      | (_, log) =>
          let '(clicked, log') := first_clicked attempt rest in
          (clicked, log ++ log')
      end
  end.

(** *** [BrowserManager.handle_cookie_consent] *)

Definition cookie_selectors : list string :=
  [ ("button:has-text(" ++ quote ++ "Accept Cookies" ++ quote ++ ")")%string;
    ("button:has-text(" ++ quote ++ "Accept All" ++ quote ++ ")")%string;
    ("button[id*=" ++ quote ++ "cookie" ++ quote ++ " i]")%string;
    ("button[class*=" ++ quote ++ "cookie" ++ quote ++ " i]")%string;
    ("button[data-testid*=" ++ quote ++ "cookie" ++ quote ++ " i]")%string ].

Definition consent_attempt (p : page) (selector : string)
  : outcome bool * list interaction :=
  let button := page_locator p selector in
  match visible button with
  | Raises e => (Raises e, [IsVisible selector])
  | Returns false => (Returns false, [IsVisible selector])
  | Returns true =>
      match click button with
      | Raises e => (Raises e, [IsVisible selector; Click selector])
      | Returns _ => (Returns true, [IsVisible selector; Click selector; Sleep 1])
      end
  end.

Definition handle_cookie_consent (self_page : option page)
  : bool * list interaction :=
  match self_page with
  | None => (false, [])
  | Some p => first_clicked (consent_attempt p) cookie_selectors
  end.

(** *** [BrowserManager.navigate] *)

Definition navigate (self_page : option page) (url : string) (wait_after : Z)
  : outcome unit * list interaction :=
  match self_page with
  | None => (Raises (Exception "Browser not initialized. Call setup() first."), [])
  | Some p =>
      match page_goto p url with
      | Raises e => (Raises e, [Goto url])
      | Returns _ =>
          if 0 <? wait_after then (Returns tt, [Goto url; Sleep wait_after])
          else (Returns tt, [Goto url])
      end
  end.

(** *** [TicketScraper._click_find_tickets]

    The two sleeps and the click delay are random; they are left out of
    the log. *)

Definition find_tickets_selectors : list string :=
  [ ("button[data-testid=" ++ quote ++ "findTicketsBtn" ++ quote ++ "]")%string;
    ("button[data-testid=" ++ quote ++ "find-tickets-button" ++ quote ++ "]")%string;
    ("button[data-testid=" ++ quote ++ "ticket-button" ++ quote ++ "]")%string;
    ("button:has-text(" ++ quote ++ "Find Tickets" ++ quote ++ ")")%string;
    ("a:has-text(" ++ quote ++ "Find Tickets" ++ quote ++ ")")%string;
    ("button:has-text(" ++ quote ++ "Find tickets" ++ quote ++ ")")%string;
    "button.primary";
    "button.primary:visible";
    ("button[data-tracking=" ++ quote ++ "find_tickets" ++ quote ++ "]")%string;
    ".find-tickets-button";
    ("button:has-text(" ++ quote ++ "Search" ++ quote ++ ")")%string;
    ("button:has-text(" ++ quote ++ "Get Tickets" ++ quote ++ ")")%string;
    ("button:has-text(" ++ quote ++ "Buy Tickets" ++ quote ++ ")")%string;
    ("button:has-text(" ++ quote ++ "Continue" ++ quote ++ ")")%string;
    ("button:has-text(" ++ quote ++ "Next" ++ quote ++ ")")%string;
    ("button:has-text(" ++ quote ++ "ticket" ++ quote ++ " i)")%string;
    ("a:has-text(" ++ quote ++ "ticket" ++ quote ++ " i)")%string ].

Definition find_tickets_attempt (p : page) (selector : string)
  : outcome bool * list interaction :=
  let element := page_locator p selector in
  match visible element with
  | Raises e => (Raises e, [IsVisible selector])
  | Returns false => (Returns false, [IsVisible selector])
  | Returns true =>
      match scroll_into_view_if_needed element with
      | Raises e => (Raises e, [IsVisible selector; ScrollIntoView selector])
      | Returns _ =>
          match click element with
          | Raises e =>
              (Raises e, [IsVisible selector; ScrollIntoView selector; Click selector])
          | Returns _ =>
              (Returns true,
               [IsVisible selector; ScrollIntoView selector; Click selector])
          end
      end
  end.

Definition _click_find_tickets (browser : option page) : bool * list interaction :=
  match browser with
  | None => (false, [])
  | Some p => first_clicked (find_tickets_attempt p) find_tickets_selectors
  end.

(** *** [TicketScraper._click_quantity_stepper] *)

Definition quantityStepper : string :=
  ("[data-testid=" ++ quote ++ "quantityStepper" ++ quote ++ "]")%string.

Definition quantity_selectors : list string :=
  [ ("button[data-testid=" ++ quote ++ "quantity-stepper-increase-button"
       ++ quote ++ "]")%string;
    ("button[aria-label=" ++ quote ++ "Increase quantity" ++ quote ++ "]")%string;
    "button.quantity-stepper-increase";
    "button.quantity-up";
    "button.plus";
    ("button:has-text(" ++ quote ++ "+" ++ quote ++ ")")%string ].

Definition quantity_attempt (p : page) (selector : string)
  : outcome bool * list interaction :=
  match page_query_selector p selector with
  | Raises e => (Raises e, [QuerySelector selector])
  | Returns None => (Returns false, [QuerySelector selector])
  | Returns (Some (element, _)) =>
      match visible element with
      | Raises e => (Raises e, [QuerySelector selector; IsVisible selector])
      | Returns false => (Returns false, [QuerySelector selector; IsVisible selector])
      | Returns true =>
          match scroll_into_view_if_needed element with
          | Raises e =>
              (Raises e, [QuerySelector selector; IsVisible selector;
                          ScrollIntoView selector])
          | Returns _ =>
              match click element with
              | Raises e =>
                  (Raises e, [QuerySelector selector; IsVisible selector;
                              ScrollIntoView selector; Sleep 1; Click selector])
              | Returns _ =>
                  (Returns true, [QuerySelector selector; IsVisible selector;
                                  ScrollIntoView selector; Sleep 1; Click selector])
              end
          end
      end
  end.

Definition _click_quantity_stepper (browser : option page)
  : bool * list interaction :=
  match browser with
  | None => (false, [])
  | Some p =>
      match stepper_count p with
      | Raises _ => (false, [Count quantityStepper])
      | Returns n =>
          if 0 <? n then
            match stepper_click p with
            | Raises _ => (false, [Count quantityStepper; Click quantityStepper])
            | Returns _ => (true, [Count quantityStepper; Click quantityStepper])
            end
          else
            let '(clicked, log) := first_clicked (quantity_attempt p) quantity_selectors in
            (clicked, Count quantityStepper :: log)
      end
  end.

(** *** [TicketScraper.get_event_info] *)

(** [elem = await page.query_selector(selector)] and, when there is an
    element, [await elem.text_content()]: the text, if any, or the
    exception, with the calls made. *)
Definition query_text (p : page) (selector : string)
  : outcome (option (option string)) * list interaction :=
  match page_query_selector p selector with
  | Raises e => (Raises e, [QuerySelector selector])
  | Returns None => (Returns None, [QuerySelector selector])
  | Returns (Some (_, text)) =>
      match text with
      | Raises e => (Raises e, [QuerySelector selector; TextContent selector])
      | Returns content =>
          (Returns (Some content), [QuerySelector selector; TextContent selector])
      end
  end.

(** The first inner [try]: the name left in [event.name]. *)
Definition event_name (p : page) : option string * list interaction :=
  match query_text p "h1" with
  | (Returns (Some content), log) => (content, log)
  | (_, log) => (None, log)
  end.

(** The second inner [try]: the venue left in [event.venue]. *)
Definition event_venue (p : page) : option string * list interaction :=
  match query_text p "div.event-date" with
  | (Raises _, log) => (None, log)
  | (Returns _, log) =>
      match query_text p "div.event-venue" with
      | (Returns (Some content), log') => (Some (stripped content), log ++ log')
      | (_, log') => (None, log ++ log')
      end
  end.

Definition get_event_info (browser : option page) (url : string)
  : outcome (option Event) * list interaction :=
  match browser with
  | None => (Raises (Exception "Browser not initialized"), [])
  | Some p =>
      match navigate (Some p) url 0 with
      | (Raises _, log) => (Returns None, log)
      | (Returns _, log) =>
          let '(_, consent) := handle_cookie_consent (Some p) in
          let '(name, log_name) := event_name p in
          let '(venue, log_venue) := event_venue p in
          (Returns (Some {| url := url; name := name; venue := venue |}),
           log ++ consent ++ log_name ++ log_venue)
      end
  end.

(** Whether the [try] body for [selector] ends in [return True]. *)
Definition clicks (attempt : string -> outcome bool * list interaction)
           (selector : string) : Prop :=
  fst (attempt selector) = Returns true.

(** The selector a call is made on. *)
Definition selector_of (i : interaction) : option string :=
  match i with
  | Goto _ | Sleep _ => None
  | IsVisible s | ScrollIntoView s | Click s | Count s | QuerySelector s
  | TextContent s => Some s
  end.

End Buttons.

(** ** notifications.py: the ntfy service and the manager's services *)

Module Ntfy.
Import Models Notifications.

(** [str.lower] and [str.upper], on ASCII text. *)
Definition lower_char (c : ascii) : ascii :=
  let n := nat_of_ascii c in
  if ((65 <=? n) && (n <=? 90))%nat then ascii_of_nat (n + 32) else c.

Definition upper_char (c : ascii) : ascii :=
  let n := nat_of_ascii c in
  if ((97 <=? n) && (n <=? 122))%nat then ascii_of_nat (n - 32) else c.

Fixpoint lower (s : string) : string :=
  match s with
  | EmptyString => EmptyString
  | String c s' => String (lower_char c) (lower s')
  end.

Fixpoint upper (s : string) : string :=
  match s with
  | EmptyString => EmptyString
  | String c s' => String (upper_char c) (upper s')
  end.

(** What [client.post] is called with, and the response as
    [_send_impl] uses it. *)
Record Request := {
  request_url : string;
  request_data : string;
  request_headers : list (string * string);
  client_timeout : Q
}.

Record Response := {
  raise_for_status : outcome unit
}.

Section NtfyNotificationService.

(** The network: what the [k]-th [client.post] of a [send] (counting
    from 0) does with the request. *)
Variable post : nat -> Request -> outcome Response.
Variable topic : string.

Definition base_url : string := ("https://ntfy.sh/" ++ topic)%string.

Definition request_of (notification : Notification) : Request :=
  {| request_url := base_url;
     request_data := message notification;
     request_headers := [("Title", "Ticketmaster Resale Ticket Available")];
     client_timeout := 30 |}.

Definition _send_impl (k : nat) (notification : Notification) : outcome bool :=
  match post k (request_of notification) with
  | Raises e => Raises e
  | Returns response =>
      match raise_for_status response with
      | Raises e => Raises e
      | Returns _ => Returns true
      end
  end.

End NtfyNotificationService.

(** [NotificationManager._setup_services], from the empty list of
    [__init__]. *)
Definition _setup_services (post : nat -> Request -> outcome Response)
           (config : NotificationConfig) : list NotificationService :=
  if negb (enabled config) then []
  else
    match topic config with
    | Some (String c t) =>
        if String.eqb (lower (service config)) "ntfy"
        then [retrying_service "NtfyNotificationService"
                (_send_impl post (String c t)) config]
        else []
    | _ => []
    end.

(** The [k]-th post of a [send] is answered, and with a good status. *)
Definition delivered (post : nat -> Request -> outcome Response)
           (topic : string) (notification : Notification) (k : nat) : Prop :=
  exists response,
    post k (request_of topic notification) = Returns response /\
    raise_for_status response = Returns tt.

(** A network on which the first [failures] posts of a [send] are
    refused and the later ones accepted. *)
Definition accepts_after (failures : nat) (k : nat) (_ : Request) : outcome Response :=
  if (k <? failures)%nat then Raises (Exception "ConnectError")
  else Returns {| raise_for_status := Returns tt |}.

End Ntfy.

(** ** app.py: one check of an event *)

Module Monitor.
Import Models Notifications Scraper.

(** What a check meets: the Playwright driver, the event page as
    [get_event_info] finds it, the page as [check_for_resale_tickets]
    finds it after its own navigation, and the services of the
    notification manager. *)
Record world := {
  driver : Browser.Playwright;
  event_page : Buttons.page;
  listing_page : Page;
  services : list NotificationService
}.

(** The resale tickets of a check on an initialised browser: those of
    the simplified scan, when the navigation succeeds and the ticket button
    is clicked. *)
Definition listed (page : Page) (event_url : string) : list Ticket :=
  match goto page event_url with
  | Raises _ => []
  | Returns _ =>
      if find_tickets_clicked page then _simple_resale_check page None else []
  end.

Section CheckEvent.

Variable _parse_ticket_element :
  element_handle -> option Event -> outcome (option Ticket).

(** The block of the [async with], once [__aenter__] has returned: the
    browser is initialised.  The result is how the block ends and what
    the notification manager did. *)
Definition check_event_block (w : world) (event_url : string)
  : outcome unit * list manager_event :=
  match fst (Buttons.get_event_info (Some (event_page w)) event_url) with
  | Raises e => (Raises e, [])
  | Returns None => (Returns tt, [])
  | Returns (Some event) =>
      match fst (check_for_resale_tickets _parse_ticket_element
                   (Some (listing_page w)) event_url) with
      | Raises e => (Raises e, [])
      | Returns [] => (Returns tt, [])
      | Returns (ticket :: more) =>
          match App._handle_resale_tickets_found (services w) event (ticket :: more) with
          | (Raises e, sent) => (Raises e, sent)
          | (Returns _, sent) => (Returns tt, sent)
          end
      end
  end.

(** [check_event]: the session around the block, inside [try ... except
    Exception], which only logs.  The result is what was acquired and
    released, and what the notification manager did. *)
Definition check_event (w : world) (event_url : string)
  : list Browser.action * list manager_event :=
  match Browser.__aenter__ (driver w) [] with
  | (Raises _, st) => (snd st, [])
  | (Returns _, st) =>
      let '(_, sent) := check_event_block w event_url in
      let '(_, st') := Browser.__aexit__ (driver w) st in
      (snd st', sent)
  end.

End CheckEvent.

End Monitor.

(** ** models.py, app.py and cli.py: the configuration *)

Module Config.
Import Models.

Record ScraperConfig := {
  headless : bool;
  timeout : Z;
  user_agent : string;
  viewport : Z * Z;
  timezone : string
}.

Record AppConfig := {
  event_urls : list string;
  check_interval : Q * Q;
  browser_timeout : Z;
  max_retries : Z;
  log_level : string;
  scraper : ScraperConfig;
  notification : NotificationConfig
}.

(** *** Attribute assignments *)

Definition set_event_urls (v : list string) (c : AppConfig) : AppConfig :=
  {| event_urls := v; check_interval := check_interval c;
     browser_timeout := browser_timeout c; max_retries := max_retries c;
     log_level := log_level c; scraper := scraper c;
     notification := notification c |}.

Definition set_check_interval (v : Q * Q) (c : AppConfig) : AppConfig :=
  {| event_urls := event_urls c; check_interval := v;
     browser_timeout := browser_timeout c; max_retries := max_retries c;
     log_level := log_level c; scraper := scraper c;
     notification := notification c |}.

Definition set_browser_timeout (v : Z) (c : AppConfig) : AppConfig :=
  {| event_urls := event_urls c; check_interval := check_interval c;
     browser_timeout := v; max_retries := max_retries c;
     log_level := log_level c; scraper := scraper c;
     notification := notification c |}.

Definition set_max_retries (v : Z) (c : AppConfig) : AppConfig :=
  {| event_urls := event_urls c; check_interval := check_interval c;
     browser_timeout := browser_timeout c; max_retries := v;
     log_level := log_level c; scraper := scraper c;
     notification := notification c |}.

Definition set_log_level (v : string) (c : AppConfig) : AppConfig :=
  {| event_urls := event_urls c; check_interval := check_interval c;
     browser_timeout := browser_timeout c; max_retries := max_retries c;
     log_level := v; scraper := scraper c;
     notification := notification c |}.

Definition set_headless (v : bool) (c : AppConfig) : AppConfig :=
  {| event_urls := event_urls c; check_interval := check_interval c;
     browser_timeout := browser_timeout c; max_retries := max_retries c;
     log_level := log_level c;
     scraper := {| headless := v; timeout := timeout (scraper c);
                   user_agent := user_agent (scraper c);
                   viewport := viewport (scraper c);
                   timezone := timezone (scraper c) |};
     notification := notification c |}.

Definition set_notification (v : NotificationConfig) (c : AppConfig) : AppConfig :=
  {| event_urls := event_urls c; check_interval := check_interval c;
     browser_timeout := browser_timeout c; max_retries := max_retries c;
     log_level := log_level c; scraper := scraper c;
     notification := v |}.

Definition set_topic (v : option string) (c : AppConfig) : AppConfig :=
  set_notification
    {| enabled := enabled (notification c); service := service (notification c);
       topic := v; retry_attempts := retry_attempts (notification c);
       retry_delay := retry_delay (notification c) |} c.

Definition set_enabled (v : bool) (c : AppConfig) : AppConfig :=
  set_notification
    {| enabled := v; service := service (notification c);
       topic := topic (notification c);
       retry_attempts := retry_attempts (notification c);
       retry_delay := retry_delay (notification c) |} c.

Definition set_retry_attempts (v : Z) (c : AppConfig) : AppConfig :=
  set_notification
    {| enabled := enabled (notification c); service := service (notification c);
       topic := topic (notification c); retry_attempts := v;
       retry_delay := retry_delay (notification c) |} c.

Definition set_retry_delay (v : Z) (c : AppConfig) : AppConfig :=
  set_notification
    {| enabled := enabled (notification c); service := service (notification c);
       topic := topic (notification c);
       retry_attempts := retry_attempts (notification c);
       retry_delay := v |} c.

(** *** [create_default_config] *)

Definition default_ScraperConfig : ScraperConfig :=
  {| headless := false; timeout := 30;
     user_agent := "Mozilla/5.0 (Windows NT 10.0; Win64; x64) AppleWebKit/537.36 (KHTML, like Gecko) Chrome/114.0.0.0 Safari/537.36";
     viewport := (1280, 720);
     timezone := "Europe/Dublin" |}.

Definition create_default_config : AppConfig :=
  {| event_urls := [];
     check_interval := (8, 12)%Q;
     browser_timeout := 360;
     max_retries := 3;
     log_level := "INFO";
     scraper := default_ScraperConfig;
     notification :=
       {| enabled := true; service := "ntfy";
          topic := Some "ticketmaster_resale_notify";
          retry_attempts := 3; retry_delay := 5 |} |}.

(** *** [load_config] *)

(** [s.split(sep)] for a one-character separator. *)
Fixpoint split (sep : ascii) (s : string) : list string :=
  match s with
  | EmptyString => [EmptyString]
  | String c s' =>
      if Ascii.eqb c sep then EmptyString :: split sep s'
      else match split sep s' with
           | part :: parts => String c part :: parts
           | [] => [String c EmptyString]
           end
  end.

(** [sep.join(parts)] *)
Fixpoint join (sep : string) (parts : list string) : string :=
  match parts with
  | [] => EmptyString
  | [part] => part
  | part :: rest => (part ++ sep ++ join sep rest)%string
  end.

(** The number of occurrences of [c] in [s]. *)
Fixpoint count (c : ascii) (s : string) : nat :=
  match s with
  | EmptyString => O
  | String c' s' => if Ascii.eqb c' c then S (count c s') else count c s'
  end.

(** [if os.getenv(name):] the value, when it is set and not empty. *)
Definition set_and_not_empty (value : option string) : option string :=
  match value with
  | Some (String c s) => Some (String c s)
  | _ => None
  end.

Definition log_levels : list string :=
  ["DEBUG"; "INFO"; "WARNING"; "ERROR"; "CRITICAL"].

Section LoadConfig.

(** The environment after [load_dotenv()], and the builtins [int] and
    [float] on a string, [None] standing for [ValueError]. *)
Variable getenv : string -> option string.
Variable int : string -> option Z.
Variable float : string -> option Q.

(** [min_val, max_val = map(float, value.split(","))] *)
Definition parse_interval (value : string) : option (Q * Q) :=
  match split "," value with
  | [a; b] =>
      match float a, float b with
      | Some min_val, Some max_val => Some (min_val, max_val)
      | _, _ => None
      end
  | _ => None
  end.

(** The [if os.getenv(...)] statements of [load_config], one by one. *)

Definition from_TICKETMASTER_URL (config : AppConfig) : AppConfig :=
  match set_and_not_empty (getenv "TICKETMASTER_URL") with
  | Some value => set_event_urls (map Scraper.strip (split "," value)) config
  | None => config
  end.

Definition from_NTFY_TOPIC (config : AppConfig) : AppConfig :=
  match set_and_not_empty (getenv "NTFY_TOPIC") with
  | Some value => set_topic (Some value) config
  | None => config
  end.

Definition from_HEADLESS (config : AppConfig) : AppConfig :=
  match set_and_not_empty (getenv "HEADLESS") with
  | Some value => set_headless (String.eqb (Ntfy.lower value) "true") config
  | None => config
  end.

Definition from_CHECK_INTERVAL_MIN (config : AppConfig) : AppConfig :=
  match set_and_not_empty (getenv "CHECK_INTERVAL_MIN") with
  | Some value =>
      match parse_interval value with
      | Some interval => set_check_interval interval config
      | None => config
      end
  | None => config
  end.

Definition from_BROWSER_TIMEOUT (config : AppConfig) : AppConfig :=
  match set_and_not_empty (getenv "BROWSER_TIMEOUT") with
  | Some value =>
      match int value with
      | Some n => set_browser_timeout n config
      | None => config
      end
  | None => config
  end.

Definition from_MAX_RETRIES (config : AppConfig) : AppConfig :=
  match set_and_not_empty (getenv "MAX_RETRIES") with
  | Some value =>
      match int value with
      | Some n => set_max_retries n config
      | None => config
      end
  | None => config
  end.

Definition from_LOG_LEVEL (config : AppConfig) : AppConfig :=
  match set_and_not_empty (getenv "LOG_LEVEL") with
  | Some value =>
      let log_level := Ntfy.upper value in
      if existsb (String.eqb log_level) log_levels
      then set_log_level log_level config
      else config
  | None => config
  end.

Definition load_config : AppConfig :=
  let config := create_default_config in
  let config := from_TICKETMASTER_URL config in
  let config := from_NTFY_TOPIC config in
  let config := from_HEADLESS config in
  let config := from_CHECK_INTERVAL_MIN config in
  let config := from_BROWSER_TIMEOUT config in
  let config := from_MAX_RETRIES config in
  let config := from_LOG_LEVEL config in
  config.

End LoadConfig.

(** *** cli.py *)

(** The namespace that [parse_args] returns.  [event_url] is [None]
    unless the option is given; [ntfy_topic] likewise; the other options
    have defaults. *)
Record Namespace := {
  arg_event_url : option (list string);
  arg_ntfy_topic : option string;
  arg_max_retries : Z;
  arg_retry_delay : Z;
  arg_min_interval : Q;
  arg_max_interval : Q;
  arg_headless : bool;
  arg_browser_timeout : Z;
  arg_log_level : string
}.

(** [if args.event_url:] the list, when given and not empty. *)
Definition given_urls (value : option (list string)) : option (list string) :=
  match value with
  | Some (u :: us) => Some (u :: us)
  | _ => None
  end.

Definition create_config_from_args (args : Namespace) : AppConfig :=
  let config := create_default_config in
  let config :=
    match given_urls (arg_event_url args) with
    | Some urls => set_event_urls urls config
    | None => config
    end in
  let config :=
    match set_and_not_empty (arg_ntfy_topic args) with
    | Some value => set_enabled true (set_topic (Some value) config)
    | None => config
    end in
  let config :=
    set_check_interval (arg_min_interval args, arg_max_interval args) config in
  let config := set_headless (arg_headless args) config in
  let config := set_browser_timeout (arg_browser_timeout args) config in
  let config := set_log_level (arg_log_level args) config in
  let config :=
    set_retry_attempts (arg_max_retries args)
      (set_max_retries (arg_max_retries args) config) in
  let config := set_retry_delay (arg_retry_delay args) config in
  config.

(** The [if] statements of [async_main] that copy a value of
    [cli_config] into the configuration, one by one.  [headless_flag]
    says whether [--headless] or [--no-headless] occurs in [sys.argv]. *)

Definition merge_event_url (args : Namespace) (cli_config config : AppConfig)
  : AppConfig :=
  match given_urls (arg_event_url args) with
  | Some _ => set_event_urls (event_urls cli_config) config
  | None => config
  end.

Definition merge_ntfy_topic (args : Namespace) (cli_config config : AppConfig)
  : AppConfig :=
  match set_and_not_empty (arg_ntfy_topic args) with
  | Some _ => set_topic (topic (notification cli_config)) config
  | None => config
  end.

Definition merge_headless (headless_flag : bool) (cli_config config : AppConfig)
  : AppConfig :=
  if headless_flag then set_headless (headless (scraper cli_config)) config
  else config.

Definition merge_browser_timeout (args : Namespace) (cli_config config : AppConfig)
  : AppConfig :=
  if arg_browser_timeout args =? 0 then config
  else set_browser_timeout (browser_timeout cli_config) config.

Definition merge_max_retries (args : Namespace) (cli_config config : AppConfig)
  : AppConfig :=
  if arg_max_retries args =? 0 then config
  else set_retry_attempts (max_retries cli_config)
         (set_max_retries (max_retries cli_config) config).

Definition merge_retry_delay (args : Namespace) (cli_config config : AppConfig)
  : AppConfig :=
  if arg_retry_delay args =? 0 then config
  else set_retry_delay (retry_delay (notification cli_config)) config.

Definition merge_log_level (args : Namespace) (cli_config config : AppConfig)
  : AppConfig :=
  match arg_log_level args with
  | EmptyString => config
  | String _ _ => set_log_level (log_level cli_config) config
  end.

(** The configuration that [async_main] runs the monitor with: that of
    the environment, overridden from the command line. *)
Definition merged_config (config : AppConfig) (args : Namespace)
           (headless_flag : bool) : AppConfig :=
  let cli_config := create_config_from_args args in
  let config := merge_event_url args cli_config config in
  let config := merge_ntfy_topic args cli_config config in
  let config := merge_headless headless_flag cli_config config in
  let config := merge_browser_timeout args cli_config config in
  let config := merge_max_retries args cli_config config in
  let config := merge_retry_delay args cli_config config in
  let config := merge_log_level args cli_config config in
  config.

End Config.

(** ** app.py: the monitoring loop *)

Module Loop.
Import App.

Section Run.

(** The instant at which the signal handler sets the shutdown event, if
    it ever does; the URLs of the configuration; how long the check of a
    URL takes in the cycle numbered [check_count]; and the minutes drawn by
    [random.uniform] for the wait of that cycle.  Time is the clock of
    [_wait_until_next_check]: only checks and sleeps take time. *)
Variable shutdown_at : option Q.
Variable event_urls : list string.
Variable check_duration : nat -> string -> Q.
Variable wait_minutes : nat -> Q.

(** The monitor: [self.check_count], the clock, and the checks begun so
    far, each with its cycle, its URL and the instant it began at. *)
Record monitor := {
  check_count : nat;
  now : Q;
  checked : list (nat * string * Q)
}.

Definition started (start : Q) : monitor :=
  {| check_count := 0; now := start; checked := [] |}.

(** [for event_url in self.config.event_urls: if
    self.shutdown_event.is_set(): break; await
    self.check_event(event_url)] *)
Fixpoint check_all (urls : list string) (m : monitor) : monitor :=
  match urls with
  | [] => m
  | event_url :: rest =>
      if is_set shutdown_at (now m) then m
      else check_all rest
             {| check_count := check_count m;
                now := (now m + check_duration (check_count m) event_url)%Q;
                checked := checked m ++ [(check_count m, event_url, now m)] |}
  end.

(** The body of the [while] loop. *)
Definition cycle (m : monitor) : monitor :=
  let m := {| check_count := S (check_count m); now := now m;
              checked := checked m |} in
  let m := check_all event_urls m in
  if negb (is_set shutdown_at (now m))
     && match event_urls with [] => false | _ :: _ => true end
  then {| check_count := check_count m;
          now := clock (_wait_until_next_check shutdown_at
                          (wait_minutes (check_count m)) (now m));
          checked := checked m |}
  else m.

(** [while not self.shutdown_event.is_set(): ...], for at most [fuel]
    cycles: [None] when the loop is still running after them. *)
Fixpoint run_loop (fuel : nat) (m : monitor) : option monitor :=
  match fuel with
  | O => if is_set shutdown_at (now m) then Some m else None
  | S fuel' =>
      if is_set shutdown_at (now m) then Some m
      else run_loop fuel' (cycle m)
  end.

Definition run (fuel : nat) (start : Q) : option monitor :=
  match event_urls with
  | [] => Some (started start)
  | _ :: _ => run_loop fuel (started start)
  end.

(** Every check begun so far was begun while the event was not set, on a
    URL of the configuration, in a cycle that was counted. *)
Definition safe (m : monitor) : Prop :=
  forall c u t, In (c, u, t) (checked m) ->
    is_set shutdown_at t = false /\ In u event_urls /\
    (1 <= c <= check_count m)%nat.

End Run.

End Loop.

(** ** browser.py: the closes of [cleanup] *)

Module Sessions.
Import Browser.

(** The call by which [cleanup] releases a resource: [page.close()],
    [context.close()], [browser.close()], [playwright.stop()]. *)
Definition close_call (pw : Playwright) (r : resource) : outcome unit :=
  match r with
  | Tab => page_close pw
  | Context => context_close pw
  | BrowserProcess => browser_close pw
  | Engine => stop pw
  end.

(** What [cleanup] sets out to close after a complete [setup], in its
    order: the page is left out when it is closed already. *)
Definition closing (pw : Playwright) : list resource :=
  if is_closed pw then [Context; BrowserProcess; Engine]
  else [Tab; Context; BrowserProcess; Engine].

End Sessions.
(** * Properties *)

(** ** Python ranges *)

Lemma range_nil (lo hi : Z) : hi <= lo -> range lo hi = [].
Proof.
  intros H. unfold range.
  replace (Z.to_nat (hi - lo)) with 0%nat by lia. reflexivity.
Qed.

Lemma range_cons (lo hi : Z) : lo < hi -> range lo hi = lo :: range (lo + 1) hi.
Proof.
  intros H. unfold range.
  replace (Z.to_nat (hi - lo)) with (S (Z.to_nat (hi - (lo + 1)))) by lia.
  cbn [seq map]. f_equal; [lia|].
  rewrite <- seq_shift, map_map.
  apply map_ext. intros i. lia.
Qed.

Lemma range_length (lo hi : Z) : List.length (range lo hi) = Z.to_nat (hi - lo).
Proof. unfold range. now rewrite length_map, length_seq. Qed.

(** Among the first [N] invocations either some first one returns, or
    all of them raise. *)
Lemma first_return_or_all_raise {A B : Type} (f : nat -> A -> outcome B)
      (a : A) (N : nat) :
  (exists k b, (k < N)%nat /\
               (forall j, (j < k)%nat -> exists e, f j a = Raises e) /\
               f k a = Returns b) \/
  (forall j, (j < N)%nat -> exists e, f j a = Raises e).
Proof.
  induction N as [|N [(k & b & Hk & Hbefore & Hret)|Hall]].
  - right. intros j Hj. lia.
  - left. exists k, b. repeat split; [lia | exact Hbefore | exact Hret].
  - destruct (f N a) as [b|e] eqn:HN.
    + left. exists N, b. repeat split; [lia | exact Hall | exact HN].
    + right. intros j Hj.
      destruct (Nat.eq_dec j N) as [->|Hne]; [now exists e | apply Hall; lia].
Qed.

(** ** Retry and backoff of [NotificationService.send] *)

Section SendFacts.
Import Models Notifications.

Variable impl : nat -> Notification -> outcome bool.
Variable config : NotificationConfig.
Variable note : Notification.

Let n := retry_attempts config.
Let d := retry_delay config.

(** The loop never lets an exception through and awaits [_send_impl] at
    most once per remaining attempt. *)
Lemma send_loop_total (attempts : list Z) (fx : effects) :
  exists b fx',
    send_loop impl config attempts note fx = (Returns b, fx') /\
    (invocations fx <= invocations fx' <= invocations fx + List.length attempts)%nat.
Proof.
  revert fx. induction attempts as [|a rest IH]; intros fx; cbn [send_loop].
  - exists false, fx. split; [reflexivity | cbn; lia].
  - destruct (impl (invocations fx) note) as [b|e].
    + exists b, (invoked fx). split; [reflexivity | cbn; lia].
    + destruct (a =? retry_attempts config).
      * exists false, (invoked fx). split; [reflexivity | cbn; lia].
      * destruct (IH (slept (retry_delay config * a) (invoked fx)))
          as (b & fx' & Heq & Hle).
        exists b, fx'. split; [exact Heq | cbn in *; lia].
Qed.

(** [k] attempts raise, the next one returns [b]: the loop stops there,
    having slept after each of the [k] failures. *)
Lemma send_loop_first_return (b : bool) (k : nat) :
  forall (a : Z) (fx : effects),
    a + Z.of_nat k <= n ->
    (forall j, (j < k)%nat -> exists e, impl (invocations fx + j) note = Raises e) ->
    impl (invocations fx + k) note = Returns b ->
    send_loop impl config (range a (n + 1)) note fx =
    (Returns b,
     {| invocations := S (invocations fx + k);
        sleeps := sleeps fx ++ map (fun t => d * t) (range a (a + Z.of_nat k)) |}).
Proof.
  induction k as [|k IH]; intros a fx Hle Hraise Hret.
  - rewrite range_cons by lia. cbn [send_loop].
    rewrite Nat.add_0_r in Hret. rewrite Hret.
    rewrite (range_nil a) by lia. cbn [map].
    rewrite app_nil_r, Nat.add_0_r. reflexivity.
  - rewrite range_cons by lia. cbn [send_loop].
    destruct (Hraise 0%nat ltac:(lia)) as [e He].
    rewrite Nat.add_0_r in He. rewrite He.
    destruct (Z.eqb_spec a (retry_attempts config)) as [Heq|_];
      [subst n; lia|].
    rewrite (IH (a + 1) (slept (retry_delay config * a) (invoked fx))).
    + cbn [invocations sleeps slept invoked].
      rewrite (range_cons a (a + Z.of_nat (S k))) by lia. cbn [map].
      rewrite <- app_assoc. cbn [app].
      replace (a + 1 + Z.of_nat k) with (a + Z.of_nat (S k)) by lia.
      replace (S (invocations fx) + k)%nat with (invocations fx + S k)%nat by lia.
      reflexivity.
    + lia.
    + intros j Hj. cbn [invocations slept invoked].
      replace (S (invocations fx) + j)%nat with (invocations fx + S j)%nat by lia.
      apply Hraise. lia.
    + cbn [invocations slept invoked].
      replace (S (invocations fx) + k)%nat with (invocations fx + S k)%nat by lia.
      exact Hret.
Qed.

(** Every remaining attempt raises: the loop gives up on the attempt
    numbered [retry_attempts], with no sleep after it. *)
Lemma send_loop_all_raise (m : nat) :
  forall (a : Z) (fx : effects),
    a + Z.of_nat m = n ->
    (forall j, (j <= m)%nat -> exists e, impl (invocations fx + j) note = Raises e) ->
    send_loop impl config (range a (n + 1)) note fx =
    (Returns false,
     {| invocations := S (invocations fx + m);
        sleeps := sleeps fx ++ map (fun t => d * t) (range a n) |}).
Proof.
  induction m as [|m IH]; intros a fx Hle Hraise.
  - rewrite range_cons by lia. cbn [send_loop].
    destruct (Hraise 0%nat ltac:(lia)) as [e He].
    rewrite Nat.add_0_r in He. rewrite He.
    destruct (Z.eqb_spec a (retry_attempts config)) as [_|Hne];
      [|subst n; lia].
    rewrite (range_nil a) by lia. cbn [map].
    rewrite app_nil_r, Nat.add_0_r. reflexivity.
  - rewrite range_cons by lia. cbn [send_loop].
    destruct (Hraise 0%nat ltac:(lia)) as [e He].
    rewrite Nat.add_0_r in He. rewrite He.
    destruct (Z.eqb_spec a (retry_attempts config)) as [Heq|_];
      [subst n; lia|].
    rewrite (IH (a + 1) (slept (retry_delay config * a) (invoked fx))).
    + cbn [invocations sleeps slept invoked].
      rewrite (range_cons a n) by lia. cbn [map].
      rewrite <- app_assoc. cbn [app].
      replace (S (invocations fx) + m)%nat with (invocations fx + S m)%nat by lia.
      reflexivity.
    + lia.
    + intros j Hj. cbn [invocations slept invoked].
      replace (S (invocations fx) + j)%nat with (invocations fx + S j)%nat by lia.
      apply Hraise. lia.
Qed.

Lemma send_first_return (b : bool) (k : nat) :
  (k < Z.to_nat n)%nat ->
  (forall j, (j < k)%nat -> exists e, impl j note = Raises e) ->
  impl k note = Returns b ->
  send impl config note =
  (Returns b, {| invocations := S k; sleeps := backoff d k |}).
Proof.
  intros Hk Hraise Hret. unfold send. fold n.
  rewrite (send_loop_first_return b k 1 no_effects); cbn [invocations sleeps no_effects].
  - cbn [app Nat.add]. unfold backoff.
    replace (Z.of_nat k + 1) with (1 + Z.of_nat k) by lia. reflexivity.
  - subst n. lia.
  - exact Hraise.
  - exact Hret.
Qed.

Lemma send_all_raise :
  1 <= n ->
  (forall j, (j < Z.to_nat n)%nat -> exists e, impl j note = Raises e) ->
  send impl config note =
  (Returns false,
   {| invocations := Z.to_nat n; sleeps := backoff d (Z.to_nat n - 1) |}).
Proof.
  intros Hn Hraise. unfold send. fold n.
  rewrite (send_loop_all_raise (Z.to_nat n - 1) 1 no_effects);
    cbn [invocations sleeps no_effects].
  - cbn [app Nat.add]. unfold backoff.
    replace (S (Z.to_nat n - 1)) with (Z.to_nat n) by lia.
    replace (Z.of_nat (Z.to_nat n - 1) + 1) with n by lia. reflexivity.
  - lia.
  - intros j Hj. apply Hraise. lia.
Qed.

End SendFacts.

Import Models Notifications.

(** C3. With [retry_attempts = n >= 1] and [retry_delay = d],
    [NotificationService.send] never lets an exception escape and awaits
    [_send_impl] between one and [n] times; every attempt but the last one
    raised and was followed by a sleep of [d * attempt] seconds
    ([d], [2d], [3d], ...); the first attempt that returns [True] ends the
    call with success and nothing is attempted after it; when all [n]
    attempts raise the call returns [False] after exactly [n] attempts and
    [n - 1] sleeps.  With [n = 3] and [d = 5], an implementation that raises
    twice and then succeeds is awaited exactly 3 times, the call returns
    [True] and the delays are 5 then 10. *)
Theorem send_retries_with_linear_backoff
        (impl : nat -> Notification -> outcome bool)
        (config : NotificationConfig) (note : Notification) :
  1 <= retry_attempts config ->
  let n := Z.to_nat (retry_attempts config) in
  let d := retry_delay config in
  let result := fst (send impl config note) in
  let fx := snd (send impl config note) in
  (exists b, result = Returns b) /\
  (1 <= invocations fx <= n)%nat /\
  sleeps fx = backoff d (invocations fx - 1) /\
  (forall j, (j < invocations fx - 1)%nat -> exists e, impl j note = Raises e) /\
  (forall k, (k < n)%nat ->
             (forall j, (j < k)%nat -> exists e, impl j note = Raises e) ->
             impl k note = Returns true ->
             result = Returns true /\ invocations fx = S k /\
             sleeps fx = backoff d k) /\
  ((forall j, (j < n)%nat -> exists e, impl j note = Raises e) ->
   result = Returns false /\ invocations fx = n /\
   sleeps fx = backoff d (n - 1)) /\
  send fails_twice_then_succeeds default_NotificationConfig note =
  (Returns true, {| invocations := 3; sleeps := [5; 10] |}).
Proof.
  intros Hn n d result fx.
  assert (Hcases :
            (exists k b, (k < n)%nat /\
                         (forall j, (j < k)%nat -> exists e, impl j note = Raises e) /\
                         send impl config note =
                         (Returns b, {| invocations := S k; sleeps := backoff d k |})) \/
            ((forall j, (j < n)%nat -> exists e, impl j note = Raises e) /\
             send impl config note =
             (Returns false,
              {| invocations := n; sleeps := backoff d (n - 1) |}))).
  { destruct (first_return_or_all_raise impl note n)
      as [(k & b & Hk & Hbefore & Hret)|Hall].
    - left. exists k, b. repeat split; [exact Hk | exact Hbefore |].
      now apply send_first_return.
    - right. split; [exact Hall|]. now apply send_all_raise. }
  split; [|split; [|split; [|split; [|split; [|split]]]]].
  - destruct Hcases as [(k & b & _ & _ & Heq)|(_ & Heq)];
      subst result; rewrite Heq; cbn [fst]; eauto.
  - destruct Hcases as [(k & b & Hk & _ & Heq)|(_ & Heq)];
      subst fx; rewrite Heq; cbn [snd invocations]; lia.
  - destruct Hcases as [(k & b & Hk & _ & Heq)|(_ & Heq)];
      subst fx; rewrite Heq; cbn [snd invocations sleeps];
      [now replace (S k - 1)%nat with k by lia | reflexivity].
  - intros j. destruct Hcases as [(k & b & Hk & Hbefore & Heq)|(Hall & Heq)];
      subst fx; rewrite Heq; cbn [snd invocations]; intros Hj.
    + apply Hbefore. lia.
    + apply Hall. lia.
  - intros k Hk Hbefore Hret. subst result fx.
    rewrite (send_first_return impl config note true k Hk Hbefore Hret).
    repeat split.
  - intros Hall. subst result fx.
    rewrite (send_all_raise impl config note Hn Hall).
    repeat split.
  - reflexivity.
Qed.

(** The scenario of C3, obtained from the theorem at [n = 3], [d = 5]. *)
Lemma send_retries_with_linear_backoff_witness :
  1 <= 3 /\
  fst (send fails_twice_then_succeeds default_NotificationConfig
            (Build_Notification "Test" "Test message" 3 None None))
  = Returns true /\
  snd (send fails_twice_then_succeeds default_NotificationConfig
            (Build_Notification "Test" "Test message" 3 None None))
  = {| invocations := 3; sleeps := [5; 10] |}.
Proof.
  split; [lia|].
  destruct (send_retries_with_linear_backoff
              fails_twice_then_succeeds default_NotificationConfig
              (Build_Notification "Test" "Test message" 3 None None))
    as (_ & _ & _ & _ & Hsuccess & _); [cbn; lia|].
  destruct (Hsuccess 2%nat) as (Hres & Hcalls & Hsleeps).
  - cbn. lia.
  - intros j Hj. destruct j as [|[|j]]; [eexists; reflexivity .. | lia].
  - reflexivity.
  - split; [exact Hres|].
    destruct (snd (send fails_twice_then_succeeds default_NotificationConfig _))
      as [calls slept_log].
    cbn in Hcalls, Hsleeps. now subst.
Defined.

(** C9. A [False] returned by [_send_impl] is not retried: if the attempts
    before the [k]-th raised and the [k]-th returns [False], [send] returns
    [False] right after that invocation, whatever the number of attempts
    left, and sleeps only for the earlier raised failures; when the very
    first attempt returns [False] there is one invocation and no sleep. *)
Theorem send_false_return_is_final
        (impl : nat -> Notification -> outcome bool)
        (config : NotificationConfig) (note : Notification) (k : nat) :
  (k < Z.to_nat (retry_attempts config))%nat ->
  (forall j, (j < k)%nat -> exists e, impl j note = Raises e) ->
  impl k note = Returns false ->
  send impl config note =
  (Returns false,
   {| invocations := S k; sleeps := backoff (retry_delay config) k |}) /\
  (k = 0%nat ->
   send impl config note =
   (Returns false, {| invocations := 1; sleeps := [] |})).
Proof.
  intros Hk Hbefore Hret.
  pose proof (send_first_return impl config note false k Hk Hbefore Hret) as Heq.
  split; [exact Heq|].
  intros ->. exact Heq.
Qed.

Lemma send_false_return_is_final_witness :
  send (fun _ _ => Returns false) default_NotificationConfig
       (Build_Notification "Test" "Test message" 3 None None) =
  (Returns false, {| invocations := 1; sleeps := [] |}).
Proof.
  refine (proj2 (send_false_return_is_final
                   (fun _ _ => Returns false) default_NotificationConfig
                   (Build_Notification "Test" "Test message" 3 None None)
                   0%nat _ _ _) eq_refl).
  - cbn. lia.
  - intros j Hj. lia.
  - reflexivity.
Defined.

(** ** Fan-out of [NotificationManager.send_notification] *)

Lemma dispatches_app (xs ys : list manager_event) :
  dispatches (xs ++ ys) = dispatches xs ++ dispatches ys.
Proof.
  induction xs as [|[cls n|cls e] xs IH]; cbn [app dispatches];
    [reflexivity | now rewrite IH | exact IH].
Qed.

Lemma dispatches_log_failures (services : list NotificationService)
      (results : list (outcome bool)) :
  dispatches (log_failures services results) = [].
Proof.
  revert results.
  induction services as [|s services IH]; intros [|[b|e] results];
    cbn [log_failures dispatches]; auto.
Qed.

Lemma dispatches_gather (services : list NotificationService) (n : Notification) :
  dispatches (snd (gather_return_exceptions services n)) =
  map (fun s => (class_name s, n)) services.
Proof.
  cbn [gather_return_exceptions snd].
  induction services as [|s services IH]; cbn [map dispatches];
    [reflexivity | now rewrite IH].
Qed.

Lemma existsb_succeeded_true (services : list NotificationService) (n : Notification) :
  existsb succeeded (map (fun s => service_send s n) services) = true <->
  exists s, In s services /\ service_send s n = Returns true.
Proof.
  rewrite existsb_exists. split.
  - intros (r & Hin & Hr). apply in_map_iff in Hin.
    destruct Hin as (s & <- & Hin). exists s. split; [exact Hin|].
    destruct (service_send s n) as [[|]|e]; cbn in Hr; congruence.
  - intros (s & Hin & Hs). exists (Returns true). split; [|reflexivity].
    apply in_map_iff. exists s. now split.
Qed.

(** C4. [send_notification] always returns a boolean, never raises.  With
    no configured service it returns [False] and no [send] is awaited.
    Otherwise one notification value is built and handed to every service
    exactly once, in the order of the service list, and the result is
    [True] exactly when some service's [send] returned [True]; a service
    whose [send] raises counts as a failure and does not change what the
    others are given.  With two services of which the first fails (raises
    or returns [False]) and the second succeeds, the result is [True]. *)
Theorem send_notification_succeeds_iff_some_service_does
        (services : list NotificationService)
        (title message : string) (priority : Z)
        (tags : option (list string))
        (actions : option (list (list (string * string)))) :
  let note := Build_Notification title message priority tags actions in
  let run := send_notification services title message priority tags actions in
  (exists b, fst run = Returns b) /\
  send_notification [] title message priority tags actions = (Returns false, []) /\
  dispatches (snd run) = map (fun s => (class_name s, note)) services /\
  (fst run = Returns true <->
   exists s, In s services /\ service_send s note = Returns true) /\
  (forall failing succeeding,
      service_send succeeding note = Returns true ->
      fst (send_notification [failing; succeeding]
                             title message priority tags actions) = Returns true).
Proof.
  intros note run.
  assert (Hrun : fst run = Returns (existsb succeeded
                                            (map (fun s => service_send s note) services)) /\
                 dispatches (snd run) = map (fun s => (class_name s, note)) services).
  { subst run. destruct services as [|s services]; [split; reflexivity|].
    unfold send_notification. fold note.
    destruct (gather_return_exceptions (s :: services) note) as [results dispatched] eqn:Hg.
    cbn [fst snd]. split.
    - unfold gather_return_exceptions in Hg. now inversion Hg.
    - rewrite dispatches_app, dispatches_log_failures, app_nil_r.
      change dispatched with (snd (results, dispatched)). rewrite <- Hg.
      apply dispatches_gather. }
  destruct Hrun as [Hres Hdisp].
  split; [|split; [|split; [|split]]].
  - rewrite Hres. eauto.
  - reflexivity.
  - exact Hdisp.
  - rewrite Hres. rewrite <- existsb_succeeded_true. split.
    + intros H. now inversion H.
    + intros ->. reflexivity.
  - intros failing succeeding Hok.
    unfold send_notification. fold note. cbn [gather_return_exceptions map fst existsb].
    rewrite Hok. cbn [succeeded]. now rewrite orb_true_r.
Qed.

(** A manager whose only service retries: two raised failures of the
    transport and then a success make [send_notification] return [True],
    the service having been handed the notification once. *)
Example manager_with_retrying_service :
  send_notification
    [retrying_service "NtfyNotificationService" fails_twice_then_succeeds
                      default_NotificationConfig]
    "Test" "Test message" 3 None None
  = (Returns true,
     [Dispatched "NtfyNotificationService"
                 (Build_Notification "Test" "Test message" 3 None None)]).
Proof. reflexivity. Qed.

(** ** The scraper *)

Import Scraper.

(** *** Price text *)

(** C2 (evaluation of the code).  Where both separators occur the code
    compares the positions of the first comma and the first point and takes
    the one that comes FIRST as the decimal point: both "1.234,56" and
    "1,234.56" are cleaned to "1.23456" and parse to 1.23456, not to
    1234.56, while the rule of the specification (the later separator is
    the decimal point) gives 1234.56 for both.  With one kind of separator
    the comma is the decimal point: "€99.99" parses to 99.99 and "99,50" to
    99.5. *)
Theorem parse_price_takes_first_separator_as_decimal_point :
  clean_price "1.234,56" = "1.23456" /\
  clean_price "1,234.56" = "1.23456" /\
  parse_price "1.234,56" = Some (3858 # 3125)%Q /\
  parse_price "1,234.56" = Some (3858 # 3125)%Q /\
  ((3858 # 3125) == 1.23456)%Q /\
  ~ ((3858 # 3125) == 1234.56)%Q /\
  spec_parse_price "1.234,56" = Some (30864 # 25)%Q /\
  spec_parse_price "1,234.56" = Some (30864 # 25)%Q /\
  ((30864 # 25) == 1234.56)%Q /\
  parse_price "€99.99" = Some 99.99%Q /\
  parse_price "99,50" = Some (199 # 2)%Q.
Proof.
  repeat split; try reflexivity.
  intros H. vm_compute in H. discriminate H.
Qed.

(** *** The simplified scan *)



Lemma scan_spans_ticket (li : element_handle) (event : option Event)
      (span_texts : list text_content) (t : Ticket) :
  scan_spans li event span_texts = Returns (Some t) -> t = simple_ticket li event.
Proof.
  induction span_texts as [|[content|e] rest IH]; cbn [scan_spans]; try discriminate.
  destruct (String.eqb (stripped content) "Verified Resale Ticket"); [|exact IH].
  intros H. now injection H as <-.
Qed.

Lemma scan_item_ticket (li : element_handle) (event : option Event) (t : Ticket) :
  scan_item li event = Returns (Some t) -> t = simple_ticket li event.
Proof.
  unfold scan_item. destruct (spans li) as [span_texts|e]; [|discriminate].
  apply scan_spans_ticket.
Qed.

(** The scan appends to [tickets]; what it appends comes, in order, from
    distinct scanned items, one ticket for each of them. *)
Lemma scan_items_from (items : list element_handle) (event : option Event) :
  forall tickets,
  exists kept found,
    scan_items items event tickets = tickets ++ found /\
    subsequence kept items /\
    Forall2 (fun li t => scan_item li event = Returns (Some t)) kept found.
Proof.
  induction items as [|li rest IH]; intros tickets; cbn [scan_items].
  - exists [], []. rewrite app_nil_r. repeat split; constructor.
  - destruct (scan_item li event) as [[t|]|e] eqn:Hli.
    + destruct (IH (tickets ++ [t])) as (kept & found & Heq & Hsub & Hall).
      exists (li :: kept), (t :: found). rewrite Heq, <- app_assoc.
      repeat split; [now constructor | now constructor].
    + destruct (IH tickets) as (kept & found & Heq & Hsub & Hall).
      exists kept, found. repeat split; [exact Heq | now constructor | exact Hall].
    + exists [], []. rewrite app_nil_r. repeat split; [|constructor].
      clear. induction (li :: rest); now constructor.
Qed.

Lemma subsequence_length {A} (l1 l2 : list A) :
  subsequence l1 l2 -> (List.length l1 <= List.length l2)%nat.
Proof. induction 1; cbn [List.length]; lia. Qed.

Lemma subsequence_In {A} (l1 l2 : list A) (x : A) :
  subsequence l1 l2 -> In x l1 -> In x l2.
Proof.
  induction 1 as [|y l1 l2 _ IH|y l1 l2 _ IH]; cbn [In]; intuition.
Qed.

(** *** [find_tickets], statement by statement *)

(** What a run of [find_tickets] on an initialised browser amounts to. *)
Lemma find_tickets_run
      (parse : element_handle -> option Event -> outcome (option Ticket))
      (page : Page) (event_url : string) :
  find_tickets parse (Some page) event_url =
  match goto page event_url with
  | Raises _ =>
      (Returns [],
       [ClearStorage; Navigate event_url; TakeScreenshot "error_occurred.png"])
  | Returns _ =>
      if find_tickets_clicked page
      then (Returns (_simple_resale_check page None),
            opening_calls event_url ++ [SimpleResaleCheck])
      else (Returns [],
            opening_calls event_url ++ [TakeScreenshot "ticket_button_not_found.png"])
  end.
Proof.
  unfold find_tickets, run, find_tickets_body, try_except, bind, await, pass,
    return_, opening_calls.
  cbn [app].
  destruct (goto page event_url) as [[]|e].
  - destruct (find_tickets_clicked page); cbn [negb app].
    + destruct (_simple_resale_check page None); reflexivity.
    + destruct (screenshot page "ticket_button_not_found.png"); reflexivity.
  - cbn [app]. destruct (screenshot page "error_occurred.png"); reflexivity.
Qed.


(** *** The filter *)

Lemma filter_subsequence {A} (keep : A -> bool) (l : list A) :
  subsequence (filter keep l) l.
Proof.
  induction l as [|x l IH]; cbn [filter]; [constructor|].
  destruct (keep x); now constructor.
Qed.

Lemma filter_all_kept {A} (keep : A -> bool) (l : list A) :
  Forall (fun x => keep x = true) (filter keep l).
Proof.
  apply Forall_forall. intros x Hin. now apply filter_In in Hin.
Qed.

(** [find_tickets] returns, whatever the page does. *)
Lemma find_tickets_returns
      (parse : element_handle -> option Event -> outcome (option Ticket))
      (browser : option Page) (event_url : string) :
  exists all_tickets log,
    find_tickets parse browser event_url = (Returns all_tickets, log).
Proof.
  destruct browser as [page|]; [|now exists [], []].
  rewrite find_tickets_run.
  destruct (goto page event_url); [destruct (find_tickets_clicked page)|]; eauto.
Qed.

(** C1. [check_for_resale_tickets] is [find_tickets] filtered on
    [is_verified_resale]: whatever list [find_tickets] returns for the
    URL, the result is that list with exactly the unverified tickets left
    out, so every element is verified, the result is no longer than the
    list and keeps its order; and [find_tickets] of the scraper always
    returns such a list. *)
Theorem check_for_resale_tickets_is_the_verified_filter
        (find : string -> outcome (list Ticket) * list call)
        (event_url : string) (all_tickets : list Ticket) (log : list call) :
  find event_url = (Returns all_tickets, log) ->
  let resale := filter is_verified_resale all_tickets in
  check_for_resale_tickets_with find event_url = (Returns resale, log) /\
  Forall (fun t => is_verified_resale t = true) resale /\
  (List.length resale <= List.length all_tickets)%nat /\
  subsequence resale all_tickets /\
  (forall t, In t resale <-> In t all_tickets /\ is_verified_resale t = true) /\
  (forall parse browser url,
      exists found calls,
        find_tickets parse browser url = (Returns found, calls) /\
        check_for_resale_tickets parse browser url =
        (Returns (filter is_verified_resale found), calls)).
Proof.
  intros Hfind resale.
  split; [|split; [|split; [|split; [|split]]]].
  - unfold check_for_resale_tickets_with. now rewrite Hfind.
  - apply filter_all_kept.
  - apply subsequence_length, filter_subsequence.
  - apply filter_subsequence.
  - intros t. apply filter_In.
  - intros parse browser url.
    destruct (find_tickets_returns parse browser url) as (found & calls & Heq).
    exists found, calls. split; [exact Heq|].
    unfold check_for_resale_tickets, check_for_resale_tickets_with.
    now rewrite Heq.
Qed.

(** The filter test of the scraper: a regular and a resale ticket. *)
Lemma check_for_resale_tickets_is_the_verified_filter_witness :
  check_for_resale_tickets_with
    (fun _ => (Returns [Build_Ticket None "A" None (Some 99.99%Q) 1 false None;
                        Build_Ticket None "B" None (Some 149.99%Q) 1 true None], []))
    "https://www.ticketmaster.com/event/1A0056D9A5E43E3F"
  = (Returns [Build_Ticket None "B" None (Some 149.99%Q) 1 true None], []).
Proof.
  exact (proj1 (check_for_resale_tickets_is_the_verified_filter
                  (fun _ => (Returns [Build_Ticket None "A" None (Some 99.99%Q) 1 false None;
                                      Build_Ticket None "B" None (Some 149.99%Q) 1 true None],
                             []))
                  "https://www.ticketmaster.com/event/1A0056D9A5E43E3F"
                  [Build_Ticket None "A" None (Some 99.99%Q) 1 false None;
                   Build_Ticket None "B" None (Some 149.99%Q) 1 true None]
                  [] eq_refl)).
Defined.

(** ** Browser sessions *)

Import Browser.

(** C7 (evaluation of the code).  When no Playwright call raises, a
    session acquires engine, browser, context and page and releases them
    once each in the reverse order, whether the block returns or raises.
    When [browser.new_context] raises inside [setup], [__aenter__] raises,
    [__aexit__] is not called, and the engine and the browser that were
    already started are never released.  When [page.close] raises inside
    [cleanup], the statements after it are skipped and nothing is
    released. *)
Theorem setup_failure_leaks_the_session :
  check_event context_fails (Returns tt) = [Acquired Engine; Acquired BrowserProcess] /\
  unreleased (check_event context_fails (Returns tt)) = [Engine; BrowserProcess] /\
  fst (async_with context_fails (Returns tt)) = Raises (Exception "Target closed") /\
  unreleased (check_event page_close_fails (Returns tt))
  = [Engine; BrowserProcess; Context; Tab] /\
  (forall pw block,
      never_raises pw ->
      check_event pw block =
      [Acquired Engine; Acquired BrowserProcess; Acquired Context; Acquired Tab;
       Released Tab; Released Context; Released BrowserProcess; Released Engine] /\
      unreleased (check_event pw block) = [] /\
      fst (async_with pw block) = block).
Proof.
  split; [reflexivity|]. split; [reflexivity|]. split; [reflexivity|].
  split; [reflexivity|].
  intros pw block (H1 & H2 & H3 & H4 & H5 & H6 & H7 & H8 & H9 & H10 & H11).
  assert (Hrun : async_with pw block =
                 (block,
                  [Acquired Engine; Acquired BrowserProcess; Acquired Context;
                   Acquired Tab; Released Tab; Released Context;
                   Released BrowserProcess; Released Engine])).
  { unfold async_with, __aenter__, __aexit__, setup, cleanup, when, awaiting, done,
      acquire, release.
    rewrite H1, H2, H3, H4, H5, H6. cbn.
    rewrite H7. cbn. rewrite H8, H9, H10, H11. reflexivity. }
  unfold check_event. rewrite Hrun. repeat split.
Qed.

(** ** The alert *)

Import App.

(** *** Substrings *)

Lemma append_nil_r (s : string) : (s ++ "")%string = s.
Proof. induction s as [|c s IH]; cbn; [reflexivity | now rewrite IH]. Qed.

Lemma append_assoc (a b c : string) :
  ((a ++ b) ++ c)%string = (a ++ (b ++ c))%string.
Proof. induction a as [|x a IH]; cbn; [reflexivity | now rewrite IH]. Qed.

Lemma startswith_spec (needle text : string) :
  startswith needle text = true <-> exists post, text = (needle ++ post)%string.
Proof.
  revert text. induction needle as [|a needle IH]; intros text; cbn.
  - split; [intros _; now exists text | reflexivity].
  - destruct text as [|b text].
    + split; [discriminate | intros [post H]; discriminate].
    + rewrite andb_true_iff, Ascii.eqb_eq, IH. split.
      * intros [-> [post ->]]. now exists post.
      * intros [post H]. injection H as -> ->. split; [reflexivity | now exists post].
Qed.

Lemma is_in_spec (needle text : string) :
  is_in needle text = true <->
  exists pre post, text = (pre ++ needle ++ post)%string.
Proof.
  induction text as [|b text IH].
  - cbn [is_in]. rewrite orb_false_r, startswith_spec. split.
    + intros [post H]. now exists EmptyString, post.
    + intros [[|c pre] [post H]]; [now exists post | discriminate].
  - cbn [is_in]. rewrite orb_true_iff, startswith_spec, IH. split.
    + intros [[post H]|(pre & post & H)].
      * now exists EmptyString, post.
      * exists (String b pre), post. cbn. now rewrite H.
    + intros [[|c pre] [post H]].
      * left. now exists post.
      * right. cbn in H. injection H as -> H. now exists pre, post.
Qed.

Lemma is_in_trans (a b c : string) :
  is_in a b = true -> is_in b c = true -> is_in a c = true.
Proof.
  rewrite !is_in_spec. intros (p1 & q1 & ->) (p2 & q2 & ->).
  exists (p2 ++ p1)%string, (q1 ++ q2)%string.
  now rewrite !append_assoc.
Qed.

Lemma concat_cons (part : string) (parts : list string) :
  String.concat "" (part :: parts) = (part ++ String.concat "" parts)%string.
Proof.
  destruct parts as [|p parts]; cbn [String.concat].
  - now rewrite append_nil_r.
  - reflexivity.
Qed.

Lemma concat_app (xs ys : list string) :
  String.concat "" (xs ++ ys) =
  (String.concat "" xs ++ String.concat "" ys)%string.
Proof.
  induction xs as [|x xs IH].
  - reflexivity.
  - cbn [app]. now rewrite !concat_cons, IH, append_assoc.
Qed.

(** Every part is a substring of the joined message. *)
Lemma part_in_joined (part : string) (parts : list string) :
  In part parts -> is_in part (String.concat "" parts) = true.
Proof.
  intros Hin. apply in_split in Hin. destruct Hin as (before & after & ->).
  rewrite concat_app, concat_cons. apply is_in_spec.
  now exists (String.concat "" before), (String.concat "" after).
Qed.

(** *** The ticket details *)

Lemma add_ticket_details_flat_map (shown : list Ticket) :
  forall i parts,
    add_ticket_details i shown parts =
    parts ++ flat_map detail (combine (seq i (List.length shown)) shown).
Proof.
  induction shown as [|t shown IH]; intros i parts; cbn [add_ticket_details].
  - cbn. now rewrite app_nil_r.
  - rewrite IH. cbn [List.length seq combine flat_map detail].
    destruct (row t) as [[|c r]|]; cbn [app]; rewrite <- ?app_assoc; reflexivity.
Qed.

Lemma combine_seq_firstn (n : nat) (tickets : list Ticket) (i : nat) :
  combine (seq i (List.length (firstn n tickets))) (firstn n tickets) =
  combine (seq i n) tickets.
Proof.
  revert i tickets. induction n as [|n IH]; intros i [|t tickets]; cbn; try reflexivity.
  now rewrite IH.
Qed.

(** The parts of the message: the headline, the details of the tickets
    numbered 1 to 5 at most, the note when more than five were found, and
    the link. *)
Lemma message_parts_shape (event : Event) (tickets : list Ticket) :
  message_parts event tickets =
  [("🎟️ " ++ or_else (name event) "Event" ++ " - "
    ++ str (List.length tickets) ++ " resale ticket(s) found!")%string]
  ++ flat_map detail (combine (seq 1 5) tickets)
  ++ (if (5 <? List.length tickets)%nat
      then [(newline ++ "... and " ++ str (List.length tickets - 5) ++ " more")%string]
      else [])
  ++ [(newline ++ newline ++ "🔗 " ++ url event)%string].
Proof.
  unfold message_parts. rewrite add_ticket_details_flat_map, combine_seq_firstn.
  destruct (5 <? List.length tickets)%nat; rewrite <- ?app_assoc; reflexivity.
Qed.

Lemma In_combine_seq (i : nat) (ticket : Ticket) :
  forall n base tickets,
    (i < n)%nat -> nth_error tickets i = Some ticket ->
    In ((base + i)%nat, ticket) (combine (seq base n) tickets).
Proof.
  induction i as [|i IH]; intros n base [|t ts] Hn Hnth;
    try discriminate; destruct n as [|n]; try lia; cbn [seq combine nth_error] in *.
  - injection Hnth as ->. left. now rewrite Nat.add_0_r.
  - right. replace (base + S i)%nat with (S base + i)%nat by lia.
    apply IH; [lia | exact Hnth].
Qed.

(** C6 (evaluation of the code).  For the two verified tickets A at 99.99
    and B at 149.99 the message contains "2 resale ticket(s)", the line
    "A - €99.99" and the event URL, but the line of B reads "B - €149.99":
    the line "B - €150.00", which the claim and the assertion of the
    repository's own test ask for, is not in the message. *)
Theorem alert_message_shows_149_99_not_150 :
  is_in "2 resale ticket(s)" (alert_message test_event test_tickets) = true /\
  is_in "A - €99.99" (alert_message test_event test_tickets) = true /\
  is_in "B - €149.99" (alert_message test_event test_tickets) = true /\
  is_in "B - €150.00" (alert_message test_event test_tickets) = false /\
  is_in (url test_event) (alert_message test_event test_tickets) = true.
Proof. repeat split; vm_compute; reflexivity. Qed.

(** X24.  For every event and ticket list the alert message contains the
    number of tickets found and the event URL; its parts are the headline,
    the details of the tickets numbered 1 to 5 at most (the first five), a
    note "... and k more" exactly when more than five tickets were found,
    and the link; each of the first five tickets' lines is in the
    message. *)
Theorem alert_message_lists_first_five
        (event : Event) (tickets : list Ticket) :
  is_in (str (List.length tickets) ++ " resale ticket(s)")%string
        (alert_message event tickets) = true /\
  is_in (url event) (alert_message event tickets) = true /\
  message_parts event tickets =
  [("🎟️ " ++ or_else (name event) "Event" ++ " - "
    ++ str (List.length tickets) ++ " resale ticket(s) found!")%string]
  ++ flat_map detail (combine (seq 1 5) tickets)
  ++ (if (5 <? List.length tickets)%nat
      then [(newline ++ "... and " ++ str (List.length tickets - 5) ++ " more")%string]
      else [])
  ++ [(newline ++ newline ++ "🔗 " ++ url event)%string] /\
  List.length (combine (seq 1 5) tickets) = Nat.min 5 (List.length tickets) /\
  (forall i ticket,
      (i < 5)%nat -> nth_error tickets i = Some ticket ->
      is_in (ticket_line (S i) ticket) (alert_message event tickets) = true).
Proof.
  pose proof (message_parts_shape event tickets) as Hshape.
  split; [|split; [|split; [exact Hshape|split]]].
  - apply is_in_trans with
      (b := ("🎟️ " ++ or_else (name event) "Event" ++ " - "
             ++ str (List.length tickets) ++ " resale ticket(s) found!")%string).
    + apply is_in_spec.
      exists ("🎟️ " ++ or_else (name event) "Event" ++ " - ")%string, " found!".
      now rewrite !append_assoc.
    + apply part_in_joined. rewrite Hshape. now left.
  - apply is_in_trans with (b := (newline ++ newline ++ "🔗 " ++ url event)%string).
    + apply is_in_spec. exists (newline ++ newline ++ "🔗 ")%string, "".
      now rewrite append_nil_r, !append_assoc.
    + apply part_in_joined. rewrite Hshape.
      rewrite !app_assoc. apply in_or_app. right. now left.
  - rewrite length_combine, length_seq. reflexivity.
  - intros i ticket Hi Hnth.
    apply part_in_joined. rewrite Hshape.
    apply in_or_app. right. apply in_or_app. left.
    apply in_flat_map. exists (S i, ticket). split; [|now left].
    exact (In_combine_seq i ticket 5%nat 1%nat tickets Hi Hnth).
Qed.

(** C10. A ticket line shows the amount in euros only for a price that is
    present and not zero; a price of 0.0 is shown as "Price not
    available", as is a missing price. *)
Theorem zero_price_is_shown_as_not_available (p : Q) (i : nat) (ticket : Ticket) :
  price_text None = "Price not available" /\
  price_text (Some 0.0%Q) = "Price not available" /\
  ((p == 0)%Q -> price_text (Some p) = "Price not available") /\
  (~ (p == 0)%Q -> price_text (Some p) = ("€" ++ format_2f p)%string) /\
  ((p == 0)%Q -> price ticket = Some p ->
   ticket_line i ticket =
   ticket_line i {| event := event ticket; section := section ticket;
                    row := row ticket; price := None;
                    quantity := quantity ticket;
                    is_verified_resale := is_verified_resale ticket;
                    listing_url := listing_url ticket |}) /\
  is_in "A - Price not available"
        (alert_message test_event [test_ticket "A" 0.0%Q]) = true /\
  is_in "A - €0.01"
        (alert_message test_event [test_ticket "A" 0.01%Q]) = true.
Proof.
  assert (Hzero : (p == 0)%Q -> price_text (Some p) = "Price not available").
  { intros H. cbn [price_text]. apply Qeq_bool_iff in H. now rewrite H. }
  repeat split; try (vm_compute; reflexivity); try exact Hzero.
  - intros H. cbn [price_text].
    destruct (Qeq_bool p 0) eqn:E; [|reflexivity].
    apply Qeq_bool_iff in E. contradiction.
  - intros H Hp. unfold ticket_line. cbn [price section]. rewrite Hp.
    now rewrite (Hzero H).
Qed.

(** ** The wait between two checks *)

Local Open Scope Q_scope.

Lemma inject_nat_succ (k : nat) :
  inject_Z (Z.of_nat (S k)) == inject_Z (Z.of_nat k) + 1.
Proof. rewrite Nat2Z.inj_succ. unfold Z.succ. now rewrite inject_Z_plus. Qed.

Lemma is_set_false_iff (instant now : Q) :
  is_set (Some instant) now = false <-> now < instant.
Proof.
  cbn [is_set]. split.
  - intros H. apply Qnot_le_lt. intros Hle.
    apply Qle_bool_iff in Hle. congruence.
  - intros H. destruct (Qle_bool instant now) eqn:E; [|reflexivity].
    apply Qle_bool_iff in E. lra.
Qed.

(** The loop sleeps [k] whole chunks, [k] at most the number asked for;
    it stops early only on seeing the event set, and the event was not yet
    set when the last chunk was begun. *)
Lemma wait_chunks_spec (shutdown_at : option Q) (chunks : nat) :
  forall now slept,
  exists k : nat,
    (k <= chunks)%nat /\
    clock (wait_chunks shutdown_at chunks 10 now slept)
    == now + 10 * inject_Z (Z.of_nat k) /\
    sleeps (wait_chunks shutdown_at chunks 10 now slept) = slept ++ repeat 10 k /\
    (returned_early (wait_chunks shutdown_at chunks 10 now slept) = true ->
     is_set shutdown_at (clock (wait_chunks shutdown_at chunks 10 now slept)) = true) /\
    (returned_early (wait_chunks shutdown_at chunks 10 now slept) = false ->
     k = chunks) /\
    ((0 < k)%nat ->
     is_set shutdown_at (clock (wait_chunks shutdown_at chunks 10 now slept) - 10)
     = false).
Proof.
  induction chunks as [|chunks IH]; intros now slept; cbn [wait_chunks].
  - exists 0%nat. cbn [returned_early clock sleeps repeat].
    rewrite app_nil_r. repeat split; try lia; try discriminate.
    cbn [Z.of_nat]. unfold inject_Z. lra.
  - destruct (is_set shutdown_at now) eqn:Hnow.
    + exists 0%nat. cbn [returned_early clock sleeps repeat].
      rewrite app_nil_r. repeat split; try lia; try discriminate; auto.
      cbn [Z.of_nat]. unfold inject_Z. lra.
    + destruct (IH (now + 10) (slept ++ [10])) as (k & Hk & Hclock & Hsleeps & Hearly & Hfull & Hlast).
      exists (S k). repeat split.
      * lia.
      * rewrite Hclock, inject_nat_succ. lra.
      * rewrite Hsleeps, <- app_assoc. reflexivity.
      * exact Hearly.
      * intros H. now rewrite (Hfull H).
      * intros _. destruct k as [|k].
        -- destruct shutdown_at as [instant|]; [|reflexivity].
           apply is_set_false_iff. apply is_set_false_iff in Hnow.
           rewrite Hclock. cbn [Z.of_nat]. unfold inject_Z. lra.
        -- apply Hlast. lia.
Qed.


Lemma is_set_true_iff (instant now : Q) :
  is_set (Some instant) now = true <-> instant <= now.
Proof. cbn [is_set]. apply Qle_bool_iff. Qed.

(** What a wait amounts to: [k] whole chunks and then, possibly, the
    remainder; with the instants at which the event was seen unset. *)
Lemma wait_until_next_check_spec (shutdown_at : option Q) (wait_minutes now : Q) :
  let chunks := Qfloor (wait_minutes * 60 / 10) in
  let remainder := wait_minutes * 60 - inject_Z chunks * 10 in
  let w := _wait_until_next_check shutdown_at wait_minutes now in
  exists (k : nat) (last : list Q),
    (k <= Z.to_nat chunks)%nat /\
    sleeps w = repeat 10 k ++ last /\
    ((0 < k)%nat ->
     forall instant, shutdown_at = Some instant ->
                     now + 10 * inject_Z (Z.of_nat k) - 10 < instant) /\
    ((last = [] /\ clock w == now + 10 * inject_Z (Z.of_nat k) /\
      ((exists instant, shutdown_at = Some instant /\ instant <= clock w) \/
       (k = Z.to_nat chunks /\ remainder <= 0 /\ returned_early w = false)))
     \/
     (last = [remainder] /\ 0 < remainder /\ k = Z.to_nat chunks /\
      returned_early w = false /\
      clock w == now + 10 * inject_Z (Z.of_nat k) + remainder /\
      forall instant, shutdown_at = Some instant ->
                      now + 10 * inject_Z (Z.of_nat k) < instant)).
Proof.
  intros chunks remainder w. subst w. unfold _wait_until_next_check.
  fold chunks. fold remainder.
  destruct (wait_chunks_spec shutdown_at (Z.to_nat chunks) now [])
    as (k & Hk & Hclock & Hsleeps & Hearly & Hfull & Hlast).
  set (W := wait_chunks shutdown_at (Z.to_nat chunks) 10 now []) in *.
  cbn [app] in Hsleeps.
  assert (Hprev : (0 < k)%nat ->
                  forall instant, shutdown_at = Some instant ->
                                  now + 10 * inject_Z (Z.of_nat k) - 10 < instant).
  { intros Hpos instant ->. specialize (Hlast Hpos).
    apply is_set_false_iff in Hlast. rewrite Hclock in Hlast. exact Hlast. }
  destruct (returned_early W) eqn:Hret.
  - exists k, []. rewrite app_nil_r.
    split; [exact Hk|]. split; [exact Hsleeps|]. split; [exact Hprev|].
    left. split; [reflexivity|]. split; [exact Hclock|]. left.
    specialize (Hearly eq_refl).
    destruct shutdown_at as [instant|]; [|discriminate].
    exists instant. split; [reflexivity|]. now apply is_set_true_iff in Hearly.
  - specialize (Hfull eq_refl).
    destruct (Qlt_le_dec 0 remainder) as [Hrem|Hrem].
    + destruct (is_set shutdown_at (clock W)) eqn:Hset.
      * exists k, []. rewrite app_nil_r.
        split; [exact Hk|]. split; [exact Hsleeps|]. split; [exact Hprev|].
        left. split; [reflexivity|]. split; [exact Hclock|]. left.
        destruct shutdown_at as [instant|]; [|discriminate].
        exists instant. split; [reflexivity|]. now apply is_set_true_iff in Hset.
      * exists k, [remainder]. cbn [sleeps clock returned_early].
        split; [exact Hk|]. split; [now rewrite Hsleeps|]. split; [exact Hprev|].
        right. repeat split; auto.
        -- now rewrite Hclock.
        -- intros instant ->. apply is_set_false_iff in Hset.
           rewrite Hclock in Hset. exact Hset.
    + exists k, []. rewrite app_nil_r.
      split; [exact Hk|]. split; [exact Hsleeps|]. split; [exact Hprev|].
      left. split; [reflexivity|]. split; [exact Hclock|]. right. auto.
Qed.

Lemma inject_nat_nonneg (k : nat) : 0 <= inject_Z (Z.of_nat k).
Proof. change 0 with (inject_Z 0). rewrite <- Zle_Qle. lia. Qed.

Lemma inject_nat_pos (k : nat) : (0 < k)%nat -> 1 <= inject_Z (Z.of_nat k).
Proof. intros H. change 1 with (inject_Z 1). rewrite <- Zle_Qle. lia. Qed.








Local Close Scope Q_scope.

(** * Further properties of scraper.py *)

Section PriceFacts.
Import Models Scraper ScraperFacts.

Lemma all_chars_app (p : ascii -> bool) (a b : string) :
  all_chars p (a ++ b)%string = all_chars p a && all_chars p b.
Proof.
  induction a as [|c a IH]; cbn; [reflexivity|].
  rewrite IH. now rewrite andb_assoc.
Qed.

Lemma all_chars_weaken (p q : ascii -> bool) (s : string) :
  (forall c, p c = true -> q c = true) ->
  all_chars p s = true -> all_chars q s = true.
Proof.
  intros Hpq. induction s as [|c s IH]; cbn; [reflexivity|].
  intros [Hc Hs]%andb_prop. now rewrite (Hpq _ Hc), IH.
Qed.

Lemma all_chars_contains (p : ascii -> bool) (s : string) (c : ascii) :
  all_chars p s = true -> contains c s = true -> p c = true.
Proof.
  induction s as [|c' s IH]; cbn; [discriminate|].
  intros [Hc Hs]%andb_prop [Heq|Hin]%orb_prop.
  - apply Ascii.eqb_eq in Heq. now subst.
  - now apply IH.
Qed.

Lemma join_if_all_chars (p : ascii -> bool) (s : string) :
  all_chars p (join_if p s) = true.
Proof.
  induction s as [|c s IH]; cbn; [reflexivity|].
  destruct (p c) eqn:Hc; cbn; [now rewrite Hc|exact IH].
Qed.

(** Replacing every [old] leaves the characters of [new] and the other
    characters of the text. *)
Lemma replace_all_chars (p q : ascii -> bool) (old : ascii) (new s : string) :
  (forall c, p c = true -> Ascii.eqb c old = false -> q c = true) ->
  all_chars q new = true ->
  all_chars p s = true -> all_chars q (replace old new s) = true.
Proof.
  intros Hpq Hnew. induction s as [|c s IH]; cbn; [reflexivity|].
  intros [Hc Hs]%andb_prop.
  destruct (Ascii.eqb c old) eqn:Hold.
  - rewrite all_chars_app, Hnew. now apply IH.
  - cbn. now rewrite (Hpq _ Hc Hold), IH.
Qed.

Lemma price_char_not_comma (c : ascii) :
  is_price_char c = true -> Ascii.eqb c "," = false -> digit_or_point c = true.
Proof.
  unfold is_price_char, digit_or_point. intros H Hc. rewrite Hc in H.
  now rewrite orb_false_r in H.
Qed.

Lemma clean_price_all_chars (price_text : string) :
  all_chars digit_or_point (clean_price price_text) = true.
Proof.
  unfold clean_price.
  pose proof (join_if_all_chars is_price_char price_text) as Hjoin.
  set (price_str := join_if is_price_char price_text) in *.
  destruct (contains "," price_str && contains "." price_str).
  - destruct (find "," price_str <? find "." price_str).
    + apply (replace_all_chars is_price_char); [apply price_char_not_comma|reflexivity|].
      apply (replace_all_chars is_price_char); [now intros c Hc _|reflexivity|exact Hjoin].
    + apply (replace_all_chars is_price_char); [apply price_char_not_comma|reflexivity|exact Hjoin].
  - apply (replace_all_chars is_price_char); [apply price_char_not_comma|reflexivity|exact Hjoin].
Qed.

Lemma digits_value_nonneg (s : string) :
  forall acc v, 0 <= acc -> digits_value acc s = Some v -> 0 <= v.
Proof.
  induction s as [|c s IH]; cbn [digits_value]; intros acc v Hacc H.
  - now injection H as <-.
  - destruct (isdigit c); [|discriminate].
    eapply IH; [|exact H]. lia.
Qed.

Lemma Qred_nonneg (n : Z) (d : positive) : 0 <= n -> (0 <= Qred (n # d))%Q.
Proof.
  intros Hn.
  eapply Qle_trans; [|apply Qle_lteq; right; symmetry; apply Qred_correct].
  unfold Qle. cbn [Qnum Qden]. lia.
Qed.

Lemma float_nonneg (s : string) (q : Q) : float s = Some q -> (0 <= q)%Q.
Proof.
  unfold float. destruct (split_point s) as [int_part frac].
  set (frac_part := match frac with Some f => f | None => EmptyString end).
  destruct (digits_value 0 int_part) as [i|] eqn:Hi; [|discriminate].
  destruct (digits_value 0 frac_part) as [f|] eqn:Hf; [|discriminate].
  destruct (_ =? _)%nat; [discriminate|].
  intros H. assert (Hq : forall a b : Q, Some a = Some b -> a = b) by congruence.
  apply Hq in H. subst q. apply Qred_nonneg.
  apply digits_value_nonneg in Hi; [|lia].
  apply digits_value_nonneg in Hf; [|lia].
  assert (0 <= 10 ^ Z.of_nat (String.length frac_part)) by (apply Z.pow_nonneg; lia).
  apply Z.mul_nonneg_nonneg; [lia|]. apply Z.add_nonneg_nonneg; [|exact Hf].
  apply Z.mul_nonneg_nonneg; assumption.
Qed.

Lemma digits_value_no_digit (s : string) (acc : Z) :
  all_chars not_digit s = true -> digits_value acc s <> None -> s = EmptyString.
Proof.
  destruct s as [|c s]; cbn; [reflexivity|].
  unfold not_digit. intros [Hc _]%andb_prop.
  destruct (isdigit c); [discriminate|]. now intros [].
Qed.

Lemma split_point_all_chars (p : ascii -> bool) (s : string) :
  all_chars p s = true ->
  all_chars p (fst (split_point s)) = true /\
  all_chars p (match snd (split_point s) with Some f => f | None => EmptyString end) = true.
Proof.
  induction s as [|c s IH]; cbn; [now split|].
  intros [Hc Hs]%andb_prop.
  destruct (Ascii.eqb c "."); cbn; [now split|].
  destruct (split_point s) as [int_part frac]. cbn in *.
  rewrite Hc. now apply IH.
Qed.

Lemma float_no_digit (s : string) :
  all_chars not_digit s = true -> float s = None.
Proof.
  intros Hs. unfold float.
  destruct (split_point_all_chars _ _ Hs) as [Hint Hfrac].
  destruct (split_point s) as [int_part frac]. cbn [fst snd] in *.
  set (frac_part := match frac with Some f => f | None => EmptyString end) in *.
  destruct (digits_value 0 int_part) as [i|] eqn:Hi; [|reflexivity].
  destruct (digits_value 0 frac_part) as [f|] eqn:Hf; [|reflexivity].
  rewrite (digits_value_no_digit int_part 0 Hint) by congruence.
  rewrite (digits_value_no_digit frac_part 0 Hfrac) by congruence.
  reflexivity.
Qed.

Lemma join_if_no_digit (s : string) :
  all_chars not_digit s = true ->
  all_chars not_digit (join_if is_price_char s) = true.
Proof.
  induction s as [|c s IH]; cbn; [reflexivity|].
  intros [Hc Hs]%andb_prop.
  destruct (is_price_char c); cbn; [now rewrite Hc, IH|now apply IH].
Qed.

Lemma clean_price_no_digit (price_text : string) :
  all_chars not_digit price_text = true ->
  all_chars not_digit (clean_price price_text) = true.
Proof.
  intros H%join_if_no_digit. unfold clean_price.
  set (price_str := join_if is_price_char price_text) in *.
  assert (Hrep : forall old new s, all_chars not_digit new = true ->
            all_chars not_digit s = true ->
            all_chars not_digit (replace old new s) = true).
  { intros old new s Hnew. apply replace_all_chars; [now intros c Hc _|exact Hnew]. }
  destruct (contains "," price_str && contains "." price_str).
  - destruct (find "," price_str <? find "." price_str); repeat apply Hrep;
      try reflexivity; exact H.
  - apply Hrep; [reflexivity|exact H].
Qed.

End PriceFacts.

(** X1.  For a price text made of ASCII characters and euro signs, the
    string handed to [float] in [_parse_ticket_element] is made of decimal
    digits and points only: no comma, sign, currency symbol, letter or
    white space reaches [float]. *)
Theorem clean_price_keeps_digits_and_points (price_text : string) :
  ScraperFacts.ascii_or_euro price_text = true ->
  ScraperFacts.all_chars ScraperFacts.digit_or_point
    (Scraper.clean_price price_text) = true /\
  Scraper.contains "," (Scraper.clean_price price_text) = false /\
  forall c, Scraper.contains c (Scraper.clean_price price_text) = true ->
            Scraper.isdigit c = true \/ c = "."%char.
Proof.
  intros _.
  pose proof (clean_price_all_chars price_text) as H.
  split; [exact H|]. split.
  - destruct (Scraper.contains "," (Scraper.clean_price price_text)) eqn:Hc;
      [|reflexivity].
    now pose proof (all_chars_contains _ _ _ H Hc).
  - intros c Hc. pose proof (all_chars_contains _ _ _ H Hc) as Hp.
    unfold ScraperFacts.digit_or_point in Hp.
    apply orb_prop in Hp as [Hd|Hp]; [now left|right].
    now apply Ascii.eqb_eq in Hp.
Qed.

Lemma clean_price_keeps_digits_and_points_witness :
  Scraper.clean_price "from €99.99 each" = "99.99" /\
  Scraper.contains "," (Scraper.clean_price "from €99.99 each") = false.
Proof.
  split; [reflexivity|].
  refine (proj1 (proj2 (clean_price_keeps_digits_and_points
                          "from €99.99 each" _))).
  reflexivity.
Defined.

(** X2.  A price parsed from a ticket element is never negative: a minus
    sign in the text is dropped by the cleaning, so that "-5" is read
    as 5. *)
Theorem parse_price_is_never_negative (price_text : string) (q : Q) :
  Scraper.parse_price price_text = Some q -> (0 <= q)%Q.
Proof. apply float_nonneg. Qed.

Lemma parse_price_is_never_negative_witness :
  Scraper.parse_price "-5" = Some 5%Q /\ (0 <= 5)%Q.
Proof.
  split; [reflexivity|].
  apply (parse_price_is_never_negative "-5" 5%Q). reflexivity.
Defined.

(** X3.  A price text made of ASCII characters and euro signs, none of
    them a decimal digit, gives no price: [float] raises [ValueError] and
    [price] stays [None]. *)
Theorem parse_price_without_digit_is_none (price_text : string) :
  ScraperFacts.ascii_or_euro price_text = true ->
  ScraperFacts.all_chars ScraperFacts.not_digit price_text = true ->
  Scraper.parse_price price_text = None.
Proof.
  intros _ H. unfold Scraper.parse_price.
  apply float_no_digit, clean_price_no_digit, H.
Qed.

Lemma parse_price_without_digit_is_none_witness :
  Scraper.parse_price "€ -.- (sold out)" = None.
Proof. apply parse_price_without_digit_is_none; reflexivity. Defined.

Section ScanFacts.
Import Models Scraper ScraperFacts.

Lemma scan_spans_readable (li : element_handle) (event : option Event)
      (texts : list (option string)) :
  scan_spans li event (map Returns texts) =
  Returns (if existsb is_marker (map Returns texts)
           then Some (simple_ticket li event) else None).
Proof.
  induction texts as [|content texts IH]; cbn [map scan_spans existsb is_marker];
    [reflexivity|].
  destruct (String.eqb (stripped content) "Verified Resale Ticket");
    [reflexivity|exact IH].
Qed.

Lemma scan_item_readable (li : element_handle) (event : option Event) :
  readable li ->
  scan_item li event =
  Returns (if marked li then Some (simple_ticket li event) else None).
Proof.
  intros [texts Hspans]. unfold scan_item, marked. rewrite Hspans.
  apply scan_spans_readable.
Qed.

(** The scan of a readable prefix appends one ticket per marked item and
    goes on with the rest. *)
Lemma scan_items_readable (event : option Event)
      (items rest : list element_handle) :
  Forall readable items ->
  forall tickets,
    scan_items (items ++ rest) event tickets =
    scan_items rest event
      (tickets ++ map (fun li => simple_ticket li event) (filter marked items)).
Proof.
  induction 1 as [|li items Hli Hitems IH]; intros tickets; cbn [app filter map].
  - now rewrite app_nil_r.
  - cbn [scan_items]. rewrite (scan_item_readable li event Hli).
    destruct (marked li); cbn [map].
    + rewrite IH, <- app_assoc. reflexivity.
    + apply IH.
Qed.

End ScanFacts.

(** X4.  When every list item of the page can be read, and the texts
    read from the items are made of ASCII characters and euro signs, the
    simplified scan returns exactly one ticket for each item that has a
    span reading "Verified Resale Ticket", in page order, and none for the
    others: an item with several such spans still counts once. *)
Theorem simple_scan_finds_every_marked_item
        (page : Scraper.Page) (event : option Models.Event)
        (items : list Scraper.element_handle) :
  Scraper.query_selector_all page Scraper.li_role_button = Returns items ->
  Forall ScraperFacts.readable items ->
  Forall (fun li => ScraperFacts.plain_texts li = true) items ->
  Scraper._simple_resale_check page event =
    map (fun li => Scraper.simple_ticket li event)
        (filter ScraperFacts.marked items) /\
  List.length (Scraper._simple_resale_check page event) =
    List.length (filter ScraperFacts.marked items).
Proof.
  intros Hitems Hread _.
  assert (Heq : Scraper._simple_resale_check page event =
                map (fun li => Scraper.simple_ticket li event)
                    (filter ScraperFacts.marked items)).
  { unfold Scraper._simple_resale_check. rewrite Hitems.
    rewrite <- (app_nil_r items) at 1.
    now rewrite (scan_items_readable event items [] Hread []). }
  split; [exact Heq|]. rewrite Heq. apply length_map.
Qed.

Lemma simple_scan_finds_every_marked_item_witness :
  List.length (Scraper._simple_resale_check
                 (ScraperFacts.listing ScraperFacts.sample_items) None) = 2%nat.
Proof.
  refine (eq_trans (proj2 (simple_scan_finds_every_marked_item
                             (ScraperFacts.listing ScraperFacts.sample_items) None
                             ScraperFacts.sample_items _ _ _)) _).
  - reflexivity.
  - repeat constructor.
    + now exists [Some "Standing"].
    + now exists [Some "€99.99"; Some "  Verified Resale Ticket ";
                  Some "Verified Resale Ticket"].
    + now exists [].
    + now exists [Some "€99.99"; Some "  Verified Resale Ticket ";
                  Some "Verified Resale Ticket"].
  - repeat constructor.
  - reflexivity.
Defined.

(** X5.  The simplified scan stops at the first list item that raises:
    when the items before it can be read, and the texts read from them and
    from the failing item are made of ASCII characters and euro signs, the
    tickets of the items before it are returned, and the items after it
    are not looked at, marked or not. *)
Theorem simple_scan_stops_at_first_failure
        (page : Scraper.Page) (event : option Models.Event)
        (before after : list Scraper.element_handle)
        (bad : Scraper.element_handle) (e : exn) :
  Scraper.query_selector_all page Scraper.li_role_button =
    Returns (before ++ bad :: after) ->
  Forall ScraperFacts.readable before ->
  Forall (fun li => ScraperFacts.plain_texts li = true) (before ++ [bad]) ->
  Scraper.scan_item bad event = Raises e ->
  Scraper._simple_resale_check page event =
    map (fun li => Scraper.simple_ticket li event)
        (filter ScraperFacts.marked before).
Proof.
  intros Hitems Hread _ Hbad.
  unfold Scraper._simple_resale_check. rewrite Hitems.
  rewrite (scan_items_readable event before (bad :: after) Hread []).
  cbn [Scraper.scan_items app]. now rewrite Hbad.
Qed.

Lemma simple_scan_stops_at_first_failure_witness :
  Scraper._simple_resale_check
    (ScraperFacts.listing
       [ScraperFacts.marked_item; ScraperFacts.broken_item; ScraperFacts.marked_item])
    None =
  [Scraper.simple_ticket ScraperFacts.marked_item None].
Proof.
  apply (simple_scan_stops_at_first_failure
           (ScraperFacts.listing
              [ScraperFacts.marked_item; ScraperFacts.broken_item;
               ScraperFacts.marked_item])
           None [ScraperFacts.marked_item] [ScraperFacts.marked_item]
           ScraperFacts.broken_item
           (Exception "Element is not attached to the DOM")).
  - reflexivity.
  - repeat constructor.
    now exists [Some "€99.99"; Some "  Verified Resale Ticket ";
                Some "Verified Resale Ticket"].
  - repeat constructor.
  - reflexivity.
Defined.

(** X6.  [find_tickets] never raises.  Without an initialised browser it
    returns the empty list and touches nothing; when the navigation raises
    it returns the empty list after one screenshot, without clicking or
    scanning; and what [page.screenshot] does, raise included, changes
    neither the result nor the calls made. *)
Theorem find_tickets_swallows_every_failure
        (parse : Scraper.element_handle -> option Models.Event ->
                 outcome (option Models.Ticket))
        (page : Scraper.Page) (event_url : string) :
  (forall browser, exists tickets,
      fst (Scraper.find_tickets parse browser event_url) = Returns tickets) /\
  Scraper.find_tickets parse None event_url = (Returns [], []) /\
  (forall e, Scraper.goto page event_url = Raises e ->
      Scraper.find_tickets parse (Some page) event_url =
      (Returns [],
       [Scraper.ClearStorage; Scraper.Navigate event_url;
        Scraper.TakeScreenshot "error_occurred.png"])) /\
  (forall shot,
      Scraper.find_tickets parse
        (Some (ScraperFacts.with_screenshot page shot)) event_url =
      Scraper.find_tickets parse (Some page) event_url).
Proof.
  split; [|split; [reflexivity|split]].
  - intros [p|]; [|now exists []].
    rewrite find_tickets_run.
    destruct (Scraper.goto p event_url); [|now eexists].
    destruct (Scraper.find_tickets_clicked p); now eexists.
  - intros e He. now rewrite find_tickets_run, He.
  - intros shot. rewrite !find_tickets_run.
    unfold Scraper._simple_resale_check. reflexivity.
Qed.

(** * Further properties of browser.py and scraper.py: buttons, event page *)

Section ButtonFacts.
Import Models Scraper Buttons.

Variable attempt : string -> outcome bool * list interaction.

Lemma first_clicked_false (selectors : list string) :
  fst (first_clicked attempt selectors) = false ->
  Forall (fun s => ~ clicks attempt s) selectors /\
  snd (first_clicked attempt selectors) =
    List.concat (map (fun s => snd (attempt s)) selectors).
Proof.
  induction selectors as [|s rest IH]; cbn [first_clicked map List.concat].
  - now split.
  - unfold clicks in *. destruct (attempt s) as [[[|]|e] log] eqn:Hs.
    + discriminate.
    + destruct (first_clicked attempt rest) as [clicked log']. cbn [fst snd] in *.
      intros Hc. destruct (IH Hc) as [Hall Hlog]. split.
      * constructor; [rewrite Hs; cbn; congruence|exact Hall].
      * now rewrite Hlog.
    + destruct (first_clicked attempt rest) as [clicked log']. cbn [fst snd] in *.
      intros Hc. destruct (IH Hc) as [Hall Hlog]. split.
      * constructor; [rewrite Hs; cbn; congruence|exact Hall].
      * now rewrite Hlog.
Qed.

Lemma first_clicked_true (selectors : list string) :
  fst (first_clicked attempt selectors) = true ->
  exists before s after,
    selectors = before ++ s :: after /\
    Forall (fun s' => ~ clicks attempt s') before /\
    clicks attempt s /\
    snd (first_clicked attempt selectors) =
      List.concat (map (fun s' => snd (attempt s')) before) ++ snd (attempt s).
Proof.
  induction selectors as [|s rest IH]; cbn [first_clicked]; [discriminate|].
  destruct (attempt s) as [[[|]|e] log] eqn:Hs.
  - intros _. exists [], s, rest. unfold clicks. rewrite Hs.
    repeat split. constructor.
  - destruct (first_clicked attempt rest) as [clicked log']. cbn [fst snd] in *.
    intros Hc. destruct (IH Hc) as (before & s' & after & -> & Hall & Hs' & Hlog).
    exists (s :: before), s', after. repeat split.
    + constructor; [unfold clicks; rewrite Hs; cbn; congruence|exact Hall].
    + exact Hs'.
    + cbn [map List.concat]. rewrite Hs, Hlog, app_assoc. reflexivity.
  - destruct (first_clicked attempt rest) as [clicked log']. cbn [fst snd] in *.
    intros Hc. destruct (IH Hc) as (before & s' & after & -> & Hall & Hs' & Hlog).
    exists (s :: before), s', after. repeat split.
    + constructor; [unfold clicks; rewrite Hs; cbn; congruence|exact Hall].
    + exact Hs'.
    + cbn [map List.concat]. rewrite Hs, Hlog, app_assoc. reflexivity.
Qed.

Lemma first_clicked_iff (selectors : list string) :
  fst (first_clicked attempt selectors) = true <->
  exists s, In s selectors /\ clicks attempt s.
Proof.
  split.
  - intros (before & s & after & -> & _ & Hs & _)%first_clicked_true.
    exists s. split; [apply in_elt|exact Hs].
  - intros (s & Hin & Hs).
    destruct (fst (first_clicked attempt selectors)) eqn:Hc; [reflexivity|].
    apply first_clicked_false in Hc as [Hall _].
    rewrite Forall_forall in Hall. now destruct (Hall s Hin).
Qed.

(** Every call of an attempt is made on the selector of the attempt. *)
Hypothesis attempt_local :
  forall s i s', In i (snd (attempt s)) -> selector_of i = Some s' -> s' = s.

Lemma concat_attempts_local (selectors : list string) (i : interaction) (s' : string) :
  In i (List.concat (map (fun s => snd (attempt s)) selectors)) ->
  selector_of i = Some s' -> In s' selectors.
Proof.
  induction selectors as [|s rest IH]; cbn [map List.concat]; [intros []|].
  intros [Hi|Hi]%in_app_or Hsel.
  - left. symmetry. exact (attempt_local s i s' Hi Hsel).
  - right. now apply IH.
Qed.

(** A run that ends with a click touched no selector after the clicked
    one. *)
Lemma first_clicked_stops (selectors : list string) :
  fst (first_clicked attempt selectors) = true ->
  exists before s after earlier,
    selectors = before ++ s :: after /\
    Forall (fun s' => ~ clicks attempt s') before /\
    clicks attempt s /\
    snd (first_clicked attempt selectors) = earlier ++ snd (attempt s) /\
    (forall i s', In i earlier -> selector_of i = Some s' -> In s' before) /\
    (forall i s', In i (snd (first_clicked attempt selectors)) ->
                  selector_of i = Some s' -> In s' (before ++ [s])).
Proof.
  intros (before & s & after & Hsel & Hall & Hs & Hlog)%first_clicked_true.
  exists before, s, after, (List.concat (map (fun s' => snd (attempt s')) before)).
  repeat split; try assumption.
  - intros i s'. apply concat_attempts_local.
  - intros i s'. rewrite Hlog. intros [Hi|Hi]%in_app_or Hsel'; apply in_or_app.
    + left. now apply (concat_attempts_local before i s').
    + right. left. symmetry. exact (attempt_local s i s' Hi Hsel').
Qed.

End ButtonFacts.

Section AttemptFacts.
Import Models Scraper Buttons.

Variable p : page.

Lemma consent_attempt_clicks (s : string) :
  clicks (consent_attempt p) s <->
  visible (page_locator p s) = Returns true /\ click (page_locator p s) = Returns tt.
Proof.
  unfold clicks, consent_attempt.
  destruct (visible (page_locator p s)) as [[|]|e]; cbn;
    try (split; [discriminate|intros [H _]; discriminate]).
  destruct (click (page_locator p s)) as [[]|e]; cbn.
  - now split.
  - split; [discriminate|intros [_ H]; discriminate].
Qed.

Lemma consent_attempt_log (s : string) :
  clicks (consent_attempt p) s ->
  snd (consent_attempt p s) = [IsVisible s; Click s; Sleep 1].
Proof.
  unfold clicks, consent_attempt.
  destruct (visible (page_locator p s)) as [[|]|e]; cbn; try discriminate.
  destruct (click (page_locator p s)) as [[]|e]; cbn; [reflexivity|discriminate].
Qed.

Lemma consent_attempt_local (s : string) (i : interaction) (s' : string) :
  In i (snd (consent_attempt p s)) -> selector_of i = Some s' -> s' = s.
Proof.
  unfold consent_attempt.
  destruct (visible (page_locator p s)) as [[|]|e];
    [destruct (click (page_locator p s)) as [[]|e]|..]; cbn;
    intuition (subst; cbn in *; congruence).
Qed.

Lemma find_tickets_attempt_clicks (s : string) :
  clicks (find_tickets_attempt p) s <->
  visible (page_locator p s) = Returns true /\
  scroll_into_view_if_needed (page_locator p s) = Returns tt /\
  click (page_locator p s) = Returns tt.
Proof.
  unfold clicks, find_tickets_attempt.
  destruct (visible (page_locator p s)) as [[|]|e]; cbn;
    try (split; [discriminate|intros [H _]; discriminate]).
  destruct (scroll_into_view_if_needed (page_locator p s)) as [[]|e]; cbn;
    try (split; [discriminate|intros (_ & H & _); discriminate]).
  destruct (click (page_locator p s)) as [[]|e]; cbn.
  - now split.
  - split; [discriminate|intros (_ & _ & H); discriminate].
Qed.

Lemma find_tickets_attempt_log (s : string) :
  clicks (find_tickets_attempt p) s ->
  snd (find_tickets_attempt p s) = [IsVisible s; ScrollIntoView s; Click s].
Proof.
  unfold clicks, find_tickets_attempt.
  destruct (visible (page_locator p s)) as [[|]|e]; cbn; try discriminate.
  destruct (scroll_into_view_if_needed (page_locator p s)) as [[]|e]; cbn;
    try discriminate.
  destruct (click (page_locator p s)) as [[]|e]; cbn; [reflexivity|discriminate].
Qed.

Lemma find_tickets_attempt_local (s : string) (i : interaction) (s' : string) :
  In i (snd (find_tickets_attempt p s)) -> selector_of i = Some s' -> s' = s.
Proof.
  unfold find_tickets_attempt.
  destruct (visible (page_locator p s)) as [[|]|e];
    [destruct (scroll_into_view_if_needed (page_locator p s)) as [[]|e];
     [destruct (click (page_locator p s)) as [[]|e]|]|..]; cbn;
    intuition (subst; cbn in *; congruence).
Qed.

Lemma quantity_attempt_clicks (s : string) :
  clicks (quantity_attempt p) s <->
  exists element text,
    page_query_selector p s = Returns (Some (element, text)) /\
    visible element = Returns true /\
    scroll_into_view_if_needed element = Returns tt /\
    click element = Returns tt.
Proof.
  unfold clicks, quantity_attempt.
  destruct (page_query_selector p s) as [[[element text]|]|e]; cbn;
    try (split; [discriminate|intros (? & ? & H & _); discriminate]).
  destruct (visible element) as [[|]|e] eqn:Hv; cbn;
    try (split; [discriminate|intros (? & ? & [= <- <-] & H & _); congruence]).
  destruct (scroll_into_view_if_needed element) as [[]|e] eqn:Hs; cbn;
    try (split; [discriminate|intros (? & ? & [= <- <-] & _ & H & _); congruence]).
  destruct (click element) as [[]|e] eqn:Hc; cbn.
  - split; [intros _|reflexivity]. now exists element, text.
  - split; [discriminate|intros (? & ? & [= <- <-] & _ & _ & H); congruence].
Qed.

End AttemptFacts.

(** X7.  [handle_cookie_consent] never raises.  It returns [True] exactly
    when, for some selector of its list, the button is visible and the
    click on it succeeds; it then clicked the first such selector, that
    click (and the one-second sleep) is the last thing it did, and no
    selector after it in the list was touched.  Without a page it returns
    [False] and does nothing. *)
Theorem handle_cookie_consent_clicks_first_button (p : Buttons.page) :
  let clickable s :=
    Buttons.visible (Buttons.page_locator p s) = Returns true /\
    Buttons.click (Buttons.page_locator p s) = Returns tt in
  let result := Buttons.handle_cookie_consent (Some p) in
  Buttons.handle_cookie_consent None = (false, []) /\
  (fst result = true <-> exists s, In s Buttons.cookie_selectors /\ clickable s) /\
  (fst result = true ->
   exists before s after earlier,
     Buttons.cookie_selectors = before ++ s :: after /\
     (forall s', In s' before -> ~ clickable s') /\
     clickable s /\
     snd result =
       earlier ++ [Buttons.IsVisible s; Buttons.Click s; Buttons.Sleep 1] /\
     (forall i s', In i (snd result) -> Buttons.selector_of i = Some s' ->
                   In s' (before ++ [s]))) /\
  (fst result = false ->
   forall s, In s Buttons.cookie_selectors -> In (Buttons.IsVisible s) (snd result)).
Proof.
  intros clickable result. subst clickable result.
  cbn [Buttons.handle_cookie_consent].
  split; [reflexivity|]. split; [|split].
  - rewrite first_clicked_iff. split; intros (s & Hin & Hs); exists s;
      (split; [exact Hin|]); now apply consent_attempt_clicks.
  - intros Hc.
    destruct (first_clicked_stops _ (consent_attempt_local p) _ Hc)
      as (before & s & after & earlier & Hsel & Hall & Hs & Hlog & _ & Hloc).
    exists before, s, after, earlier. split; [exact Hsel|].
    split; [|split; [now apply consent_attempt_clicks|split]].
    + intros s' Hin Hs'. rewrite Forall_forall in Hall.
      apply (Hall s' Hin). now apply consent_attempt_clicks.
    + rewrite Hlog. now rewrite (consent_attempt_log p s Hs).
    + exact Hloc.
  - intros Hc. apply first_clicked_false in Hc as [_ Hlog]. rewrite Hlog.
    intros s Hin. apply in_concat. exists (snd (Buttons.consent_attempt p s)).
    split; [now apply (in_map (fun s => snd (Buttons.consent_attempt p s)))|].
    unfold Buttons.consent_attempt.
    destruct (Buttons.visible (Buttons.page_locator p s)) as [[|]|e];
      [destruct (Buttons.click (Buttons.page_locator p s)) as [[]|e]|..];
      now left.
Qed.

(** X8.  [_click_find_tickets] never raises.  It returns [True] exactly
    when, for some selector of its list, the button is visible, scrolls
    into view and accepts the click; it then clicked the first such
    selector, as the last thing it did, and no selector after it in the
    list was touched.  When it returns [False] it has probed every
    selector of the list. *)
Theorem click_find_tickets_clicks_first_button (p : Buttons.page) :
  let clickable s :=
    Buttons.visible (Buttons.page_locator p s) = Returns true /\
    Buttons.scroll_into_view_if_needed (Buttons.page_locator p s) = Returns tt /\
    Buttons.click (Buttons.page_locator p s) = Returns tt in
  let result := Buttons._click_find_tickets (Some p) in
  Buttons._click_find_tickets None = (false, []) /\
  (fst result = true <->
   exists s, In s Buttons.find_tickets_selectors /\ clickable s) /\
  (fst result = true ->
   exists before s after earlier,
     Buttons.find_tickets_selectors = before ++ s :: after /\
     (forall s', In s' before -> ~ clickable s') /\
     clickable s /\
     snd result =
       earlier ++ [Buttons.IsVisible s; Buttons.ScrollIntoView s; Buttons.Click s] /\
     (forall i s', In i (snd result) -> Buttons.selector_of i = Some s' ->
                   In s' (before ++ [s]))) /\
  (fst result = false ->
   forall s, In s Buttons.find_tickets_selectors ->
             In (Buttons.IsVisible s) (snd result)).
Proof.
  intros clickable result. subst clickable result.
  cbn [Buttons._click_find_tickets].
  split; [reflexivity|]. split; [|split].
  - rewrite first_clicked_iff. split; intros (s & Hin & Hs); exists s;
      (split; [exact Hin|]); now apply find_tickets_attempt_clicks.
  - intros Hc.
    destruct (first_clicked_stops _ (find_tickets_attempt_local p) _ Hc)
      as (before & s & after & earlier & Hsel & Hall & Hs & Hlog & _ & Hloc).
    exists before, s, after, earlier. split; [exact Hsel|].
    split; [|split; [now apply find_tickets_attempt_clicks|split]].
    + intros s' Hin Hs'. rewrite Forall_forall in Hall.
      apply (Hall s' Hin). now apply find_tickets_attempt_clicks.
    + rewrite Hlog. now rewrite (find_tickets_attempt_log p s Hs).
    + exact Hloc.
  - intros Hc. apply first_clicked_false in Hc as [_ Hlog]. rewrite Hlog.
    intros s Hin. apply in_concat.
    exists (snd (Buttons.find_tickets_attempt p s)).
    split; [now apply (in_map (fun s => snd (Buttons.find_tickets_attempt p s)))|].
    unfold Buttons.find_tickets_attempt.
    destruct (Buttons.visible (Buttons.page_locator p s)) as [[|]|e];
      [destruct (Buttons.scroll_into_view_if_needed (Buttons.page_locator p s))
         as [[]|e];
       [destruct (Buttons.click (Buttons.page_locator p s)) as [[]|e]|]|..];
      now left.
Qed.

(** X9.  [_click_quantity_stepper] never raises, and it tries its
    alternative selectors only when the stepper's [count()] returned a
    number that is not positive.  When the count is positive the result
    is whether the click on the stepper's first button succeeded; when
    [count()] raises the result is [False]; in both cases no alternative
    selector is queried.  Otherwise the result is [True] exactly when some
    alternative selector gives an element that is visible, scrolls into
    view and accepts the click. *)
Theorem click_quantity_stepper_falls_back_only_without_stepper (p : Buttons.page) :
  let result := Buttons._click_quantity_stepper (Some p) in
  Buttons._click_quantity_stepper None = (false, []) /\
  (forall e, Buttons.stepper_count p = Raises e ->
     result = (false, [Buttons.Count Buttons.quantityStepper])) /\
  (forall n, Buttons.stepper_count p = Returns n -> 0 < n ->
     snd result = [Buttons.Count Buttons.quantityStepper;
                   Buttons.Click Buttons.quantityStepper] /\
     (fst result = true <-> Buttons.stepper_click p = Returns tt)) /\
  (forall n, Buttons.stepper_count p = Returns n -> n <= 0 ->
     (fst result = true <->
      exists s element text,
        In s Buttons.quantity_selectors /\
        Buttons.page_query_selector p s = Returns (Some (element, text)) /\
        Buttons.visible element = Returns true /\
        Buttons.scroll_into_view_if_needed element = Returns tt /\
        Buttons.click element = Returns tt)) /\
  (forall s, In (Buttons.QuerySelector s) (snd result) ->
     exists n, Buttons.stepper_count p = Returns n /\ n <= 0).
Proof.
  intros result. subst result. cbn [Buttons._click_quantity_stepper].
  split; [reflexivity|]. split; [|split; [|split]].
  - intros e ->. reflexivity.
  - intros n -> Hn. apply Z.ltb_lt in Hn. rewrite Hn.
    destruct (Buttons.stepper_click p) as [[]|e]; cbn; split;
      try reflexivity; split; congruence.
  - intros n -> Hn. apply Z.ltb_ge in Hn. rewrite Hn.
    pose proof (first_clicked_iff (Buttons.quantity_attempt p)
                  Buttons.quantity_selectors) as Hiff.
    destruct (Buttons.first_clicked (Buttons.quantity_attempt p)
                Buttons.quantity_selectors) as [clicked log].
    cbn [fst] in *. rewrite Hiff. split.
    + intros (s & Hin & (element & text & H)%quantity_attempt_clicks).
      now exists s, element, text.
    + intros (s & element & text & Hin & H). exists s. split; [exact Hin|].
      apply quantity_attempt_clicks. now exists element, text.
  - intros s. destruct (Buttons.stepper_count p) as [n|e].
    + destruct (0 <? n) eqn:Hn.
      * destruct (Buttons.stepper_click p); cbn;
          intros [H|[H|[]]]; discriminate.
      * intros _. exists n. split; [reflexivity|]. now apply Z.ltb_ge.
    + cbn. intros [H|[]]. discriminate.
Qed.

Section EventInfoFacts.
Import Models Scraper Buttons.

Lemma get_event_info_run (p : page) (url : string) :
  get_event_info (Some p) url =
  match page_goto p url with
  | Raises _ => (Returns None, [Goto url])
  | Returns _ =>
      (Returns (Some {| Models.url := url; name := fst (event_name p);
                        venue := fst (event_venue p) |}),
       [Goto url] ++ snd (handle_cookie_consent (Some p)) ++
       snd (event_name p) ++ snd (event_venue p))
  end.
Proof.
  unfold get_event_info, navigate.
  destruct (page_goto p url) as [[]|e]; [|reflexivity].
  cbn [Z.ltb Z.compare].
  destruct (handle_cookie_consent (Some p)) as [c consent].
  destruct (event_name p) as [n log_name].
  destruct (event_venue p) as [v log_venue]. reflexivity.
Qed.

Lemma query_text_log (p : page) (s s' : string) :
  In (QuerySelector s') (snd (query_text p s)) -> s' = s.
Proof.
  unfold query_text.
  destruct (page_query_selector p s) as [[[element [content|e]]|]|e]; cbn;
    intuition congruence.
Qed.

Lemma first_clicked_no_query (attempt : string -> outcome bool * list interaction)
      (selectors : list string) (i : interaction) :
  (forall s, ~ In i (snd (attempt s))) ->
  ~ In i (snd (first_clicked attempt selectors)).
Proof.
  intros Hno. induction selectors as [|s rest IH]; cbn [first_clicked]; [intros []|].
  pose proof (Hno s) as Hs.
  destruct (attempt s) as [[[|]|e] log]; cbn [snd] in *; [exact Hs|..];
    destruct (first_clicked attempt rest) as [clicked log']; cbn [snd] in *;
    intros [H|H]%in_app_or; auto.
Qed.

Lemma consent_no_query (p : page) (s : string) :
  ~ In (QuerySelector s) (snd (handle_cookie_consent (Some p))).
Proof.
  cbn [handle_cookie_consent]. apply first_clicked_no_query. intros s'.
  unfold consent_attempt.
  destruct (visible (page_locator p s')) as [[|]|e];
    [destruct (click (page_locator p s')) as [[]|e]|..]; cbn;
    intuition discriminate.
Qed.

End EventInfoFacts.

(** X10.  [get_event_info] raises when the browser is not initialised and
    never otherwise.  It returns [None] exactly when the navigation
    raises; any other failure still gives an event, whose [url] is the
    argument.  The name is the text of the [h1] element when it can be
    read, and [None] otherwise.  The venue is read only after the date
    element: when the query for the date element or the reading of its
    text raises, the venue stays [None] and the venue element is not even
    queried. *)
Theorem get_event_info_tolerates_everything_but_navigation
        (p : Buttons.page) (url : string) :
  let result := Buttons.get_event_info (Some p) url in
  fst (Buttons.get_event_info None url) =
    Raises (Exception "Browser not initialized") /\
  (exists info, fst result = Returns info) /\
  (fst result = Returns None <-> exists e, Buttons.page_goto p url = Raises e) /\
  (forall event, fst result = Returns (Some event) ->
     Models.url event = url /\
     (forall element content,
        Buttons.page_query_selector p "h1" =
          Returns (Some (element, Returns content)) ->
        Models.name event = content) /\
     (fst (Buttons.query_text p "h1") = Returns None \/
      (exists e, fst (Buttons.query_text p "h1") = Raises e) ->
      Models.name event = None) /\
     ((exists e, fst (Buttons.query_text p "div.event-date") = Raises e) ->
      Models.venue event = None /\
      ~ In (Buttons.QuerySelector "div.event-venue") (snd result))).
Proof.
  intros result. subst result. split; [reflexivity|].
  rewrite get_event_info_run.
  destruct (Buttons.page_goto p url) as [[]|e]; cbn [fst snd].
  - split; [now eexists|]. split.
    + split; [discriminate|intros [e He]; discriminate].
    + intros event [= <-]. cbn [Models.url Models.name Models.venue].
      split; [reflexivity|]. split; [|split].
      * intros element content H. unfold Buttons.event_name, Buttons.query_text.
        now rewrite H.
      * unfold Buttons.event_name.
        destruct (Buttons.query_text p "h1") as [[[content|]|e] log]; cbn;
          [intros [H|[e H]]; discriminate|reflexivity|reflexivity].
      * intros [e He]. unfold Buttons.event_venue.
        pose proof (query_text_log p "div.event-date" "div.event-venue") as Hlog.
        pose proof (query_text_log p "h1" "div.event-venue") as Hname.
        pose proof (consent_no_query p "div.event-venue") as Hconsent.
        unfold Buttons.event_name.
        destruct (Buttons.query_text p "div.event-date") as [[d|e'] log];
          [discriminate|]. cbn [fst snd] in *.
        split; [reflexivity|].
        destruct (Buttons.query_text p "h1") as [[[content|]|e''] log_name];
          cbn [fst snd] in *;
          intros [H|[H|[H|H]%in_app_or]%in_app_or]%in_app_or;
          try (destruct H as [H|[]]; discriminate); auto;
          try (apply Hname in H; discriminate); try (apply Hlog in H; discriminate).
  - split; [now eexists|]. split.
    + split; [intros _; now exists e|reflexivity].
    + discriminate.
Qed.

(** * Further properties of notifications.py *)

Section NtfyFacts.
Import Models Notifications Ntfy.

Variable post : nat -> Request -> outcome Response.
Variable topic : string.

Lemma send_impl_returns (k : nat) (note : Notification) (b : bool) :
  _send_impl post topic k note = Returns b ->
  b = true /\ delivered post topic note k.
Proof.
  unfold _send_impl, delivered.
  destruct (post k (request_of topic note)) as [response|e]; [|discriminate].
  destruct (raise_for_status response) as [[]|e] eqn:Hstatus; [|discriminate].
  intros [= <-]. split; [reflexivity|]. now exists response.
Qed.

Lemma send_impl_delivered (k : nat) (note : Notification) :
  delivered post topic note k -> _send_impl post topic k note = Returns true.
Proof.
  intros (response & Hpost & Hstatus). unfold _send_impl.
  now rewrite Hpost, Hstatus.
Qed.

Lemma send_impl_raises (k : nat) (note : Notification) (e : exn) :
  _send_impl post topic k note = Raises e -> ~ delivered post topic note k.
Proof.
  intros He Hd. apply send_impl_delivered in Hd. congruence.
Qed.

End NtfyFacts.

Section SendExt.
Import Models Notifications.

(** [send] uses the notification only through what [_send_impl] does
    with it. *)
Lemma send_loop_ext (impl : nat -> Notification -> outcome bool)
      (config : NotificationConfig) (n1 n2 : Notification) :
  (forall k, impl k n1 = impl k n2) ->
  forall attempts fx,
    send_loop impl config attempts n1 fx = send_loop impl config attempts n2 fx.
Proof.
  intros Hext. induction attempts as [|a rest IH]; intros fx; cbn [send_loop];
    [reflexivity|].
  rewrite Hext. destruct (impl (invocations fx) n2); [reflexivity|].
  destruct (a =? retry_attempts config); [reflexivity|apply IH].
Qed.

End SendExt.

(** X11.  With [retry_attempts = n >= 1], [send] of the ntfy service
    returns [True] exactly when one of the first [n] posts is answered
    with a good status, and then makes no post after the first such one;
    it returns [False] only after [n] posts that all raised or got an
    error status.  [_send_impl] itself never returns [False]. *)
Theorem ntfy_send_fails_only_after_every_attempt
        (post : nat -> Ntfy.Request -> outcome Ntfy.Response) (topic : string)
        (config : Models.NotificationConfig) (note : Models.Notification) :
  1 <= Models.retry_attempts config ->
  let n := Z.to_nat (Models.retry_attempts config) in
  let result := Notifications.send (Ntfy._send_impl post topic) config note in
  (forall k, Ntfy._send_impl post topic k note <> Returns false) /\
  (fst result = Returns true \/ fst result = Returns false) /\
  (fst result = Returns true <->
   exists k, (k < n)%nat /\ Ntfy.delivered post topic note k) /\
  (fst result = Returns true ->
   exists k, (k < n)%nat /\ Ntfy.delivered post topic note k /\
             (forall j, (j < k)%nat -> ~ Ntfy.delivered post topic note j) /\
             Notifications.invocations (snd result) = S k) /\
  (fst result = Returns false ->
   Notifications.invocations (snd result) = n /\
   forall k, (k < n)%nat -> ~ Ntfy.delivered post topic note k).
Proof.
  intros Hn n result.
  assert (Himpl : forall k, Ntfy._send_impl post topic k note <> Returns false).
  { intros k H. now apply send_impl_returns in H as [H _]. }
  split; [exact Himpl|].
  destruct (first_return_or_all_raise (Ntfy._send_impl post topic) note n)
    as [(k & b & Hk & Hbefore & Hret)|Hall].
  - destruct (send_impl_returns _ _ _ _ _ Hret) as [-> Hd].
    assert (Hsend : result =
                    (Returns true,
                     {| Notifications.invocations := S k;
                        Notifications.sleeps :=
                          Notifications.backoff (Models.retry_delay config) k |})).
    { subst result. apply send_first_return; [exact Hk|exact Hbefore|exact Hret]. }
    assert (Hnot : forall j, (j < k)%nat -> ~ Ntfy.delivered post topic note j).
    { intros j Hj. destruct (Hbefore j Hj) as [e He].
      exact (send_impl_raises _ _ _ _ _ He). }
    rewrite Hsend. cbn [fst snd Notifications.invocations].
    split; [now left|]. split; [|split].
    + split; [intros _; now exists k|reflexivity].
    + intros _. now exists k.
    + discriminate.
  - assert (Hsend : result =
                    (Returns false,
                     {| Notifications.invocations := n;
                        Notifications.sleeps :=
                          Notifications.backoff (Models.retry_delay config)
                                                (n - 1) |})).
    { subst result n. apply send_all_raise; [exact Hn|exact Hall]. }
    assert (Hnot : forall k, (k < n)%nat -> ~ Ntfy.delivered post topic note k).
    { intros k Hk. destruct (Hall k Hk) as [e He].
      exact (send_impl_raises _ _ _ _ _ He). }
    rewrite Hsend. cbn [fst snd Notifications.invocations].
    split; [now right|]. split; [|split].
    + split; [discriminate|]. intros (k & Hk & Hd). now destruct (Hnot k Hk).
    + discriminate.
    + intros _. now split.
Qed.

Lemma ntfy_send_fails_only_after_every_attempt_witness :
  fst (Notifications.send (Ntfy._send_impl (Ntfy.accepts_after 2) "tickets")
         Models.default_NotificationConfig
         {| Models.title := "t"; Models.message := "m"; Models.priority := 3;
            Models.tags := None; Models.actions := None |}) = Returns true \/
  fst (Notifications.send (Ntfy._send_impl (Ntfy.accepts_after 2) "tickets")
         Models.default_NotificationConfig
         {| Models.title := "t"; Models.message := "m"; Models.priority := 3;
            Models.tags := None; Models.actions := None |}) = Returns false.
Proof.
  refine (proj1 (proj2 (ntfy_send_fails_only_after_every_attempt
                          (Ntfy.accepts_after 2) "tickets"
                          Models.default_NotificationConfig
                          {| Models.title := "t"; Models.message := "m";
                             Models.priority := 3; Models.tags := None;
                             Models.actions := None |} _))).
  cbn. lia.
Defined.

(** X12.  With [retry_attempts] zero or negative, [send] returns [False]
    at once: [_send_impl] is never awaited and nothing is slept, whatever
    the service. *)
Theorem send_without_attempts_sends_nothing
        (impl : nat -> Models.Notification -> outcome bool)
        (config : Models.NotificationConfig) (note : Models.Notification) :
  Models.retry_attempts config <= 0 ->
  Notifications.send impl config note = (Returns false, Notifications.no_effects).
Proof.
  intros Hn. unfold Notifications.send. rewrite range_nil by lia. reflexivity.
Qed.

Lemma send_without_attempts_sends_nothing_witness :
  Notifications.send (fun _ _ => Returns true)
    {| Models.enabled := true; Models.service := "ntfy";
       Models.topic := Some "tickets";
       Models.retry_attempts := 0; Models.retry_delay := 5 |}
    {| Models.title := "t"; Models.message := "m"; Models.priority := 3;
       Models.tags := None; Models.actions := None |} =
  (Returns false, Notifications.no_effects).
Proof. apply send_without_attempts_sends_nothing. cbn. lia. Defined.

(** X13.  Only the message of a notification reaches ntfy: every post
    goes to [https://ntfy.sh/<topic>] with the message as body and the one
    fixed [Title] header, so two notifications with the same message are
    sent in the same way, whatever their title, priority, tags and
    actions. *)
Theorem ntfy_sends_only_the_message
        (post : nat -> Ntfy.Request -> outcome Ntfy.Response) (topic : string)
        (config : Models.NotificationConfig) (n1 n2 : Models.Notification) :
  Models.message n1 = Models.message n2 ->
  Ntfy.request_of topic n1 = Ntfy.request_of topic n2 /\
  Notifications.send (Ntfy._send_impl post topic) config n1 =
  Notifications.send (Ntfy._send_impl post topic) config n2.
Proof.
  intros Hmsg.
  assert (Hreq : Ntfy.request_of topic n1 = Ntfy.request_of topic n2).
  { unfold Ntfy.request_of. now rewrite Hmsg. }
  split; [exact Hreq|]. unfold Notifications.send.
  apply send_loop_ext. intros k. unfold Ntfy._send_impl. now rewrite Hreq.
Qed.

Lemma ntfy_sends_only_the_message_witness :
  Notifications.send (Ntfy._send_impl (Ntfy.accepts_after 1) "tickets")
    Models.default_NotificationConfig
    {| Models.title := "Resale Tickets Available!"; Models.message := "m";
       Models.priority := 4; Models.tags := Some ["ticket"; "warning"];
       Models.actions := None |} =
  Notifications.send (Ntfy._send_impl (Ntfy.accepts_after 1) "tickets")
    Models.default_NotificationConfig
    {| Models.title := "other"; Models.message := "m"; Models.priority := 1;
       Models.tags := None; Models.actions := None |}.
Proof.
  refine (proj2 (ntfy_sends_only_the_message (Ntfy.accepts_after 1) "tickets"
                   Models.default_NotificationConfig _ _ _)).
  reflexivity.
Defined.

(** X14.  The manager has no service at all when notifications are
    disabled, when the configured service is not ntfy (compared without
    regard to case) or when the topic is missing or empty; it then sends
    nothing and [send_notification] returns [False].  Otherwise it has
    exactly one service, the ntfy service of the configured topic with the
    configured retry settings, and every notification is handed to it
    once. *)
Theorem setup_services_is_ntfy_or_nothing
        (post : nat -> Ntfy.Request -> outcome Ntfy.Response)
        (config : Models.NotificationConfig)
        (title message : string) (priority : Z) (tags : option (list string))
        (actions : option (list (list (string * string)))) :
  let services := Ntfy._setup_services post config in
  let sent := Notifications.send_notification services title message priority
                                              tags actions in
  (services = [] <->
   Models.enabled config = false \/
   Ntfy.lower (Models.service config) <> "ntfy" \/
   Models.topic config = None \/ Models.topic config = Some EmptyString) /\
  (services = [] -> sent = (Returns false, [])) /\
  (services <> [] ->
   exists t,
     Models.topic config = Some t /\
     services = [Notifications.retrying_service "NtfyNotificationService"
                   (Ntfy._send_impl post t) config] /\
     Notifications.dispatches (snd sent) =
       [("NtfyNotificationService",
         {| Models.title := title; Models.message := message;
            Models.priority := priority; Models.tags := tags;
            Models.actions := actions |})] /\
     fst sent =
       Returns (Notifications.succeeded
                  (fst (Notifications.send (Ntfy._send_impl post t) config
                          {| Models.title := title; Models.message := message;
                             Models.priority := priority; Models.tags := tags;
                             Models.actions := actions |})))).
Proof.
  intros services sent. subst sent services. unfold Ntfy._setup_services.
  destruct (Models.enabled config); cbn [negb].
  - destruct (Models.topic config) as [[|c t]|].
    + split; [|split]; [split; auto|reflexivity|congruence].
    + destruct (String.eqb_spec (Ntfy.lower (Models.service config)) "ntfy")
        as [Heq|Hne].
      * split; [|split].
        -- split; [discriminate|].
           intros [H|[H|[H|H]]]; try discriminate. now destruct H.
        -- discriminate.
        -- intros _. exists (String c t). split; [reflexivity|].
           split; [reflexivity|].
           cbn [Notifications.send_notification
                  Notifications.gather_return_exceptions map
                  Notifications.retrying_service
                  Notifications.service_send Notifications.class_name].
           match goal with
           | |- context [fst (Notifications.send ?i ?c ?n)] =>
               destruct (fst (Notifications.send i c n)) as [[|]|e]
           end; split; reflexivity.
      * split; [|split]; [split; auto|reflexivity|congruence].
    + split; [|split]; [split; auto|reflexivity|congruence].
  - split; [|split]; [split; auto|reflexivity|congruence].
Qed.

(** * Further properties of app.py: one check of an event *)

Section MonitorFacts.
Import Models Notifications Scraper Monitor.

Lemma simple_resale_check_tickets (page : Page) (event : option Event) :
  Forall (fun t => is_verified_resale t = true /\ price t = None /\ row t = None)
         (_simple_resale_check page event).
Proof.
  unfold _simple_resale_check.
  destruct (query_selector_all page li_role_button) as [items|e]; [|constructor].
  destruct (scan_items_from items event []) as (kept & found & -> & _ & Hall).
  cbn [app]. induction Hall as [|li t kept found Ht _ IH]; constructor; [|exact IH].
  apply scan_item_ticket in Ht. now subst t.
Qed.



Lemma listed_tickets (page : Page) (event_url : string) :
  Forall (fun t => is_verified_resale t = true /\ price t = None /\ row t = None)
         (listed page event_url).
Proof.
  unfold listed. destruct (goto page event_url); [|constructor].
  destruct (find_tickets_clicked page); [|constructor].
  apply simple_resale_check_tickets.
Qed.


End MonitorFacts.


(** * Further properties of app.py and cli.py: the configuration *)

Section ConfigFacts.
Import Models Config.

Lemma split_not_nil (sep : ascii) (s : string) : split sep s <> [].
Proof.
  destruct s as [|c s]; cbn [split]; [discriminate|].
  destruct (Ascii.eqb c sep); [discriminate|].
  destruct (split sep s); discriminate.
Qed.

Lemma split_length (sep : ascii) (s : string) :
  List.length (split sep s) = S (count sep s).
Proof.
  induction s as [|c s IH]; cbn [split count]; [reflexivity|].
  destruct (Ascii.eqb c sep); cbn [List.length]; [now rewrite IH|].
  pose proof (split_not_nil sep s) as Hne.
  destruct (split sep s) as [|part parts]; [now destruct Hne|exact IH].
Qed.

Lemma join_cons (sep part : string) (rest : list string) :
  rest <> [] -> join sep (part :: rest) = (part ++ sep ++ join sep rest)%string.
Proof. destruct rest; [now intros []|reflexivity]. Qed.

Lemma join_split (sep : ascii) (s : string) :
  join (String sep EmptyString) (split sep s) = s.
Proof.
  induction s as [|c s IH]; cbn [split]; [reflexivity|].
  pose proof (split_not_nil sep s) as Hne.
  destruct (Ascii.eqb_spec c sep) as [->|Hc].
  - rewrite join_cons by exact Hne. rewrite IH. reflexivity.
  - destruct (split sep s) as [|part parts]; [now destruct Hne|].
    destruct parts as [|part' parts].
    + cbn [join] in *. now rewrite IH.
    + rewrite join_cons in * by discriminate. rewrite <- IH. reflexivity.
Qed.

Lemma split_no_separator (sep : ascii) (s part : string) :
  In part (split sep s) -> Scraper.contains sep part = false.
Proof.
  revert part. induction s as [|c s IH]; cbn [split]; intros part.
  - intros [<-|[]]. reflexivity.
  - pose proof (split_not_nil sep s) as Hne.
    destruct (Ascii.eqb c sep) eqn:Hc.
    + intros [<-|Hin]; [reflexivity|now apply IH].
    + destruct (split sep s) as [|p ps]; [now destruct Hne|].
      intros [<-|Hin].
      * cbn [Scraper.contains]. rewrite Hc. apply IH. now left.
      * apply IH. now right.
Qed.

Lemma set_and_not_empty_some (value : option string) (v : string) :
  set_and_not_empty value = Some v -> value = Some v /\ v <> EmptyString.
Proof.
  destruct value as [[|c s]|]; cbn; try discriminate.
  intros [= <-]. split; [reflexivity|discriminate].
Qed.

Lemma set_and_not_empty_none (value : option string) :
  set_and_not_empty value = None <-> value = None \/ value = Some EmptyString.
Proof.
  destruct value as [[|c s]|]; cbn; split; auto; try discriminate.
  intros [H|H]; discriminate.
Qed.

(** *** Every statement of [load_config] and of the merge assigns one
    attribute *)

Lemma set_event_urls_same (c : AppConfig) : set_event_urls (event_urls c) c = c.
Proof. now destruct c. Qed.

Lemma set_check_interval_same (c : AppConfig) :
  set_check_interval (check_interval c) c = c.
Proof. now destruct c. Qed.

Lemma set_browser_timeout_same (c : AppConfig) :
  set_browser_timeout (browser_timeout c) c = c.
Proof. now destruct c. Qed.

Lemma set_max_retries_same (c : AppConfig) : set_max_retries (max_retries c) c = c.
Proof. now destruct c. Qed.

Lemma set_log_level_same (c : AppConfig) : set_log_level (log_level c) c = c.
Proof. now destruct c. Qed.

Lemma set_headless_same (c : AppConfig) : set_headless (headless (scraper c)) c = c.
Proof. destruct c as [? ? ? ? ? [] ?]. reflexivity. Qed.

Lemma set_topic_same (c : AppConfig) : set_topic (topic (notification c)) c = c.
Proof. destruct c as [? ? ? ? ? ? []]. reflexivity. Qed.

Lemma set_retry_attempts_same (c : AppConfig) :
  set_retry_attempts (retry_attempts (notification c)) c = c.
Proof. destruct c as [? ? ? ? ? ? []]. reflexivity. Qed.

Lemma set_retry_delay_same (c : AppConfig) :
  set_retry_delay (retry_delay (notification c)) c = c.
Proof. destruct c as [? ? ? ? ? ? []]. reflexivity. Qed.

Section Environment.

Variable getenv : string -> option string.
Variable int : string -> option Z.
Variable float : string -> option Q.

Lemma from_TICKETMASTER_URL_assigns (c : AppConfig) :
  exists v, from_TICKETMASTER_URL getenv c = set_event_urls v c.
Proof.
  unfold from_TICKETMASTER_URL.
  destruct (set_and_not_empty _); eexists; [reflexivity|].
  symmetry. apply set_event_urls_same.
Qed.

Lemma from_NTFY_TOPIC_assigns (c : AppConfig) :
  exists v, from_NTFY_TOPIC getenv c = set_topic v c.
Proof.
  unfold from_NTFY_TOPIC.
  destruct (set_and_not_empty _); eexists; [reflexivity|].
  symmetry. apply set_topic_same.
Qed.

Lemma from_HEADLESS_assigns (c : AppConfig) :
  exists v, from_HEADLESS getenv c = set_headless v c.
Proof.
  unfold from_HEADLESS.
  destruct (set_and_not_empty _); eexists; [reflexivity|].
  symmetry. apply set_headless_same.
Qed.

Lemma from_CHECK_INTERVAL_MIN_assigns (c : AppConfig) :
  exists v, from_CHECK_INTERVAL_MIN getenv float c = set_check_interval v c.
Proof.
  unfold from_CHECK_INTERVAL_MIN.
  destruct (set_and_not_empty _); [destruct (parse_interval _ _)|]; eexists;
    try reflexivity; symmetry; apply set_check_interval_same.
Qed.

Lemma from_BROWSER_TIMEOUT_assigns (c : AppConfig) :
  exists v, from_BROWSER_TIMEOUT getenv int c = set_browser_timeout v c.
Proof.
  unfold from_BROWSER_TIMEOUT.
  destruct (set_and_not_empty _); [destruct (int _)|]; eexists;
    try reflexivity; symmetry; apply set_browser_timeout_same.
Qed.

Lemma from_MAX_RETRIES_assigns (c : AppConfig) :
  exists v, from_MAX_RETRIES getenv int c = set_max_retries v c.
Proof.
  unfold from_MAX_RETRIES.
  destruct (set_and_not_empty _); [destruct (int _)|]; eexists;
    try reflexivity; symmetry; apply set_max_retries_same.
Qed.

Lemma from_LOG_LEVEL_assigns (c : AppConfig) :
  exists v, from_LOG_LEVEL getenv c = set_log_level v c.
Proof.
  unfold from_LOG_LEVEL.
  destruct (set_and_not_empty _); [destruct (existsb _ _)|]; eexists;
    try reflexivity; symmetry; apply set_log_level_same.
Qed.

End Environment.

Section CommandLine.

Variable args : Namespace.
Variable cli_config : AppConfig.

Lemma merge_event_url_assigns (c : AppConfig) :
  exists v, merge_event_url args cli_config c = set_event_urls v c.
Proof.
  unfold merge_event_url.
  destruct (given_urls _); eexists; [reflexivity|].
  symmetry. apply set_event_urls_same.
Qed.

Lemma merge_ntfy_topic_assigns (c : AppConfig) :
  exists v, merge_ntfy_topic args cli_config c = set_topic v c.
Proof.
  unfold merge_ntfy_topic.
  destruct (set_and_not_empty _); eexists; [reflexivity|].
  symmetry. apply set_topic_same.
Qed.

Lemma merge_headless_assigns (headless_flag : bool) (c : AppConfig) :
  exists v, merge_headless headless_flag cli_config c = set_headless v c.
Proof.
  unfold merge_headless.
  destruct headless_flag; eexists; [reflexivity|].
  symmetry. apply set_headless_same.
Qed.

Lemma merge_browser_timeout_assigns (c : AppConfig) :
  exists v, merge_browser_timeout args cli_config c = set_browser_timeout v c.
Proof.
  unfold merge_browser_timeout.
  destruct (_ =? _); eexists; [|reflexivity].
  symmetry. apply set_browser_timeout_same.
Qed.

Lemma merge_max_retries_assigns (c : AppConfig) :
  exists v w,
    merge_max_retries args cli_config c =
    set_retry_attempts w (set_max_retries v c).
Proof.
  unfold merge_max_retries.
  destruct (_ =? _); [|now eexists; eexists].
  exists (max_retries c), (retry_attempts (notification c)).
  rewrite set_max_retries_same. symmetry. apply set_retry_attempts_same.
Qed.

Lemma merge_retry_delay_assigns (c : AppConfig) :
  exists v, merge_retry_delay args cli_config c = set_retry_delay v c.
Proof.
  unfold merge_retry_delay.
  destruct (_ =? _); eexists; [|reflexivity].
  symmetry. apply set_retry_delay_same.
Qed.

Lemma merge_log_level_assigns (c : AppConfig) :
  exists v, merge_log_level args cli_config c = set_log_level v c.
Proof.
  unfold merge_log_level.
  destruct (arg_log_level args); eexists; [|reflexivity].
  symmetry. apply set_log_level_same.
Qed.

End CommandLine.

Lemma cli_config_values (args : Namespace) :
  max_retries (create_config_from_args args) = arg_max_retries args /\
  retry_delay (notification (create_config_from_args args)) = arg_retry_delay args /\
  log_level (create_config_from_args args) = arg_log_level args /\
  (forall t, set_and_not_empty (arg_ntfy_topic args) = Some t ->
             topic (notification (create_config_from_args args)) = Some t).
Proof.
  unfold create_config_from_args. cbv zeta.
  destruct (given_urls (arg_event_url args));
    destruct (set_and_not_empty (arg_ntfy_topic args));
    repeat split; try reflexivity; try discriminate; now intros t [= <-].
Qed.

End ConfigFacts.

(** Replace every statement that is left by the assignment it amounts
    to, and read the attributes off. *)
Ltac assignments :=
  repeat match goal with
    | |- context [Config.from_TICKETMASTER_URL ?g ?c] =>
        destruct (from_TICKETMASTER_URL_assigns g c) as [? ->]
    | |- context [Config.from_NTFY_TOPIC ?g ?c] =>
        destruct (from_NTFY_TOPIC_assigns g c) as [? ->]
    | |- context [Config.from_HEADLESS ?g ?c] =>
        destruct (from_HEADLESS_assigns g c) as [? ->]
    | |- context [Config.from_CHECK_INTERVAL_MIN ?g ?f ?c] =>
        destruct (from_CHECK_INTERVAL_MIN_assigns g f c) as [? ->]
    | |- context [Config.from_BROWSER_TIMEOUT ?g ?i ?c] =>
        destruct (from_BROWSER_TIMEOUT_assigns g i c) as [? ->]
    | |- context [Config.from_MAX_RETRIES ?g ?i ?c] =>
        destruct (from_MAX_RETRIES_assigns g i c) as [? ->]
    | |- context [Config.from_LOG_LEVEL ?g ?c] =>
        destruct (from_LOG_LEVEL_assigns g c) as [? ->]
    | |- context [Config.merge_event_url ?a ?k ?c] =>
        destruct (merge_event_url_assigns a k c) as [? ->]
    | |- context [Config.merge_ntfy_topic ?a ?k ?c] =>
        destruct (merge_ntfy_topic_assigns a k c) as [? ->]
    | |- context [Config.merge_headless ?h ?k ?c] =>
        destruct (merge_headless_assigns k h c) as [? ->]
    | |- context [Config.merge_browser_timeout ?a ?k ?c] =>
        destruct (merge_browser_timeout_assigns a k c) as [? ->]
    | |- context [Config.merge_max_retries ?a ?k ?c] =>
        destruct (merge_max_retries_assigns a k c) as (? & ? & ->)
    | |- context [Config.merge_retry_delay ?a ?k ?c] =>
        destruct (merge_retry_delay_assigns a k c) as [? ->]
    | |- context [Config.merge_log_level ?a ?k ?c] =>
        destruct (merge_log_level_assigns a k c) as [? ->]
    end;
  cbn [Config.event_urls Config.check_interval Config.browser_timeout
       Config.max_retries Config.log_level Config.scraper Config.notification
       Config.headless Config.timeout Config.user_agent Config.viewport
       Config.timezone
       Models.enabled Models.service Models.topic Models.retry_attempts
       Models.retry_delay
       Config.set_event_urls Config.set_check_interval Config.set_browser_timeout
       Config.set_max_retries Config.set_log_level Config.set_headless
       Config.set_notification Config.set_topic Config.set_enabled
       Config.set_retry_attempts Config.set_retry_delay
       Config.create_default_config Config.default_ScraperConfig].

(** X16.  [load_config] takes the event URLs from [TICKETMASTER_URL]
    when it is set and not empty: the value is cut at every comma, so
    that a value with [n] commas gives [n + 1] URLs, empty pieces
    included, and never an empty list; the pieces joined by commas give
    the value back, and no piece contains a comma.  For an ASCII value the
    URLs are the pieces, each stripped of leading and trailing white
    space.  Without the variable the list is empty. *)
Theorem load_config_splits_the_urls_at_commas
        (getenv : string -> option string)
        (int : string -> option Z) (float : string -> option Q) :
  let config := Config.load_config getenv int float in
  (forall value, getenv "TICKETMASTER_URL" = Some value -> value <> EmptyString ->
     List.length (Config.event_urls config) = S (Config.count "," value) /\
     Config.join "," (Config.split "," value) = value /\
     (forall part, In part (Config.split "," value) ->
                   Scraper.contains "," part = false) /\
     (ScraperFacts.is_ascii value = true ->
      Config.event_urls config =
        map Scraper.strip (Config.split "," value))) /\
  (getenv "TICKETMASTER_URL" = None \/
   getenv "TICKETMASTER_URL" = Some EmptyString ->
   Config.event_urls config = []).
Proof.
  intros config. subst config. unfold Config.load_config. cbv zeta. split.
  - intros value Hv Hne.
    assert (Hurls : Config.from_TICKETMASTER_URL getenv Config.create_default_config
                    = Config.set_event_urls
                        (map Scraper.strip (Config.split "," value))
                        Config.create_default_config).
    { unfold Config.from_TICKETMASTER_URL. rewrite Hv.
      destruct value as [|c s]; [now destruct Hne|]. reflexivity. }
    rewrite Hurls. assignments.
    split; [|split; [|split]].
    + rewrite length_map. apply split_length.
    + apply join_split.
    + intros part. apply split_no_separator.
    + reflexivity.
  - intros Hv. apply set_and_not_empty_none in Hv.
    unfold Config.from_TICKETMASTER_URL at 1. rewrite Hv.
    assignments. reflexivity.
Qed.

(** X17.  Whatever the environment, the configuration of [load_config]
    has notifications enabled, the ntfy service, a topic that is not
    empty, 3 retry attempts with a delay of 5 and a log level among the
    five known ones: [MAX_RETRIES] changes [max_retries] only, never the
    retry attempts of the notifications; an ASCII [LOG_LEVEL] is taken in
    upper case when it is one of the five and left at "INFO" otherwise; and a
    [BROWSER_TIMEOUT] or [MAX_RETRIES] that is not an integer leaves the
    default.  With no variable set the configuration is the default
    one. *)
Theorem load_config_keeps_the_notification_settings
        (getenv : string -> option string)
        (int : string -> option Z) (float : string -> option Q) :
  let config := Config.load_config getenv int float in
  let notification := Config.notification config in
  Models.enabled notification = true /\
  Models.service notification = "ntfy" /\
  Models.retry_attempts notification = 3 /\
  Models.retry_delay notification = 5 /\
  (exists t, Models.topic notification = Some t /\ t <> EmptyString) /\
  In (Config.log_level config) Config.log_levels /\
  (forall value, getenv "LOG_LEVEL" = Some value ->
     ScraperFacts.is_ascii value = true ->
     Config.log_level config =
       if existsb (String.eqb (Ntfy.upper value)) Config.log_levels
       then Ntfy.upper value else "INFO") /\
  (forall value, getenv "BROWSER_TIMEOUT" = Some value -> int value = None ->
     Config.browser_timeout config = 360) /\
  (forall value, getenv "MAX_RETRIES" = Some value -> int value = None ->
     Config.max_retries config = 3) /\
  ((forall name, getenv name = None \/ getenv name = Some EmptyString) ->
   config = Config.create_default_config).
Proof.
  intros config notification. subst notification config.
  unfold Config.load_config. cbv zeta.
  split; [assignments; reflexivity|].
  split; [assignments; reflexivity|].
  split; [assignments; reflexivity|].
  split; [assignments; reflexivity|].
  split; [|split; [|split; [|split; [|split]]]].
  - unfold Config.from_NTFY_TOPIC.
    destruct (Config.set_and_not_empty (getenv "NTFY_TOPIC")) as [t|] eqn:Ht.
    + apply set_and_not_empty_some in Ht as [_ Hne].
      exists t. split; [assignments; reflexivity|exact Hne].
    + exists "ticketmaster_resale_notify".
      split; [assignments; reflexivity|discriminate].
  - unfold Config.from_LOG_LEVEL.
    destruct (Config.set_and_not_empty (getenv "LOG_LEVEL")) as [v|] eqn:Hv.
    + cbv zeta.
      destruct (existsb (String.eqb (Ntfy.upper v)) Config.log_levels) eqn:Hin.
      * apply existsb_exists in Hin as (l & Hl & Heq).
        apply String.eqb_eq in Heq. rewrite Heq.
        assignments. exact Hl.
      * assignments. cbn. auto.
    + assignments. cbn. auto.
  - intros value Hv _. unfold Config.from_LOG_LEVEL. rewrite Hv.
    destruct value as [|c s]; cbn [Config.set_and_not_empty].
    + assignments. reflexivity.
    + cbv zeta.
      destruct (existsb (String.eqb (Ntfy.upper (String c s))) Config.log_levels);
        assignments; reflexivity.
  - intros value Hv Hint. unfold Config.from_BROWSER_TIMEOUT. rewrite Hv.
    destruct value as [|c s]; cbn [Config.set_and_not_empty];
      [|rewrite Hint]; assignments; reflexivity.
  - intros value Hv Hint. unfold Config.from_MAX_RETRIES. rewrite Hv.
    destruct value as [|c s]; cbn [Config.set_and_not_empty];
      [|rewrite Hint]; assignments; reflexivity.
  - intros Hnone.
    assert (H : forall name, Config.set_and_not_empty (getenv name) = None)
      by (intros name; apply set_and_not_empty_none, Hnone).
    unfold Config.from_TICKETMASTER_URL, Config.from_NTFY_TOPIC,
      Config.from_HEADLESS, Config.from_CHECK_INTERVAL_MIN,
      Config.from_BROWSER_TIMEOUT, Config.from_MAX_RETRIES, Config.from_LOG_LEVEL.
    now rewrite !H.
Qed.

(** X18.  In the configuration that [async_main] runs with, the check
    interval, the notification switch and service and the scraper timeout
    are those of the environment configuration: [--min-interval] and
    [--max-interval] have no effect.  [--max-retries] sets both
    [max_retries] and the retry attempts of the notifications, unless it is
    0, which is ignored; likewise 0 for [--retry-delay] and
    [--browser-timeout] leaves the environment's value.  The log level is
    the one of the command line whenever that is not empty. *)
Theorem async_main_merges_by_truthiness
        (config : Config.AppConfig) (args : Config.Namespace)
        (headless_flag : bool) :
  let merged := Config.merged_config config args headless_flag in
  Config.check_interval merged = Config.check_interval config /\
  Models.enabled (Config.notification merged) =
    Models.enabled (Config.notification config) /\
  Models.service (Config.notification merged) =
    Models.service (Config.notification config) /\
  Config.timeout (Config.scraper merged) = Config.timeout (Config.scraper config) /\
  (Config.arg_max_retries args = 0 ->
   Config.max_retries merged = Config.max_retries config /\
   Models.retry_attempts (Config.notification merged) =
     Models.retry_attempts (Config.notification config)) /\
  (Config.arg_max_retries args <> 0 ->
   Config.max_retries merged = Config.arg_max_retries args /\
   Models.retry_attempts (Config.notification merged) =
     Config.arg_max_retries args) /\
  (Config.arg_retry_delay args = 0 ->
   Models.retry_delay (Config.notification merged) =
     Models.retry_delay (Config.notification config)) /\
  (Config.arg_retry_delay args <> 0 ->
   Models.retry_delay (Config.notification merged) = Config.arg_retry_delay args) /\
  (Config.arg_browser_timeout args = 0 ->
   Config.browser_timeout merged = Config.browser_timeout config) /\
  (Config.arg_log_level args <> EmptyString ->
   Config.log_level merged = Config.arg_log_level args) /\
  (headless_flag = false ->
   Config.headless (Config.scraper merged) =
     Config.headless (Config.scraper config)).
Proof.
  intros merged. subst merged. unfold Config.merged_config. cbv zeta.
  destruct (cli_config_values args) as (Hretries & Hdelay & Hlevel & _).
  split; [assignments; reflexivity|].
  split; [assignments; reflexivity|].
  split; [assignments; reflexivity|].
  split; [assignments; reflexivity|].
  split.
  { intros H. unfold Config.merge_max_retries. rewrite H. cbn [Z.eqb].
    split; assignments; reflexivity. }
  split.
  { intros H. unfold Config.merge_max_retries.
    apply Z.eqb_neq in H. rewrite H, Hretries.
    split; assignments; reflexivity. }
  split.
  { intros H. unfold Config.merge_retry_delay. rewrite H. cbn [Z.eqb].
    assignments. reflexivity. }
  split.
  { intros H. unfold Config.merge_retry_delay.
    apply Z.eqb_neq in H. rewrite H, Hdelay. assignments. reflexivity. }
  split.
  { intros H. unfold Config.merge_browser_timeout. rewrite H. cbn [Z.eqb].
    assignments. reflexivity. }
  split.
  { intros H. unfold Config.merge_log_level. rewrite Hlevel.
    destruct (Config.arg_log_level args) as [|c s]; [now destruct H|].
    assignments. reflexivity. }
  intros ->. unfold Config.merge_headless. assignments. reflexivity.
Qed.

(** X19.  However the environment and the command line are set, the
    monitor started by [async_main] has exactly one notification service,
    the ntfy service, on a topic that is not empty: the topic of the
    command line when one is given, else that of [NTFY_TOPIC], else the
    default one.  Notifications cannot be switched off from either. *)
Theorem async_main_always_has_the_ntfy_service
        (getenv : string -> option string)
        (int : string -> option Z) (float : string -> option Q)
        (args : Config.Namespace) (headless_flag : bool)
        (post : nat -> Ntfy.Request -> outcome Ntfy.Response) :
  let config := Config.merged_config (Config.load_config getenv int float)
                                     args headless_flag in
  let topic :=
    match Config.set_and_not_empty (Config.arg_ntfy_topic args) with
    | Some t => t
    | None =>
        match Config.set_and_not_empty (getenv "NTFY_TOPIC") with
        | Some t => t
        | None => "ticketmaster_resale_notify"
        end
    end in
  topic <> EmptyString /\
  Models.topic (Config.notification config) = Some topic /\
  Ntfy._setup_services post (Config.notification config) =
    [Notifications.retrying_service "NtfyNotificationService"
       (Ntfy._send_impl post topic) (Config.notification config)].
Proof.
  intros config topic.
  assert (Hne : topic <> EmptyString).
  { subst topic.
    destruct (Config.set_and_not_empty (Config.arg_ntfy_topic args)) as [t|] eqn:Ha;
      [now apply set_and_not_empty_some in Ha|].
    destruct (Config.set_and_not_empty (getenv "NTFY_TOPIC")) as [t|] eqn:He;
      [now apply set_and_not_empty_some in He|discriminate]. }
  assert (Htopic : Models.topic (Config.notification config) = Some topic).
  { subst config topic.
    destruct (cli_config_values args) as (_ & _ & _ & Hcli).
    unfold Config.merged_config, Config.load_config. cbv zeta.
    unfold Config.merge_ntfy_topic.
    destruct (Config.set_and_not_empty (Config.arg_ntfy_topic args)) as [t|].
    - rewrite (Hcli t eq_refl). assignments. reflexivity.
    - unfold Config.from_NTFY_TOPIC.
      destruct (Config.set_and_not_empty (getenv "NTFY_TOPIC")) as [t|];
        assignments; reflexivity. }
  assert (Hon : Models.enabled (Config.notification config) = true /\
                Models.service (Config.notification config) = "ntfy").
  { subst config. unfold Config.merged_config, Config.load_config. cbv zeta.
    split; assignments; reflexivity. }
  destruct Hon as [Hen Hsv].
  split; [exact Hne|]. split; [exact Htopic|].
  unfold Ntfy._setup_services. rewrite Htopic, Hen, Hsv.
  destruct topic as [|c t]; [now destruct Hne|]. reflexivity.
Qed.

(** * Further properties of app.py: the monitoring loop *)

Local Open Scope Q_scope.

Lemma floor_at_least_one (x : Q) : 1 <= x -> (1 <= Qfloor x)%Z.
Proof.
  intros Hx. change 1%Z with (Qfloor 1). now apply Qfloor_resp_le.
Qed.

Lemma is_set_false_cases (shutdown_at : option Q) (now : Q) :
  App.is_set shutdown_at now = false ->
  forall instant, shutdown_at = Some instant -> now < instant.
Proof. intros H instant ->. now apply is_set_false_iff. Qed.

(** A wait of ten seconds or more, begun while the event is not set,
    sleeps at least one chunk. *)
Lemma wait_at_least_a_chunk (shutdown_at : option Q) (wait_minutes now : Q) :
  App.is_set shutdown_at now = false ->
  10 <= wait_minutes * 60 ->
  now + 10 <= App.clock (App._wait_until_next_check shutdown_at wait_minutes now).
Proof.
  intros Hset Hwait.
  destruct (wait_until_next_check_spec shutdown_at wait_minutes now)
    as (k & last & Hk & _ & _ & Hend). cbv zeta in Hend.
  assert (Hchunks : (1 <= Z.to_nat (Qfloor (wait_minutes * 60 / 10)))%nat).
  { assert (1 <= Qfloor (wait_minutes * 60 / 10))%Z; [|lia].
    apply floor_at_least_one.
    assert (Hdiv : wait_minutes * 60 == 10 * (wait_minutes * 60 / 10))
      by (field; discriminate).
    lra. }
  destruct Hend as [(_ & Hclock & [(instant & Hs & Hle)|(Hkc & _)])
                   |(_ & Hrem & Hkc & _ & Hclock & _)].
  - destruct k as [|k].
    + pose proof (is_set_false_cases _ _ Hset instant Hs) as Hlt.
      rewrite Hclock in Hle. cbn [Z.of_nat] in Hle. unfold inject_Z in Hle. lra.
    + rewrite Hclock. pose proof (inject_nat_pos (S k) ltac:(lia)). lra.
  - rewrite Hclock. pose proof (inject_nat_pos k ltac:(lia)). lra.
  - rewrite Hclock. pose proof (inject_nat_pos k ltac:(lia)). lra.
Qed.

Section LoopFacts.
Import App Loop.

Variable shutdown_at : option Q.
Variable event_urls : list string.
Variable check_duration : nat -> string -> Q.
Variable wait_minutes : nat -> Q.

Lemma check_all_safe (urls : list string) :
  incl urls event_urls ->
  forall m, (1 <= check_count m)%nat -> safe shutdown_at event_urls m ->
    safe shutdown_at event_urls (check_all shutdown_at check_duration urls m) /\
    check_count (check_all shutdown_at check_duration urls m) = check_count m.
Proof.
  induction urls as [|u urls IH]; intros Hincl m Hcount Hsafe; cbn [check_all].
  - now split.
  - destruct (is_set shutdown_at (now m)) eqn:Hset; [now split|].
    match goal with
    | |- safe _ _ (check_all _ _ _ ?m1) /\ _ =>
        destruct (IH (fun x Hx => Hincl x (or_intror Hx)) m1) as [H1 H2]
    end.
    + exact Hcount.
    + intros c u' t. cbn [checked check_count].
      intros [Hin|[[= <- <- <-]|[]]]%in_app_or.
      * now apply Hsafe.
      * split; [exact Hset|]. split; [apply Hincl; now left|lia].
    + split; [exact H1|exact H2].
Qed.

Lemma cycle_safe (m : monitor) :
  safe shutdown_at event_urls m ->
  safe shutdown_at event_urls
       (cycle shutdown_at event_urls check_duration wait_minutes m).
Proof.
  intros Hsafe. unfold cycle.
  set (m1 := {| check_count := S (check_count m); now := now m;
                checked := checked m |}).
  assert (Hsafe1 : safe shutdown_at event_urls m1).
  { intros c u t Hin. destruct (Hsafe c u t Hin) as (H1 & H2 & H3).
    cbn [check_count m1]. repeat split; auto; lia. }
  assert (Hcount1 : (1 <= check_count m1)%nat) by (cbn; lia).
  destruct (check_all_safe event_urls (incl_refl _) m1 Hcount1 Hsafe1)
    as [Hsafe2 Hcount].
  destruct (negb (is_set shutdown_at
                    (now (check_all shutdown_at check_duration event_urls m1)))
            && _);
    [|exact Hsafe2].
  intros c u t Hin. exact (Hsafe2 c u t Hin).
Qed.

Lemma run_loop_safe (fuel : nat) :
  forall m m',
    safe shutdown_at event_urls m ->
    run_loop shutdown_at event_urls check_duration wait_minutes fuel m = Some m' ->
    safe shutdown_at event_urls m' /\ is_set shutdown_at (now m') = true.
Proof.
  induction fuel as [|fuel IH]; intros m m' Hsafe; cbn [run_loop];
    destruct (is_set shutdown_at (now m)) eqn:Hset; try discriminate.
  - intros [= <-]. now split.
  - intros [= <-]. now split.
  - apply IH. now apply cycle_safe.
Qed.

(** The result does not depend on the fuel. *)
Lemma run_loop_unique (fuel : nat) :
  forall fuel' m a b,
    run_loop shutdown_at event_urls check_duration wait_minutes fuel m = Some a ->
    run_loop shutdown_at event_urls check_duration wait_minutes fuel' m = Some b ->
    a = b.
Proof.
  induction fuel as [|fuel IH]; intros [|fuel'] m a b; cbn [run_loop];
    destruct (is_set shutdown_at (now m)); try discriminate; try congruence.
  apply IH.
Qed.

Lemma run_loop_set (fuel : nat) (m : monitor) :
  is_set shutdown_at (now m) = true ->
  run_loop shutdown_at event_urls check_duration wait_minutes fuel m = Some m.
Proof. intros H. destruct fuel; cbn [run_loop]; now rewrite H. Qed.

Hypothesis durations : forall k u, 0 <= check_duration k u.
Hypothesis waits : forall k, 10 <= wait_minutes k * 60.

Lemma check_all_later (urls : list string) :
  forall m, now m <= now (check_all shutdown_at check_duration urls m).
Proof.
  induction urls as [|u urls IH]; intros m; cbn [check_all]; [lra|].
  destruct (is_set shutdown_at (now m)); [lra|].
  eapply Qle_trans; [|apply IH]. cbn [now].
  pose proof (durations (check_count m) u). lra.
Qed.

(** A cycle begun before the shutdown ends after it, or takes ten seconds
    at least. *)
Lemma cycle_progress (m : monitor) :
  event_urls <> [] ->
  is_set shutdown_at
    (now (cycle shutdown_at event_urls check_duration wait_minutes m)) = true \/
  now m + 10 <= now (cycle shutdown_at event_urls check_duration wait_minutes m).
Proof.
  intros Hurls. unfold cycle.
  set (m1 := {| check_count := S (check_count m); now := now m;
                checked := checked m |}).
  pose proof (check_all_later event_urls m1) as Hlater. cbn [now m1] in Hlater.
  set (m2 := check_all shutdown_at check_duration event_urls m1) in *.
  destruct (is_set shutdown_at (now m2)) eqn:Hset; cbn [negb andb].
  - left. exact Hset.
  - destruct event_urls as [|u us]; [now destruct Hurls|].
    right. cbn [now].
    pose proof (wait_at_least_a_chunk shutdown_at
                  (wait_minutes (check_count m2)) (now m2) Hset (waits _)).
    lra.
Qed.

Lemma run_loop_terminates (instant : Q) (fuel : nat) :
  shutdown_at = Some instant ->
  event_urls <> [] ->
  forall m,
    instant - now m <= 10 * inject_Z (Z.of_nat fuel) ->
    exists m',
      run_loop shutdown_at event_urls check_duration wait_minutes fuel m = Some m'.
Proof.
  intros Hs Hurls. induction fuel as [|fuel IH]; intros m Hm.
  - exists m. apply run_loop_set. rewrite Hs. apply is_set_true_iff.
    cbn [Z.of_nat] in Hm. unfold inject_Z in Hm. lra.
  - cbn [run_loop]. destruct (is_set shutdown_at (now m)) eqn:Hset;
      [now exists m|].
    destruct (cycle_progress m Hurls) as [Hdone|Hlater].
    + exists (cycle shutdown_at event_urls check_duration wait_minutes m).
      now apply run_loop_set.
    + apply IH. rewrite inject_nat_succ in Hm. lra.
Qed.

End LoopFacts.

(** X21.  [run] begins no check once the shutdown event is set, and
    returns when it is: if the event is set at some instant, every check
    takes some time that is not negative and every wait drawn is of ten
    seconds at least, then the loop ends after finitely many cycles, with
    the same result however many more it is allowed; every check it began
    was begun strictly before the shutdown, on a URL of the configuration
    and in a counted cycle; and, with at least one URL, it returns only
    once the event is set.  Without URLs it returns at once and checks
    nothing. *)
Theorem run_stops_on_shutdown
        (instant start : Q) (event_urls : list string)
        (check_duration : nat -> string -> Q) (wait_minutes : nat -> Q) :
  (forall k u, 0 <= check_duration k u) ->
  (forall k, 10 <= wait_minutes k * 60) ->
  exists fuel m,
    Loop.run (Some instant) event_urls check_duration wait_minutes fuel start
      = Some m /\
    (forall fuel' m',
       Loop.run (Some instant) event_urls check_duration wait_minutes fuel' start
         = Some m' -> m' = m) /\
    (forall c u t, In (c, u, t) (Loop.checked m) ->
       t < instant /\ In u event_urls /\ (1 <= c <= Loop.check_count m)%nat) /\
    (event_urls = [] -> m = Loop.started start) /\
    (event_urls <> [] -> instant <= Loop.now m).
Proof.
  intros Hdur Hwait. unfold Loop.run.
  destruct event_urls as [|u us] eqn:Hurls.
  - exists 0%nat, (Loop.started start). split; [reflexivity|].
    split; [now intros fuel' m' [= <-]|].
    split; [intros c u t []|]. split; [reflexivity|congruence].
  - rewrite <- Hurls.
    set (fuel := Z.to_nat (Qceiling ((instant - start) / 10))).
    assert (Hfuel : instant - Loop.now (Loop.started start)
                    <= 10 * inject_Z (Z.of_nat fuel)).
    { cbn [Loop.now Loop.started]. subst fuel.
      pose proof (Qle_ceiling ((instant - start) / 10)) as Hceil.
      assert (Hdiv : instant - start == 10 * ((instant - start) / 10))
        by (field; discriminate).
      assert (Hmax : inject_Z (Qceiling ((instant - start) / 10)) <=
                     inject_Z (Z.of_nat (Z.to_nat (Qceiling ((instant - start) / 10))))).
      { rewrite <- Zle_Qle. lia. }
      lra. }
    destruct (run_loop_terminates (Some instant) event_urls check_duration
                wait_minutes Hdur Hwait instant fuel eq_refl
                ltac:(rewrite Hurls; discriminate) (Loop.started start) Hfuel)
      as [m Hm].
    exists fuel, m. split; [exact Hm|].
    split; [intros fuel' m' Hm';
            exact (run_loop_unique _ _ _ _ _ _ _ _ _ Hm' Hm)|].
    assert (Hsafe0 : Loop.safe (Some instant) event_urls (Loop.started start))
      by (intros c x t []).
    destruct (run_loop_safe (Some instant) event_urls check_duration wait_minutes
                fuel _ _ Hsafe0 Hm) as [Hsafe Hset].
    split; [|split].
    + intros c x t Hin. destruct (Hsafe c x t Hin) as (H1 & H2 & H3).
      split; [now apply is_set_false_iff in H1|]. now split.
    + rewrite Hurls. discriminate.
    + intros _. now apply is_set_true_iff in Hset.
Qed.

Lemma run_stops_on_shutdown_witness :
  exists fuel m,
    Loop.run (Some 100) ["https://example.com/event/1"]
             (fun _ _ => 30) (fun _ => 1) fuel 0 = Some m /\
    (forall fuel' m',
       Loop.run (Some 100) ["https://example.com/event/1"]
                (fun _ _ => 30) (fun _ => 1) fuel' 0 = Some m' -> m' = m) /\
    (forall c u t, In (c, u, t) (Loop.checked m) ->
       t < 100 /\ In u ["https://example.com/event/1"] /\
       (1 <= c <= Loop.check_count m)%nat) /\
    (["https://example.com/event/1"] = [] -> m = Loop.started 0) /\
    (["https://example.com/event/1"] <> [] -> 100 <= Loop.now m).
Proof.
  apply (run_stops_on_shutdown 100 0 ["https://example.com/event/1"]
           (fun _ _ => 30) (fun _ => 1)).
  - intros _ _. discriminate.
  - intros _. discriminate.
Defined.

Local Close Scope Q_scope.

(** * Further properties of browser.py: sessions on any driver *)

(** X22.  Whatever call of [setup] raises, the session releases nothing:
    [__aexit__] is not called, and everything acquired before the failing
    call, in the order engine, browser, context, page, stays
    unreleased. *)
Theorem setup_failure_releases_nothing
        (pw : Browser.Playwright) (block : outcome unit) (e : exn) :
  fst (Browser.__aenter__ pw []) = Raises e ->
  let log := Browser.check_event pw block in
  let resources := [Browser.Engine; Browser.BrowserProcess; Browser.Context;
                    Browser.Tab] in
  (forall r, ~ In (Browser.Released r) log) /\
  fst (Browser.async_with pw block) = Raises e /\
  exists k, (k <= 4)%nat /\
            log = map Browser.Acquired (firstn k resources) /\
            Browser.unreleased log = firstn k resources.
Proof.
  unfold Browser.check_event, Browser.async_with, Browser.__aenter__,
    Browser.setup, Browser.awaiting, Browser.acquire, Browser.done.
  cbn [fst snd Browser.new_manager app].
  destruct (Browser.start pw) as [[]|e1]; cbn [fst snd app].
  2:{ intros [= <-]. split; [intros r []|]. split; [reflexivity|].
      exists 0%nat. repeat split. lia. }
  destruct (Browser.launch pw) as [[]|e2]; cbn [fst snd app].
  2:{ intros [= <-]. split; [intros r [H|[]]; discriminate|].
      split; [reflexivity|]. exists 1%nat. repeat split. lia. }
  destruct (Browser.new_context pw) as [[]|e3]; cbn [fst snd app].
  2:{ intros [= <-]. split; [intros r [H|[H|[]]]; discriminate|].
      split; [reflexivity|]. exists 2%nat. repeat split. lia. }
  destruct (Browser.add_init_script pw) as [[]|e4]; cbn [fst snd app].
  2:{ intros [= <-]. split; [intros r [H|[H|[H|[]]]]; discriminate|].
      split; [reflexivity|]. exists 3%nat. repeat split. lia. }
  destruct (Browser.new_page pw) as [[]|e5]; cbn [fst snd app].
  2:{ intros [= <-]. split; [intros r [H|[H|[H|[]]]]; discriminate|].
      split; [reflexivity|]. exists 3%nat. repeat split. lia. }
  destruct (Browser.set_default_timeout pw) as [[]|e6]; cbn [fst snd app].
  2:{ intros [= <-]. split; [intros r [H|[H|[H|[H|[]]]]]; discriminate|].
      split; [reflexivity|]. exists 4%nat. repeat split. lia. }
  discriminate.
Qed.

Lemma setup_failure_releases_nothing_witness :
  fst (Browser.async_with Browser.context_fails (Returns tt)) =
  Raises (Exception "Target closed").
Proof.
  refine (proj1 (proj2 (setup_failure_releases_nothing Browser.context_fails
                          (Returns tt) (Exception "Target closed") _))).
  reflexivity.
Defined.

(** X23.  Once [setup] has succeeded, [cleanup] closes the page (unless
    it is already closed), the context, the browser and the engine in this
    order and stops at the first close that raises: the resources released
    are exactly those before it, whose closes all returned, what comes
    after it is never released, and the exception of that close replaces
    whatever the block returned or raised.  When no close raises everything
    is released and the outcome of the block is kept. *)
Theorem cleanup_stops_at_the_first_failing_close
        (pw : Browser.Playwright) (block : outcome unit) :
  fst (Browser.__aenter__ pw []) = Returns tt ->
  let log := Browser.check_event pw block in
  let closing := Sessions.closing pw in
  exists k,
    (k <= List.length closing)%nat /\
    log = map Browser.Acquired
              [Browser.Engine; Browser.BrowserProcess; Browser.Context; Browser.Tab]
          ++ map Browser.Released (firstn k closing) /\
    (forall r, In r (firstn k closing) -> Sessions.close_call pw r = Returns tt) /\
    (k = List.length closing -> fst (Browser.async_with pw block) = block) /\
    ((k < List.length closing)%nat ->
     exists r e,
       nth_error closing k = Some r /\
       Sessions.close_call pw r = Raises e /\
       fst (Browser.async_with pw block) = Raises e).
Proof.
  unfold Browser.check_event, Browser.async_with, Browser.__aenter__,
    Browser.__aexit__, Browser.setup, Browser.cleanup, Browser.when,
    Browser.awaiting, Browser.acquire, Browser.release, Browser.done,
    Sessions.closing.
  cbn [fst snd Browser.new_manager app].
  destruct (Browser.start pw) as [[]|e1]; cbn [fst snd app]; [|discriminate].
  destruct (Browser.launch pw) as [[]|e2]; cbn [fst snd app]; [|discriminate].
  destruct (Browser.new_context pw) as [[]|e3]; cbn [fst snd app]; [|discriminate].
  destruct (Browser.add_init_script pw) as [[]|e4]; cbn [fst snd app];
    [|discriminate].
  destruct (Browser.new_page pw) as [[]|e5]; cbn [fst snd app]; [|discriminate].
  destruct (Browser.set_default_timeout pw) as [[]|e6]; cbn [fst snd app];
    [|discriminate].
  intros _.
  cbn [Browser.page Browser.context Browser.browser Browser.playwright
       fst snd andb].
  assert (Hin : forall (l : list Browser.resource),
             Forall (fun r => Sessions.close_call pw r = Returns tt) l ->
             forall r, In r l -> Sessions.close_call pw r = Returns tt)
    by (intros l Hl; now apply Forall_forall).
  destruct (Browser.is_closed pw); cbn [negb fst snd app List.length].
  - destruct (Browser.context_close pw) as [[]|c1] eqn:H1; cbn [fst snd app].
    2:{ exists 0%nat. split; [lia|]. split; [reflexivity|].
        split; [apply Hin; constructor|]. split; [discriminate|].
        intros _. exists Browser.Context, c1. now repeat split. }
    destruct (Browser.browser_close pw) as [[]|c2] eqn:H2; cbn [fst snd app].
    2:{ exists 1%nat. split; [lia|]. split; [reflexivity|].
        split; [apply Hin; repeat constructor; exact H1|]. split; [discriminate|].
        intros _. exists Browser.BrowserProcess, c2. now repeat split. }
    destruct (Browser.stop pw) as [[]|c3] eqn:H3; cbn [fst snd app].
    2:{ exists 2%nat. split; [lia|]. split; [reflexivity|].
        split; [apply Hin; repeat constructor; assumption|].
        split; [discriminate|].
        intros _. exists Browser.Engine, c3. now repeat split. }
    exists 3%nat. split; [lia|]. split; [reflexivity|].
    split; [apply Hin; repeat constructor; assumption|].
    split; [reflexivity|]. lia.
  - destruct (Browser.page_close pw) as [[]|c0] eqn:H0; cbn [fst snd app].
    2:{ exists 0%nat. split; [lia|]. split; [reflexivity|].
        split; [apply Hin; constructor|]. split; [discriminate|].
        intros _. exists Browser.Tab, c0. now repeat split. }
    destruct (Browser.context_close pw) as [[]|c1] eqn:H1; cbn [fst snd app].
    2:{ exists 1%nat. split; [lia|]. split; [reflexivity|].
        split; [apply Hin; repeat constructor; exact H0|]. split; [discriminate|].
        intros _. exists Browser.Context, c1. now repeat split. }
    destruct (Browser.browser_close pw) as [[]|c2] eqn:H2; cbn [fst snd app].
    2:{ exists 2%nat. split; [lia|]. split; [reflexivity|].
        split; [apply Hin; repeat constructor; assumption|].
        split; [discriminate|].
        intros _. exists Browser.BrowserProcess, c2. now repeat split. }
    destruct (Browser.stop pw) as [[]|c3] eqn:H3; cbn [fst snd app].
    2:{ exists 3%nat. split; [lia|]. split; [reflexivity|].
        split; [apply Hin; repeat constructor; assumption|].
        split; [discriminate|].
        intros _. exists Browser.Engine, c3. now repeat split. }
    exists 4%nat. split; [lia|]. split; [reflexivity|].
    split; [apply Hin; repeat constructor; assumption|].
    split; [reflexivity|]. lia.
Qed.

Lemma cleanup_stops_at_the_first_failing_close_witness :
  exists k,
    (k <= 4)%nat /\
    Browser.check_event Browser.page_close_fails (Returns tt) =
      map Browser.Acquired
          [Browser.Engine; Browser.BrowserProcess; Browser.Context; Browser.Tab]
      ++ map Browser.Released
           (firstn k [Browser.Tab; Browser.Context; Browser.BrowserProcess;
                      Browser.Engine]) /\
    (forall r,
       In r (firstn k [Browser.Tab; Browser.Context; Browser.BrowserProcess;
                       Browser.Engine]) ->
       Sessions.close_call Browser.page_close_fails r = Returns tt) /\
    (k = 4%nat ->
     fst (Browser.async_with Browser.page_close_fails (Returns tt)) = Returns tt) /\
    ((k < 4)%nat ->
     exists r e,
       nth_error [Browser.Tab; Browser.Context; Browser.BrowserProcess;
                  Browser.Engine] k = Some r /\
       Sessions.close_call Browser.page_close_fails r = Raises e /\
       fst (Browser.async_with Browser.page_close_fails (Returns tt)) = Raises e).
Proof.
  apply (cleanup_stops_at_the_first_failing_close Browser.page_close_fails
           (Returns tt)).
  reflexivity.
Defined.
